(** * Dojo training log: the progression engine

    A shallow embedding of the next-target engine of the Dojo training log
    (a zero-dependency PWA written in JavaScript), and the properties its
    specification states about it.

    Two generations of the engine are in the repository:
    - the effort-driven engine (classes [RepsExercise],
      [WeightedRepsExercise], [IsometricExercise] with
      [getRecentCompleteLogs] and [getWeeklyVolume]), embedded in
      [Module Rir];
    - the grease-the-groove engine of [docs/app.js]
      ([normalizeExerciseRecord], [getEffectiveIntensity]), embedded in
      [Module Gtg].

    Conventions of the embedding:
    - a JavaScript number is an exact rational ([Q]); NaN, the infinities
      and binary rounding are outside the model, and results are compared
      with [==]; a property that rests on the value of a sum is stated for
      whole numbers within [2^53], where the additions of the code are
      exact as well;
    - a property that may be absent ([undefined]) is an [option];
    - reading a property of [undefined] throws: fallible code lives in the
      [result] monad;
    - arrays are lists in the functional reading of the engine; the
      array-level reading ([Module RirHeap]) keeps every array in a store
      so that in-place operations ([sort], [push]) are visible. *)

From stdpp Require Import base option gmap strings.
From Stdlib Require Import QArith Qround Qminmax Lqa ZArith Lia List String Bool.
From Stdlib Require Import Sorted Permutation Qabs Ascii.
Import ListNotations.
Local Open Scope string_scope.
Local Open Scope list_scope.
Local Open Scope Q_scope.

(** ** JavaScript numbers and the [Math] functions the engine calls *)

Definition DAY_MS : Q := 24 * 60 * 60 * 1000.

(** [a >= b], [a > b], [a < b], [a <= b], [a === b] on numbers. *)
Definition Qgeb (a b : Q) : bool := Qle_bool b a.
Definition Qgtb (a b : Q) : bool := negb (Qle_bool a b).
Definition Qltb (a b : Q) : bool := negb (Qle_bool b a).
Definition Qleb (a b : Q) : bool := Qle_bool a b.
Definition Qeqb (a b : Q) : bool := Qeq_bool a b.

Definition Math_max (a b : Q) : Q := Qmax a b.
Definition Math_min (a b : Q) : Q := Qmin a b.

(** [Math.round]: the nearest integer, halves rounded up. *)
Definition Math_round (x : Q) : Q := inject_Z (Qfloor (x + (1 # 2))).

(** [ToIntegerOrInfinity] of a finite number: truncation towards zero. *)
Definition ToInteger (x : Q) : Z :=
  if Qle_bool 0 x then Qfloor x else Qceiling x.

(** [a ?? b] on a possibly undefined number. *)
Definition orElse {A : Type} (o : option A) (d : A) : A :=
  match o with
  | Some v => v
  | None => d
  end.

(** ** Results of fallible code *)

Inductive result (A : Type) : Type :=
| Ok (a : A)
| Throw (e : string).
Arguments Ok {A} a.
Arguments Throw {A} e.

Definition rbind {A B : Type} (m : result A) (k : A -> result B) : result B :=
  match m with
  | Ok a => k a
  | Throw e => Throw e
  end.

Declare Scope result_scope.
Delimit Scope result_scope with result.
Notation "'let*' x ':=' m 'in' k" := (rbind m (fun x => k))
  (at level 10, x name, m at level 100, k at level 200) : result_scope.
Notation "'let*' ' p ':=' m 'in' k" := (rbind m (fun x => let 'p := x in k))
  (at level 10, p strict pattern, m at level 100, k at level 200) : result_scope.

Definition TypeError : string := "TypeError".

(** Reading a property of a value that may be [undefined]. *)
Definition getProp {A B : Type} (o : option A) (field : A -> B) : result B :=
  match o with
  | Some v => Ok (field v)
  | None => Throw TypeError
  end.

(** ** Arrays: the methods the engine uses *)

Section ArrayMethods.
Context {A : Type}.

(** [Array.prototype.sort] is stable. [le x y] says that the comparator
    does not place [x] after [y]: [compareFn(x, y) <= 0]. *)
Variable le : A -> A -> bool.

Fixpoint sort_insert (x : A) (l : list A) : list A :=
  match l with
  | [] => [x]
  | y :: l' => if le x y then x :: l else y :: sort_insert x l'
  end.

Definition Array_sort (l : list A) : list A := fold_right sort_insert [] l.

(** [l.slice(0, e)]: a negative end counts from the back. *)
Definition slice0 (l : list A) (e : Q) : list A :=
  let k := ToInteger e in
  if (k <? 0)%Z
  then firstn (Z.to_nat (Z.of_nat (List.length l) + k)) l
  else firstn (Z.to_nat k) l.
End ArrayMethods.

(** [xs.filter((v) => v !== undefined)] *)
Fixpoint defined {A : Type} (l : list (option A)) : list A :=
  match l with
  | [] => []
  | Some v :: l' => v :: defined l'
  | None :: l' => defined l'
  end.

(** ** Numeric utilities *)

Definition clamp (value min max : Q) : Q := Math_min (Math_max value min) max.

(** The comparator [(a, b) => a - b], as the test [compareFn(a, b) <= 0]. *)
Definition byValue (a b : Q) : bool := Qleb (a - b) 0.

Definition median (values : list Q) : Q :=
  match values with
  | [] => 0
  | _ =>
      let sorted := Array_sort byValue values in
      let mid := Nat.div (List.length sorted) 2 in
      if Nat.eqb (Nat.modulo (List.length sorted) 2) 0
      then (nth (mid - 1) sorted 0 + nth mid sorted 0) / 2
      else nth mid sorted 0
  end.

Definition average (values : list Q) : Q :=
  match values with
  | [] => 0
  | _ => fold_left (fun sum value => sum + value) values 0
         / inject_Z (Z.of_nat (List.length values))
  end.

Definition estimate1RM (reps loadKg : Q) : Q := loadKg * (1 + reps / 30).

(** ** Data model *)

Module LogEntry.
(** The identifiers [id] and [exerciseId] are never read by the engine
    and are left out. *)
Record t : Type := mk {
  timestamp : Q;
  status : string;
  reps : option Q;
  loadKg : option Q;
  durationSec : option Q;
  rir : option Q;
  pain0to10 : option Q
}.
End LogEntry.

Module Range.
Record t : Type := mk { min : Q; max : Q }.
End Range.

Module Profile.
Record t : Type := mk {
  targetRirMin : Q;
  targetRirMax : Q;
  maxWeeklyVolumeIncreasePct : Q;
  painWarn : Q;
  painReduce : Q;
  deloadDays : Q;
  deloadVolumeFactor : Q;
  freezeDaysIfPain : Q
}.
End Profile.

Definition defaultProgression : Profile.t :=
  {| Profile.targetRirMin := 3;
     Profile.targetRirMax := 5;
     Profile.maxWeeklyVolumeIncreasePct := 10;
     Profile.painWarn := 3;
     Profile.painReduce := 5;
     Profile.deloadDays := 7;
     Profile.deloadVolumeFactor := 65 # 100;
     Profile.freezeDaysIfPain := 2 |}.

Module Ctx.
Record t : Type := mk { now : Q; profile : Profile.t }.
End Ctx.

Module TopSet.
Record t : Type := mk { reps : option Q; loadKg : option Q }.
End TopSet.

Module Baseline.
Record t : Type := mk {
  maxCleanReps : option Q;
  topSet : option TopSet.t;
  maxCleanHoldSec : option Q;
  intensityPct : option Q
}.
(** The object literal [{}]. *)
Definition empty : t := mk None None None None.
End Baseline.

(** An exercise record as the store or a JSON import hands it over: every
    configuration field may be missing. *)
Module ExerciseRecord.
Record t : Type := mk {
  type : string;
  progressionProfile : option Profile.t;
  repRange : option Range.t;
  repIncrement : option Q;
  minRepsFloor : option Q;
  loadIncrementKg : option Q;
  durationRangeSec : option Range.t;
  timeIncrementSec : option Q;
  baseline : option Baseline.t;
  deloadUntil : option Q
}.
End ExerciseRecord.

(** ** Pain/volume aggregator (shared by both engines) *)

Module WeeklyVolume.
Record t : Type := mk { volumeThisWeek : Q; volumePrevWeek : Q }.
End WeeklyVolume.

Definition getWeeklyVolume (logs : list LogEntry.t) (now : Q)
    (volumeFn : LogEntry.t -> Q) : WeeklyVolume.t :=
  let weekStart := now - 7 * DAY_MS in
  let prevWeekStart := now - 14 * DAY_MS in
  let volumeThisWeek :=
    fold_left (fun sum log => sum + volumeFn log)
      (List.filter (fun log => Qgeb (LogEntry.timestamp log) weekStart) logs) 0 in
  let volumePrevWeek :=
    fold_left (fun sum log => sum + volumeFn log)
      (List.filter (fun log => Qgeb (LogEntry.timestamp log) prevWeekStart
                               && Qltb (LogEntry.timestamp log) weekStart) logs) 0 in
  {| WeeklyVolume.volumeThisWeek := volumeThisWeek;
     WeeklyVolume.volumePrevWeek := volumePrevWeek |}.

(** ** The effort-driven engine *)

Module Rir.

Module Guard.
Record t : Type := mk {
  recentLogs : list LogEntry.t;
  profile : Profile.t;
  explanation : list string;
  frozen : bool;
  deload : bool
}.
End Guard.

(** The comparator [(a, b) => b.timestamp - a.timestamp], as the test
    [compareFn(a, b) <= 0]. *)
Definition byNewest (a b : LogEntry.t) : bool :=
  Qleb (LogEntry.timestamp b - LogEntry.timestamp a) 0.

Definition workingSet (logs : list LogEntry.t) (now : Q) : list LogEntry.t :=
  firstn 30
    (Array_sort byNewest
       (List.filter (fun log => Qleb (now - LogEntry.timestamp log) (14 * DAY_MS))
          (List.filter (fun log => String.eqb (LogEntry.status log) "complete") logs))).

Definition painFlagsOf (logs : list LogEntry.t) (profile : Profile.t) : list LogEntry.t :=
  slice0
    (Array_sort byNewest
       (List.filter (fun log => match LogEntry.pain0to10 log with
                                | Some _ => true
                                | None => false
                                end) logs))
    (Profile.freezeDaysIfPain profile).

Definition getRecentCompleteLogs (logs : list LogEntry.t) (ctx : Ctx.t)
    (overrideProfile : option Profile.t) : Guard.t :=
  let profile := orElse overrideProfile (Ctx.profile ctx) in
  let recentLogs := workingSet logs (Ctx.now ctx) in
  let explanation : list string := [] in
  let painFlags := painFlagsOf logs profile in
  let painHigh :=
    existsb (fun log => Qgeb (orElse (LogEntry.pain0to10 log) 0) (Profile.painReduce profile))
      painFlags in
  let painWarnStreak :=
    Qeqb (inject_Z (Z.of_nat (List.length painFlags))) (Profile.freezeDaysIfPain profile)
    && forallb (fun log => Qgeb (orElse (LogEntry.pain0to10 log) 0) (Profile.painWarn profile))
         painFlags in
  let deload := painHigh || painWarnStreak in
  let frozen := deload in
  let explanation :=
    if deload then explanation ++ ["Pain guardrails triggered a deload."] else explanation in
  {| Guard.recentLogs := recentLogs;
     Guard.profile := profile;
     Guard.explanation := explanation;
     Guard.frozen := frozen;
     Guard.deload := deload |}.

(** [recentLogs.map((log) => log.rir).filter((rir) => rir !== undefined)],
    then [recentRir.length ? median(recentRir) : undefined]. *)
Definition medianRirOf (recentLogs : list LogEntry.t) : option Q :=
  let recentRir := defined (map LogEntry.rir recentLogs) in
  match recentRir with
  | [] => None
  | _ => Some (median recentRir)
  end.

Definition volumeIncreasePctOf (v : WeeklyVolume.t) : Q :=
  if Qeqb (WeeklyVolume.volumePrevWeek v) 0 then 0
  else ((WeeklyVolume.volumeThisWeek v - WeeklyVolume.volumePrevWeek v)
        / WeeklyVolume.volumePrevWeek v) * 100.

(** The condition of the volume-cap override. *)
Definition capHit (v : WeeklyVolume.t) (profile : Profile.t) : bool :=
  Qgtb (WeeklyVolume.volumePrevWeek v) 0
  && Qgtb (volumeIncreasePctOf v) (Profile.maxWeeklyVolumeIncreasePct profile).

Module RepsTarget.
Record t : Type := mk {
  metricType : string;
  reps : Q;
  explanation : list string;
  frozen : bool;
  deload : bool
}.
End RepsTarget.

Module RepsExercise.
Record t : Type := mk {
  progressionProfile : option Profile.t;
  repRange : option Range.t;
  repIncrement : Q;
  minRepsFloor : Q
}.

Definition new (input : ExerciseRecord.t) : t :=
  {| progressionProfile := ExerciseRecord.progressionProfile input;
     repRange := ExerciseRecord.repRange input;
     repIncrement := orElse (ExerciseRecord.repIncrement input) 1;
     minRepsFloor := orElse (ExerciseRecord.minRepsFloor input) 1 |}.

Definition volumeFn (log : LogEntry.t) : Q := orElse (LogEntry.reps log) 0.

Definition computeNextTarget (this : t) (logs : list LogEntry.t) (ctx : Ctx.t)
    : result RepsTarget.t :=
  (let g := getRecentCompleteLogs logs ctx (progressionProfile this) in
   let recentLogs := Guard.recentLogs g in
   let profile := Guard.profile g in
   let explanation := Guard.explanation g in
   let frozen := Guard.frozen g in
   let deload := Guard.deload g in
   let medianRir := medianRirOf recentLogs in
   let* lastTarget :=
     match hd_error recentLogs ≫= LogEntry.reps with
     | Some r => Ok r
     | None => getProp (repRange this) Range.min
     end in
   let nextReps := lastTarget in
   (* if (!frozen && !deload && medianRir !== undefined) *)
   let '(nextReps, explanation) :=
     match medianRir with
     | Some medianRir =>
         if negb frozen && negb deload then
           if Qgtb medianRir (Profile.targetRirMax profile) then
             (nextReps + repIncrement this,
              explanation ++ ["Effort was easy; nudging reps up."])
           else if Qltb medianRir (Profile.targetRirMin profile) then
             (nextReps - repIncrement this,
              explanation ++ ["Effort was high; reducing reps."])
           else (nextReps, explanation)
         else (nextReps, explanation)
     | None => (nextReps, explanation)
     end in
   let* repRange_max := getProp (repRange this) Range.max in
   let nextReps := clamp nextReps (minRepsFloor this) repRange_max in
   let v := getWeeklyVolume logs (Ctx.now ctx) volumeFn in
   let '(nextReps, explanation) :=
     if capHit v profile
     then (lastTarget, explanation ++ ["Volume cap hit; holding steady."])
     else (nextReps, explanation) in
   let '(nextReps, explanation) :=
     if deload
     then (Math_max (minRepsFloor this)
             (Math_round (lastTarget * Profile.deloadVolumeFactor profile)),
           explanation ++ ["Deload active; reducing volume."])
     else (nextReps, explanation) in
   Ok {| RepsTarget.metricType := "reps";
         RepsTarget.reps := nextReps;
         RepsTarget.explanation := explanation;
         RepsTarget.frozen := frozen;
         RepsTarget.deload := deload |})%result.
End RepsExercise.

Module WeightedTarget.
Record t : Type := mk {
  metricType : string;
  reps : Q;
  loadKg : Q;
  explanation : list string;
  frozen : bool;
  deload : bool
}.
End WeightedTarget.

Module WeightedRepsExercise.
Record t : Type := mk {
  progressionProfile : option Profile.t;
  repRange : option Range.t;
  repIncrement : Q;
  loadIncrementKg : Q
}.

(** [progressionPriority] is stored by the constructor and never read. *)
Definition new (input : ExerciseRecord.t) : t :=
  {| progressionProfile := ExerciseRecord.progressionProfile input;
     repRange := ExerciseRecord.repRange input;
     repIncrement := orElse (ExerciseRecord.repIncrement input) 1;
     loadIncrementKg := orElse (ExerciseRecord.loadIncrementKg input) (25 # 10) |}.

Definition volumeFn (log : LogEntry.t) : Q :=
  orElse (LogEntry.reps log) 0 * orElse (LogEntry.loadKg log) 0.

Definition computeNextTarget (this : t) (logs : list LogEntry.t) (ctx : Ctx.t)
    : result WeightedTarget.t :=
  (let g := getRecentCompleteLogs logs ctx (progressionProfile this) in
   let recentLogs := Guard.recentLogs g in
   let profile := Guard.profile g in
   let explanation := Guard.explanation g in
   let frozen := Guard.frozen g in
   let deload := Guard.deload g in
   let medianRir := medianRirOf recentLogs in
   let lastLog := hd_error recentLogs in
   let* lastReps :=
     match lastLog ≫= LogEntry.reps with
     | Some r => Ok r
     | None => getProp (repRange this) Range.min
     end in
   let lastLoad := orElse (lastLog ≫= LogEntry.loadKg) (loadIncrementKg this * 4) in
   let nextReps := lastReps in
   let nextLoad := lastLoad in
   (* if (!frozen && !deload && medianRir !== undefined) *)
   let* '(nextReps, nextLoad, explanation) :=
     match medianRir with
     | Some medianRir =>
         if negb frozen && negb deload then
           if Qgtb medianRir (Profile.targetRirMax profile) then
             let* repRange_max := getProp (repRange this) Range.max in
             if Qltb lastReps repRange_max then
               Ok (nextReps + repIncrement this, nextLoad,
                   explanation ++ ["Effort was easy; nudging reps up."])
             else
               let* repRange_min := getProp (repRange this) Range.min in
               Ok (repRange_min, nextLoad + loadIncrementKg this,
                   explanation ++ ["Hit top reps; adding load and resetting reps."])
           else if Qltb medianRir (Profile.targetRirMin profile) then
             let* repRange_min := getProp (repRange this) Range.min in
             Ok (Math_max repRange_min (lastReps - repIncrement this), nextLoad,
                 explanation ++ ["Effort was high; reducing reps."])
           else Ok (nextReps, nextLoad, explanation)
         else Ok (nextReps, nextLoad, explanation)
     | None => Ok (nextReps, nextLoad, explanation)
     end in
   let v := getWeeklyVolume logs (Ctx.now ctx) volumeFn in
   let '(nextReps, nextLoad, explanation) :=
     if capHit v profile
     then (lastReps, lastLoad, explanation ++ ["Volume cap hit; holding steady."])
     else (nextReps, nextLoad, explanation) in
   let* '(nextReps, nextLoad, explanation) :=
     if deload
     then
       let* repRange_min := getProp (repRange this) Range.min in
       Ok (Math_max repRange_min
             (Math_round (lastReps * Profile.deloadVolumeFactor profile)),
           Math_max (loadIncrementKg this)
             (Math_round (lastLoad * Profile.deloadVolumeFactor profile)),
           explanation ++ ["Deload active; reducing volume."])
     else Ok (nextReps, nextLoad, explanation) in
   Ok {| WeightedTarget.metricType := "weightedReps";
         WeightedTarget.reps := nextReps;
         WeightedTarget.loadKg := nextLoad;
         WeightedTarget.explanation := explanation;
         WeightedTarget.frozen := frozen;
         WeightedTarget.deload := deload |})%result.
End WeightedRepsExercise.

Module IsometricTarget.
Record t : Type := mk {
  metricType : string;
  durationSec : Q;
  explanation : list string;
  frozen : bool;
  deload : bool
}.
End IsometricTarget.

Module IsometricExercise.
Record t : Type := mk {
  progressionProfile : option Profile.t;
  durationRangeSec : option Range.t;
  timeIncrementSec : Q
}.

Definition new (input : ExerciseRecord.t) : t :=
  {| progressionProfile := ExerciseRecord.progressionProfile input;
     durationRangeSec := ExerciseRecord.durationRangeSec input;
     timeIncrementSec := orElse (ExerciseRecord.timeIncrementSec input) 5 |}.

Definition volumeFn (log : LogEntry.t) : Q := orElse (LogEntry.durationSec log) 0.

Definition computeNextTarget (this : t) (logs : list LogEntry.t) (ctx : Ctx.t)
    : result IsometricTarget.t :=
  (let g := getRecentCompleteLogs logs ctx (progressionProfile this) in
   let recentLogs := Guard.recentLogs g in
   let profile := Guard.profile g in
   let explanation := Guard.explanation g in
   let frozen := Guard.frozen g in
   let deload := Guard.deload g in
   let medianRir := medianRirOf recentLogs in
   let* lastTarget :=
     match hd_error recentLogs ≫= LogEntry.durationSec with
     | Some d => Ok d
     | None => getProp (durationRangeSec this) Range.min
     end in
   let nextDuration := lastTarget in
   (* if (!frozen && !deload && medianRir !== undefined) *)
   let '(nextDuration, explanation) :=
     match medianRir with
     | Some medianRir =>
         if negb frozen && negb deload then
           if Qgtb medianRir (Profile.targetRirMax profile) then
             (nextDuration + timeIncrementSec this,
              explanation ++ ["Effort was easy; nudging time up."])
           else if Qltb medianRir (Profile.targetRirMin profile) then
             (nextDuration - timeIncrementSec this,
              explanation ++ ["Effort was high; reducing time."])
           else (nextDuration, explanation)
         else (nextDuration, explanation)
     | None => (nextDuration, explanation)
     end in
   let* range_min := getProp (durationRangeSec this) Range.min in
   let* range_max := getProp (durationRangeSec this) Range.max in
   let nextDuration := clamp nextDuration range_min range_max in
   let v := getWeeklyVolume logs (Ctx.now ctx) volumeFn in
   let '(nextDuration, explanation) :=
     if capHit v profile
     then (lastTarget, explanation ++ ["Volume cap hit; holding steady."])
     else (nextDuration, explanation) in
   let '(nextDuration, explanation) :=
     if deload
     then (Math_max range_min
             (Math_round (lastTarget * Profile.deloadVolumeFactor profile)),
           explanation ++ ["Deload active; reducing volume."])
     else (nextDuration, explanation) in
   Ok {| IsometricTarget.metricType := "isometric";
         IsometricTarget.durationSec := nextDuration;
         IsometricTarget.explanation := explanation;
         IsometricTarget.frozen := frozen;
         IsometricTarget.deload := deload |})%result.
End IsometricExercise.

(** The three classes behind one interface. *)
Inductive Exercise : Type :=
| Reps (e : RepsExercise.t)
| Weighted (e : WeightedRepsExercise.t)
| Isometric (e : IsometricExercise.t).

Inductive NextTarget : Type :=
| RepsNext (t : RepsTarget.t)
| WeightedNext (t : WeightedTarget.t)
| IsometricNext (t : IsometricTarget.t).

Definition hydrateExercise (record : ExerciseRecord.t) : Exercise :=
  if String.eqb (ExerciseRecord.type record) "reps" then
    Reps (RepsExercise.new record)
  else if String.eqb (ExerciseRecord.type record) "weighted" then
    Weighted (WeightedRepsExercise.new record)
  else Isometric (IsometricExercise.new record).

Definition computeNextTarget (exercise : Exercise) (logs : list LogEntry.t)
    (ctx : Ctx.t) : result NextTarget :=
  match exercise with
  | Reps e =>
      rbind (RepsExercise.computeNextTarget e logs ctx) (fun t => Ok (RepsNext t))
  | Weighted e =>
      rbind (WeightedRepsExercise.computeNextTarget e logs ctx)
        (fun t => Ok (WeightedNext t))
  | Isometric e =>
      rbind (IsometricExercise.computeNextTarget e logs ctx)
        (fun t => Ok (IsometricNext t))
  end.

End Rir.

(** ** The grease-the-groove engine of [docs/app.js] *)

Module Gtg.

Definition GTG_INTENSITY_PRESETS_easy : Q := 4 # 10.
Definition GTG_INTENSITY_PRESETS_normal : Q := 5 # 10.
Definition GTG_INTENSITY_PRESETS_hard : Q := 6 # 10.
Definition INTENSITY_MIN : Q := 3 # 10.
Definition INTENSITY_MAX : Q := 7 # 10.

Definition normalizeIntensity (value : option Q) : Q :=
  match value with
  | None => GTG_INTENSITY_PRESETS_normal
  | Some v => clamp v INTENSITY_MIN INTENSITY_MAX
  end.

(** [x ? a : b] on a possibly undefined number: [undefined] and [0] are falsy. *)
Definition truthy (o : option Q) : bool :=
  match o with
  | Some v => negb (Qeqb v 0)
  | None => false
  end.

(** The record that comes back always carries a baseline. *)
Definition normalizeExerciseRecord (record : ExerciseRecord.t) : ExerciseRecord.t :=
  let baseline := orElse (ExerciseRecord.baseline record) Baseline.empty in
  let baseline :=
    if String.eqb (ExerciseRecord.type record) "reps" then
      {| Baseline.maxCleanReps :=
           Some (orElse (Baseline.maxCleanReps baseline)
                   (orElse (Range.max <$> ExerciseRecord.repRange record) 10));
         Baseline.topSet := Baseline.topSet baseline;
         Baseline.maxCleanHoldSec := Baseline.maxCleanHoldSec baseline;
         Baseline.intensityPct := Baseline.intensityPct baseline |}
    else if String.eqb (ExerciseRecord.type record) "weighted" then
      {| Baseline.maxCleanReps := Baseline.maxCleanReps baseline;
         Baseline.topSet :=
           Some (orElse (Baseline.topSet baseline)
                   {| TopSet.reps :=
                        Some (orElse (Range.max <$> ExerciseRecord.repRange record) 8);
                      TopSet.loadKg :=
                        Some (if truthy (ExerciseRecord.loadIncrementKg record)
                              then orElse (ExerciseRecord.loadIncrementKg record) 0 * 4
                              else 20) |});
         Baseline.maxCleanHoldSec := Baseline.maxCleanHoldSec baseline;
         Baseline.intensityPct := Baseline.intensityPct baseline |}
    else
      {| Baseline.maxCleanReps := Baseline.maxCleanReps baseline;
         Baseline.topSet := Baseline.topSet baseline;
         Baseline.maxCleanHoldSec :=
           Some (orElse (Baseline.maxCleanHoldSec baseline)
                   (orElse (Range.max <$> ExerciseRecord.durationRangeSec record) 30));
         Baseline.intensityPct := Baseline.intensityPct baseline |} in
  let baseline :=
    {| Baseline.maxCleanReps := Baseline.maxCleanReps baseline;
       Baseline.topSet := Baseline.topSet baseline;
       Baseline.maxCleanHoldSec := Baseline.maxCleanHoldSec baseline;
       Baseline.intensityPct :=
         Some (normalizeIntensity
                 (Some (orElse (Baseline.intensityPct baseline)
                          GTG_INTENSITY_PRESETS_normal))) |} in
  {| ExerciseRecord.type := ExerciseRecord.type record;
     ExerciseRecord.progressionProfile := ExerciseRecord.progressionProfile record;
     ExerciseRecord.repRange := ExerciseRecord.repRange record;
     ExerciseRecord.repIncrement := ExerciseRecord.repIncrement record;
     ExerciseRecord.minRepsFloor := ExerciseRecord.minRepsFloor record;
     ExerciseRecord.loadIncrementKg := ExerciseRecord.loadIncrementKg record;
     ExerciseRecord.durationRangeSec := ExerciseRecord.durationRangeSec record;
     ExerciseRecord.timeIncrementSec := ExerciseRecord.timeIncrementSec record;
     ExerciseRecord.baseline := Some baseline;
     ExerciseRecord.deloadUntil := ExerciseRecord.deloadUntil record |}.

(** The three classes keep the same two fields; [kind] tells them apart. *)
Inductive Kind : Type := Reps | Weighted | Isometric.

Module Exercise.
Record t : Type := mk {
  kind : Kind;
  baseline : Baseline.t;
  deloadUntil : option Q
}.
End Exercise.

Definition hydrateExercise (record : ExerciseRecord.t) : Exercise.t :=
  let normalized := normalizeExerciseRecord record in
  let kind :=
    if String.eqb (ExerciseRecord.type normalized) "reps" then Reps
    else if String.eqb (ExerciseRecord.type normalized) "weighted" then Weighted
    else Isometric in
  {| Exercise.kind := kind;
     Exercise.baseline := orElse (ExerciseRecord.baseline normalized) Baseline.empty;
     Exercise.deloadUntil := ExerciseRecord.deloadUntil normalized |}.

Definition getIntensityLabel (intensityPct : Q) : string :=
  let rounded := Math_round (intensityPct * 100) in
  if Qeqb rounded 40 then "Easy"
  else if Qeqb rounded 50 then "Normal"
  else if Qeqb rounded 60 then "Hard"
  else if Qeqb rounded 30 then "Deload"
  else "Auto".

Definition buildIntensityExplanation (intensityPct : Q) (deloadActive : bool)
    : list string :=
  let label := getIntensityLabel intensityPct in
  if deloadActive then ["Deload active: easy sets for recovery."]
  else [String.append "GTG intensity: " (String.append label ".")].

Definition getEffectiveIntensity (exercise : Exercise.t) (now : Q) : Q * bool :=
  let baselineIntensity :=
    normalizeIntensity
      (Some (orElse (Baseline.intensityPct (Exercise.baseline exercise))
               GTG_INTENSITY_PRESETS_normal)) in
  let deloadActive :=
    if truthy (Exercise.deloadUntil exercise)
    then Qltb now (orElse (Exercise.deloadUntil exercise) 0)
    else false in
  let intensityPct := if deloadActive then INTENSITY_MIN else baselineIntensity in
  (intensityPct, deloadActive).

Module NextTarget.
Record t : Type := mk {
  metricType : string;
  reps : option Q;
  loadKg : option Q;
  durationSec : option Q;
  explanation : list string;
  deload : bool
}.
End NextTarget.

(** No step of the three methods reads a property of a value that may be
    [undefined]: the function is total as written. *)
Definition computeNextTarget (this : Exercise.t) (logs : list LogEntry.t)
    (ctx : Ctx.t) : NextTarget.t :=
  let '(intensityPct, deloadActive) := getEffectiveIntensity this (Ctx.now ctx) in
  let explanation := buildIntensityExplanation intensityPct deloadActive in
  match Exercise.kind this with
  | Reps =>
      let maxCleanReps := orElse (Baseline.maxCleanReps (Exercise.baseline this)) 1 in
      let nextReps := Math_max 1 (Math_round (maxCleanReps * intensityPct)) in
      {| NextTarget.metricType := "reps";
         NextTarget.reps := Some nextReps;
         NextTarget.loadKg := None;
         NextTarget.durationSec := None;
         NextTarget.explanation := explanation;
         NextTarget.deload := deloadActive |}
  | Weighted =>
      let topSet :=
        orElse (Baseline.topSet (Exercise.baseline this))
          {| TopSet.reps := Some 1; TopSet.loadKg := Some 0 |} in
      let nextReps :=
        Math_max 1 (Math_round (orElse (TopSet.reps topSet) 1 * intensityPct)) in
      let nextLoad := orElse (TopSet.loadKg topSet) 0 in
      {| NextTarget.metricType := "weightedReps";
         NextTarget.reps := Some nextReps;
         NextTarget.loadKg := Some nextLoad;
         NextTarget.durationSec := None;
         NextTarget.explanation := explanation;
         NextTarget.deload := deloadActive |}
  | Isometric =>
      let maxHold := orElse (Baseline.maxCleanHoldSec (Exercise.baseline this)) 5 in
      let nextDuration := Math_max 5 (Math_round (maxHold * intensityPct)) in
      {| NextTarget.metricType := "isometric";
         NextTarget.reps := None;
         NextTarget.loadKg := None;
         NextTarget.durationSec := Some nextDuration;
         NextTarget.explanation := explanation;
         NextTarget.deload := deloadActive |}
  end.

End Gtg.

(** ** The array-level reading of the effort-driven engine

    Every array lives in a store and is named by a reference. [filter],
    [map], [slice], the spread [[...values]] and an array literal allocate a
    new array; [sort] and [push] change the array they are called on. The
    log objects themselves are only read. *)

Module RirHeap.

Inductive cell : Type :=
| Logs (l : list LogEntry.t)
| OptNums (l : list (option Q))
| Nums (l : list Q)
| Strs (l : list string).

Definition ref : Type := nat.

Definition M (A : Type) : Type := gmap nat cell -> result A * gmap nat cell.

Definition ret {A : Type} (a : A) : M A := fun h => (Ok a, h).

Definition bind {A B : Type} (m : M A) (k : A -> M B) : M B :=
  fun h =>
    match m h with
    | (Ok a, h') => k a h'
    | (Throw e, h') => (Throw e, h')
    end.

Definition throw {A : Type} (e : string) : M A := fun h => (Throw e, h).

Declare Scope heap_scope.
Delimit Scope heap_scope with heap.
Notation "'do' x '<-' m ';' k" := (bind m (fun x => k))
  (at level 10, x name, m at level 100, k at level 200) : heap_scope.
Notation "'do' ' p '<-' m ';' k" := (bind m (fun x => let 'p := x in k))
  (at level 10, p strict pattern, m at level 100, k at level 200) : heap_scope.

Definition lift {A : Type} (r : result A) : M A :=
  match r with
  | Ok a => ret a
  | Throw e => throw e
  end.

(** *** Store primitives *)

Definition alloc (c : cell) : M ref :=
  fun h => let r := fresh (dom h) in (Ok r, <[r := c]> h).

Definition write (a : ref) (c : cell) : M unit :=
  fun h => (Ok tt, <[a := c]> h).

Definition readLogs (a : ref) : M (list LogEntry.t) :=
  fun h => match h !! a with
           | Some (Logs l) => (Ok l, h)
           | _ => (Throw TypeError, h)
           end.

Definition readOptNums (a : ref) : M (list (option Q)) :=
  fun h => match h !! a with
           | Some (OptNums l) => (Ok l, h)
           | _ => (Throw TypeError, h)
           end.

Definition readNums (a : ref) : M (list Q) :=
  fun h => match h !! a with
           | Some (Nums l) => (Ok l, h)
           | _ => (Throw TypeError, h)
           end.

Definition readStrs (a : ref) : M (list string) :=
  fun h => match h !! a with
           | Some (Strs l) => (Ok l, h)
           | _ => (Throw TypeError, h)
           end.

(** *** Array methods *)

Definition filterLogs (p : LogEntry.t -> bool) (a : ref) : M ref :=
  (do l <- readLogs a; alloc (Logs (List.filter p l)))%heap.

(** [a.sort(compareFn)] sorts [a] itself and returns it. *)
Definition sortLogs (le : LogEntry.t -> LogEntry.t -> bool) (a : ref) : M ref :=
  (do l <- readLogs a;
   do _ <- write a (Logs (Array_sort le l));
   ret a)%heap.

Definition sliceLogs (a : ref) (n : nat) : M ref :=
  (do l <- readLogs a; alloc (Logs (firstn n l)))%heap.

Definition slice0Logs (a : ref) (e : Q) : M ref :=
  (do l <- readLogs a; alloc (Logs (slice0 l e)))%heap.

Definition someLogs (p : LogEntry.t -> bool) (a : ref) : M bool :=
  (do l <- readLogs a; ret (existsb p l))%heap.

Definition everyLogs (p : LogEntry.t -> bool) (a : ref) : M bool :=
  (do l <- readLogs a; ret (forallb p l))%heap.

Definition lengthLogs (a : ref) : M Q :=
  (do l <- readLogs a; ret (inject_Z (Z.of_nat (List.length l))))%heap.

(** [a[0]] *)
Definition firstLog (a : ref) : M (option LogEntry.t) :=
  (do l <- readLogs a; ret (hd_error l))%heap.

Definition reduceLogs (f : Q -> LogEntry.t -> Q) (init : Q) (a : ref) : M Q :=
  (do l <- readLogs a; ret (fold_left f l init))%heap.

Definition mapLogs (f : LogEntry.t -> option Q) (a : ref) : M ref :=
  (do l <- readLogs a; alloc (OptNums (map f l)))%heap.

Definition filterDefined (a : ref) : M ref :=
  (do l <- readOptNums a; alloc (Nums (defined l)))%heap.

(** [[...a]] *)
Definition spreadNums (a : ref) : M ref :=
  (do l <- readNums a; alloc (Nums l))%heap.

Definition sortNums (le : Q -> Q -> bool) (a : ref) : M ref :=
  (do l <- readNums a;
   do _ <- write a (Nums (Array_sort le l));
   ret a)%heap.

Definition push (a : ref) (s : string) : M unit :=
  (do l <- readStrs a; write a (Strs (l ++ [s])))%heap.

(** *** The engine *)

Definition median (values : ref) : M Q :=
  (do vs <- readNums values;
   match vs with
   | [] => ret 0
   | _ =>
       do copy <- spreadNums values;
       do sorted <- sortNums byValue copy;
       do s <- readNums sorted;
       let mid := Nat.div (List.length s) 2 in
       if Nat.eqb (Nat.modulo (List.length s) 2) 0
       then ret ((nth (mid - 1) s 0 + nth mid s 0) / 2)
       else ret (nth mid s 0)
   end)%heap.

Module Guard.
Record t : Type := mk {
  recentLogs : ref;
  profile : Profile.t;
  explanation : ref;
  frozen : bool;
  deload : bool
}.
End Guard.

Definition getRecentCompleteLogs (logs : ref) (ctx : Ctx.t)
    (overrideProfile : option Profile.t) : M Guard.t :=
  (let profile := orElse overrideProfile (Ctx.profile ctx) in
   do a1 <- filterLogs (fun log => String.eqb (LogEntry.status log) "complete") logs;
   do a2 <- filterLogs
              (fun log => Qleb (Ctx.now ctx - LogEntry.timestamp log) (14 * DAY_MS)) a1;
   do a3 <- sortLogs Rir.byNewest a2;
   do recentLogs <- sliceLogs a3 30;
   do explanation <- alloc (Strs []);
   do p1 <- filterLogs (fun log => match LogEntry.pain0to10 log with
                                   | Some _ => true
                                   | None => false
                                   end) logs;
   do p2 <- sortLogs Rir.byNewest p1;
   do painFlags <- slice0Logs p2 (Profile.freezeDaysIfPain profile);
   do painHigh <-
     someLogs (fun log => Qgeb (orElse (LogEntry.pain0to10 log) 0)
                            (Profile.painReduce profile)) painFlags;
   do len <- lengthLogs painFlags;
   do allWarn <-
     everyLogs (fun log => Qgeb (orElse (LogEntry.pain0to10 log) 0)
                             (Profile.painWarn profile)) painFlags;
   let painWarnStreak := Qeqb len (Profile.freezeDaysIfPain profile) && allWarn in
   let deload := painHigh || painWarnStreak in
   let frozen := deload in
   do _ <- (if deload then push explanation "Pain guardrails triggered a deload."
            else ret tt);
   ret {| Guard.recentLogs := recentLogs;
          Guard.profile := profile;
          Guard.explanation := explanation;
          Guard.frozen := frozen;
          Guard.deload := deload |})%heap.

Definition getWeeklyVolume (logs : ref) (now : Q) (volumeFn : LogEntry.t -> Q)
    : M WeeklyVolume.t :=
  (let weekStart := now - 7 * DAY_MS in
   let prevWeekStart := now - 14 * DAY_MS in
   do w <- filterLogs (fun log => Qgeb (LogEntry.timestamp log) weekStart) logs;
   do volumeThisWeek <- reduceLogs (fun sum log => sum + volumeFn log) 0 w;
   do p <- filterLogs (fun log => Qgeb (LogEntry.timestamp log) prevWeekStart
                                  && Qltb (LogEntry.timestamp log) weekStart) logs;
   do volumePrevWeek <- reduceLogs (fun sum log => sum + volumeFn log) 0 p;
   ret {| WeeklyVolume.volumeThisWeek := volumeThisWeek;
          WeeklyVolume.volumePrevWeek := volumePrevWeek |})%heap.

Definition medianRirOf (recentLogs : ref) : M (option Q) :=
  (do m <- mapLogs LogEntry.rir recentLogs;
   do recentRir <- filterDefined m;
   do vs <- readNums recentRir;
   match vs with
   | [] => ret None
   | _ => do x <- median recentRir; ret (Some x)
   end)%heap.

(** The returned objects: [explanation] is the array the guardrail
    evaluator created and the method kept pushing to. *)
Module RepsTarget.
Record t : Type := mk {
  metricType : string;
  reps : Q;
  explanation : ref;
  frozen : bool;
  deload : bool
}.
End RepsTarget.

Module WeightedTarget.
Record t : Type := mk {
  metricType : string;
  reps : Q;
  loadKg : Q;
  explanation : ref;
  frozen : bool;
  deload : bool
}.
End WeightedTarget.

Module IsometricTarget.
Record t : Type := mk {
  metricType : string;
  durationSec : Q;
  explanation : ref;
  frozen : bool;
  deload : bool
}.
End IsometricTarget.

Module RepsExercise.
Definition computeNextTarget (this : Rir.RepsExercise.t) (logs : ref) (ctx : Ctx.t)
    : M RepsTarget.t :=
  (do g <- getRecentCompleteLogs logs ctx (Rir.RepsExercise.progressionProfile this);
   let recentLogs := Guard.recentLogs g in
   let profile := Guard.profile g in
   let explanation := Guard.explanation g in
   let frozen := Guard.frozen g in
   let deload := Guard.deload g in
   do medianRir <- medianRirOf recentLogs;
   do first <- firstLog recentLogs;
   do lastTarget <-
     match first ≫= LogEntry.reps with
     | Some r => ret r
     | None => lift (getProp (Rir.RepsExercise.repRange this) Range.min)
     end;
   let nextReps := lastTarget in
   do nextReps <-
     match medianRir with
     | Some medianRir =>
         if negb frozen && negb deload then
           if Qgtb medianRir (Profile.targetRirMax profile) then
             do _ <- push explanation "Effort was easy; nudging reps up.";
             ret (nextReps + Rir.RepsExercise.repIncrement this)
           else if Qltb medianRir (Profile.targetRirMin profile) then
             do _ <- push explanation "Effort was high; reducing reps.";
             ret (nextReps - Rir.RepsExercise.repIncrement this)
           else ret nextReps
         else ret nextReps
     | None => ret nextReps
     end;
   do repRange_max <- lift (getProp (Rir.RepsExercise.repRange this) Range.max);
   let nextReps := clamp nextReps (Rir.RepsExercise.minRepsFloor this) repRange_max in
   do v <- getWeeklyVolume logs (Ctx.now ctx) Rir.RepsExercise.volumeFn;
   do nextReps <-
     (if Rir.capHit v profile
      then do _ <- push explanation "Volume cap hit; holding steady."; ret lastTarget
      else ret nextReps);
   do nextReps <-
     (if deload
      then do _ <- push explanation "Deload active; reducing volume.";
           ret (Math_max (Rir.RepsExercise.minRepsFloor this)
                  (Math_round (lastTarget * Profile.deloadVolumeFactor profile)))
      else ret nextReps);
   ret {| RepsTarget.metricType := "reps";
          RepsTarget.reps := nextReps;
          RepsTarget.explanation := explanation;
          RepsTarget.frozen := frozen;
          RepsTarget.deload := deload |})%heap.
End RepsExercise.

Module WeightedRepsExercise.
Definition computeNextTarget (this : Rir.WeightedRepsExercise.t) (logs : ref)
    (ctx : Ctx.t) : M WeightedTarget.t :=
  (do g <- getRecentCompleteLogs logs ctx
             (Rir.WeightedRepsExercise.progressionProfile this);
   let recentLogs := Guard.recentLogs g in
   let profile := Guard.profile g in
   let explanation := Guard.explanation g in
   let frozen := Guard.frozen g in
   let deload := Guard.deload g in
   do medianRir <- medianRirOf recentLogs;
   do lastLog <- firstLog recentLogs;
   do lastReps <-
     match lastLog ≫= LogEntry.reps with
     | Some r => ret r
     | None => lift (getProp (Rir.WeightedRepsExercise.repRange this) Range.min)
     end;
   let lastLoad :=
     orElse (lastLog ≫= LogEntry.loadKg)
       (Rir.WeightedRepsExercise.loadIncrementKg this * 4) in
   let nextReps := lastReps in
   let nextLoad := lastLoad in
   do '(nextReps, nextLoad) <-
     match medianRir with
     | Some medianRir =>
         if negb frozen && negb deload then
           if Qgtb medianRir (Profile.targetRirMax profile) then
             do repRange_max <-
               lift (getProp (Rir.WeightedRepsExercise.repRange this) Range.max);
             if Qltb lastReps repRange_max then
               do _ <- push explanation "Effort was easy; nudging reps up.";
               ret (nextReps + Rir.WeightedRepsExercise.repIncrement this, nextLoad)
             else
               do repRange_min <-
                 lift (getProp (Rir.WeightedRepsExercise.repRange this) Range.min);
               do _ <- push explanation "Hit top reps; adding load and resetting reps.";
               ret (repRange_min, nextLoad + Rir.WeightedRepsExercise.loadIncrementKg this)
           else if Qltb medianRir (Profile.targetRirMin profile) then
             do repRange_min <-
               lift (getProp (Rir.WeightedRepsExercise.repRange this) Range.min);
             do _ <- push explanation "Effort was high; reducing reps.";
             ret (Math_max repRange_min
                    (lastReps - Rir.WeightedRepsExercise.repIncrement this), nextLoad)
           else ret (nextReps, nextLoad)
         else ret (nextReps, nextLoad)
     | None => ret (nextReps, nextLoad)
     end;
   do v <- getWeeklyVolume logs (Ctx.now ctx) Rir.WeightedRepsExercise.volumeFn;
   do '(nextReps, nextLoad) <-
     (if Rir.capHit v profile
      then do _ <- push explanation "Volume cap hit; holding steady.";
           ret (lastReps, lastLoad)
      else ret (nextReps, nextLoad));
   do '(nextReps, nextLoad) <-
     (if deload
      then
        do repRange_min <-
          lift (getProp (Rir.WeightedRepsExercise.repRange this) Range.min);
        do _ <- push explanation "Deload active; reducing volume.";
        ret (Math_max repRange_min
               (Math_round (lastReps * Profile.deloadVolumeFactor profile)),
             Math_max (Rir.WeightedRepsExercise.loadIncrementKg this)
               (Math_round (lastLoad * Profile.deloadVolumeFactor profile)))
      else ret (nextReps, nextLoad));
   ret {| WeightedTarget.metricType := "weightedReps";
          WeightedTarget.reps := nextReps;
          WeightedTarget.loadKg := nextLoad;
          WeightedTarget.explanation := explanation;
          WeightedTarget.frozen := frozen;
          WeightedTarget.deload := deload |})%heap.
End WeightedRepsExercise.

Module IsometricExercise.
Definition computeNextTarget (this : Rir.IsometricExercise.t) (logs : ref)
    (ctx : Ctx.t) : M IsometricTarget.t :=
  (do g <- getRecentCompleteLogs logs ctx (Rir.IsometricExercise.progressionProfile this);
   let recentLogs := Guard.recentLogs g in
   let profile := Guard.profile g in
   let explanation := Guard.explanation g in
   let frozen := Guard.frozen g in
   let deload := Guard.deload g in
   do medianRir <- medianRirOf recentLogs;
   do first <- firstLog recentLogs;
   do lastTarget <-
     match first ≫= LogEntry.durationSec with
     | Some d => ret d
     | None => lift (getProp (Rir.IsometricExercise.durationRangeSec this) Range.min)
     end;
   let nextDuration := lastTarget in
   do nextDuration <-
     match medianRir with
     | Some medianRir =>
         if negb frozen && negb deload then
           if Qgtb medianRir (Profile.targetRirMax profile) then
             do _ <- push explanation "Effort was easy; nudging time up.";
             ret (nextDuration + Rir.IsometricExercise.timeIncrementSec this)
           else if Qltb medianRir (Profile.targetRirMin profile) then
             do _ <- push explanation "Effort was high; reducing time.";
             ret (nextDuration - Rir.IsometricExercise.timeIncrementSec this)
           else ret nextDuration
         else ret nextDuration
     | None => ret nextDuration
     end;
   do range_min <- lift (getProp (Rir.IsometricExercise.durationRangeSec this) Range.min);
   do range_max <- lift (getProp (Rir.IsometricExercise.durationRangeSec this) Range.max);
   let nextDuration := clamp nextDuration range_min range_max in
   do v <- getWeeklyVolume logs (Ctx.now ctx) Rir.IsometricExercise.volumeFn;
   do nextDuration <-
     (if Rir.capHit v profile
      then do _ <- push explanation "Volume cap hit; holding steady."; ret lastTarget
      else ret nextDuration);
   do nextDuration <-
     (if deload
      then do _ <- push explanation "Deload active; reducing volume.";
           ret (Math_max range_min
                  (Math_round (lastTarget * Profile.deloadVolumeFactor profile)))
      else ret nextDuration);
   ret {| IsometricTarget.metricType := "isometric";
          IsometricTarget.durationSec := nextDuration;
          IsometricTarget.explanation := explanation;
          IsometricTarget.frozen := frozen;
          IsometricTarget.deload := deload |})%heap.
End IsometricExercise.

Inductive NextTarget : Type :=
| RepsNext (t : RepsTarget.t)
| WeightedNext (t : WeightedTarget.t)
| IsometricNext (t : IsometricTarget.t).

Definition computeNextTarget (exercise : Rir.Exercise) (logs : ref) (ctx : Ctx.t)
    : M NextTarget :=
  match exercise with
  | Rir.Reps e =>
      bind (RepsExercise.computeNextTarget e logs ctx) (fun t => ret (RepsNext t))
  | Rir.Weighted e =>
      bind (WeightedRepsExercise.computeNextTarget e logs ctx)
        (fun t => ret (WeightedNext t))
  | Rir.Isometric e =>
      bind (IsometricExercise.computeNextTarget e logs ctx)
        (fun t => ret (IsometricNext t))
  end.

(** What a caller sees of a returned target: the fields, and the
    contents of the explanation array. *)
Definition readExplanation (h : gmap nat cell) (a : ref) : result (list string) :=
  match h !! a with
  | Some (Strs ex) => Ok ex
  | _ => Throw TypeError
  end.

Definition view (h : gmap nat cell) (out : result NextTarget) : result Rir.NextTarget :=
  match out with
  | Ok (RepsNext t) =>
      rbind (readExplanation h (RepsTarget.explanation t))
        (fun ex =>
           Ok (Rir.RepsNext
                 {| Rir.RepsTarget.metricType := RepsTarget.metricType t;
                    Rir.RepsTarget.reps := RepsTarget.reps t;
                    Rir.RepsTarget.explanation := ex;
                    Rir.RepsTarget.frozen := RepsTarget.frozen t;
                    Rir.RepsTarget.deload := RepsTarget.deload t |}))
  | Ok (WeightedNext t) =>
      rbind (readExplanation h (WeightedTarget.explanation t))
        (fun ex =>
           Ok (Rir.WeightedNext
                 {| Rir.WeightedTarget.metricType := WeightedTarget.metricType t;
                    Rir.WeightedTarget.reps := WeightedTarget.reps t;
                    Rir.WeightedTarget.loadKg := WeightedTarget.loadKg t;
                    Rir.WeightedTarget.explanation := ex;
                    Rir.WeightedTarget.frozen := WeightedTarget.frozen t;
                    Rir.WeightedTarget.deload := WeightedTarget.deload t |}))
  | Ok (IsometricNext t) =>
      rbind (readExplanation h (IsometricTarget.explanation t))
        (fun ex =>
           Ok (Rir.IsometricNext
                 {| Rir.IsometricTarget.metricType := IsometricTarget.metricType t;
                    Rir.IsometricTarget.durationSec := IsometricTarget.durationSec t;
                    Rir.IsometricTarget.explanation := ex;
                    Rir.IsometricTarget.frozen := IsometricTarget.frozen t;
                    Rir.IsometricTarget.deload := IsometricTarget.deload t |}))
  | Throw e => Throw e
  end.

(** A postcondition on the outcome and the final store of a computation. *)
Definition wp {A : Type} (m : M A) (h : gmap nat cell)
    (Post : result A -> gmap nat cell -> Prop) : Prop :=
  Post (fst (m h)) (snd (m h)).

End RirHeap.

(** ** Validation of a log *)

(** [!x] and [x <= c], [x < c] on a number that may be undefined: a
    comparison with [undefined] is false. *)
Definition falsy (o : option Q) : bool := negb (Gtg.truthy o).

Definition optLeb (o : option Q) (c : Q) : bool :=
  match o with
  | Some v => Qleb v c
  | None => false
  end.

Definition optLtb (o : option Q) (c : Q) : bool :=
  match o with
  | Some v => Qltb v c
  | None => false
  end.

Module Validation.
Record t : Type := mk { valid : bool; errors : option (list string) }.

(** [errors.length ? { valid: false, errors } : { valid: true }] *)
Definition ofErrors (errs : list string) : t :=
  match errs with
  | [] => {| valid := true; errors := None |}
  | _ => {| valid := false; errors := Some errs |}
  end.
End Validation.

(** The [validateLog] methods of the effort-driven engine. *)
Module RirValidation.

Module RepsExercise.
Definition validateLog (log : LogEntry.t) : Validation.t :=
  let errors : list string := [] in
  let errors :=
    if String.eqb (LogEntry.status log) "complete"
       && (falsy (LogEntry.reps log) || optLeb (LogEntry.reps log) 0)
    then errors ++ ["Reps are required for a complete set."]
    else errors in
  Validation.ofErrors errors.
End RepsExercise.

Module WeightedRepsExercise.
Definition validateLog (log : LogEntry.t) : Validation.t :=
  let errors : list string := [] in
  let errors :=
    if String.eqb (LogEntry.status log) "complete" then
      let errors :=
        if falsy (LogEntry.reps log) || optLeb (LogEntry.reps log) 0
        then errors ++ ["Reps are required for a complete weighted set."]
        else errors in
      if falsy (LogEntry.loadKg log) || optLeb (LogEntry.loadKg log) 0
      then errors ++ ["Load is required for a complete weighted set."]
      else errors
    else errors in
  Validation.ofErrors errors.
End WeightedRepsExercise.

Module IsometricExercise.
Definition validateLog (log : LogEntry.t) : Validation.t :=
  let errors : list string := [] in
  let errors :=
    if String.eqb (LogEntry.status log) "complete"
       && (falsy (LogEntry.durationSec log) || optLeb (LogEntry.durationSec log) 0)
    then errors ++ ["Duration is required for a complete isometric set."]
    else errors in
  Validation.ofErrors errors.
End IsometricExercise.

Definition validateLog (exercise : Rir.Exercise) (log : LogEntry.t) : Validation.t :=
  match exercise with
  | Rir.Reps _ => RepsExercise.validateLog log
  | Rir.Weighted _ => WeightedRepsExercise.validateLog log
  | Rir.Isometric _ => IsometricExercise.validateLog log
  end.

End RirValidation.

(** The [validateLog] methods of [docs/app.js], and the log entry that
    [quickLog] builds from a target before it validates it. *)
Module GtgValidation.

Definition validateLog (kind : Gtg.Kind) (log : LogEntry.t) : Validation.t :=
  match kind with
  | Gtg.Reps =>
      let errors : list string := [] in
      let errors :=
        if String.eqb (LogEntry.status log) "complete"
           && (falsy (LogEntry.reps log) || optLtb (LogEntry.reps log) 1)
        then errors ++ ["Reps must be at least 1."]
        else errors in
      Validation.ofErrors errors
  | Gtg.Weighted =>
      let errors : list string := [] in
      let errors :=
        if String.eqb (LogEntry.status log) "complete" then
          let errors :=
            if falsy (LogEntry.reps log) || optLtb (LogEntry.reps log) 1
            then errors ++ ["Reps must be at least 1."]
            else errors in
          if falsy (LogEntry.loadKg log) || optLeb (LogEntry.loadKg log) 0
          then errors ++ ["Load must be greater than 0."]
          else errors
        else errors in
      Validation.ofErrors errors
  | Gtg.Isometric =>
      let errors : list string := [] in
      let errors :=
        if String.eqb (LogEntry.status log) "complete"
           && (falsy (LogEntry.durationSec log) || optLeb (LogEntry.durationSec log) 0)
        then errors ++ ["Duration must be greater than 0."]
        else errors in
      Validation.ofErrors errors
  end.

(** [{ timestamp: Date.now(), reps: target.reps, loadKg: target.loadKg,
      durationSec: target.durationSec, status: "complete" }] *)
Definition quickLogEntry (now : Q) (target : Gtg.NextTarget.t) : LogEntry.t :=
  {| LogEntry.timestamp := now;
     LogEntry.status := "complete";
     LogEntry.reps := Gtg.NextTarget.reps target;
     LogEntry.loadKg := Gtg.NextTarget.loadKg target;
     LogEntry.durationSec := Gtg.NextTarget.durationSec target;
     LogEntry.rir := None;
     LogEntry.pain0to10 := None |}.

End GtgValidation.

(** ** Dates: [new Date(t).toISOString()] *)

Module JsDate.

Definition msPerDay : Z := 86400000.

(** [TimeClip]: a time value is an integral number of milliseconds within
    100 000 000 days of the epoch; anything else is an invalid date. *)
Definition TimeClip (t : Q) : option Z :=
  if Qleb (Qabs t) 8640000000000000 then Some (ToInteger t) else None.

(** Year, month and day of a day number (days since 1970-01-01) in the
    proleptic Gregorian calendar, by 400-year eras of 146097 days that
    start on 1 March. *)
Definition civil (days : Z) : Z * Z * Z :=
  let z := (days + 719468)%Z in
  let era := (z / 146097)%Z in
  let doe := (z - era * 146097)%Z in
  let yoe := ((doe - doe / 1460 + doe / 36524 - doe / 146096) / 365)%Z in
  let doy := (doe - (365 * yoe + yoe / 4 - yoe / 100))%Z in
  let mp := ((5 * doy + 2) / 153)%Z in
  let d := (doy - (153 * mp + 2) / 5 + 1)%Z in
  let m := (if mp <? 10 then mp + 3 else mp - 9)%Z in
  let y := (yoe + era * 400)%Z in
  ((if m <=? 2 then y + 1 else y)%Z, m, d).

Definition digit (n : Z) : Ascii.ascii := Ascii.ascii_of_nat (48 + Z.to_nat n).

(** The last [width] decimal digits of [n], zero-padded. *)
Fixpoint pad (width : nat) (n : Z) : string :=
  match width with
  | O => ""
  | S w => String.append (pad w (n / 10)) (String (digit (n mod 10)) "")
  end.

(** Four digits for the years 0 to 9999, a sign and six digits otherwise. *)
Definition yearString (y : Z) : string :=
  if ((0 <=? y) && (y <=? 9999))%Z then pad 4 y
  else String.append (if (y <? 0)%Z then "-" else "+") (pad 6 (Z.abs y)).

Definition isoOfTimeValue (tv : Z) : string :=
  let '(y, m, d) := civil (tv / msPerDay) in
  let ms := (tv mod msPerDay)%Z in
  String.concat ""
    [yearString y; "-"; pad 2 m; "-"; pad 2 d; "T";
     pad 2 (ms / 3600000); ":"; pad 2 (ms / 60000 mod 60); ":";
     pad 2 (ms / 1000 mod 60); "."; pad 3 (ms mod 1000); "Z"].

Definition RangeError : string := "RangeError".

Definition toISOString (t : Q) : result string :=
  match TimeClip t with
  | Some tv => Ok (isoOfTimeValue tv)
  | None => Throw RangeError
  end.

End JsDate.

(** ** Statistics *)

Module PainStats.
Record t : Type := mk {
  deloadCount : Q;
  freezeDays : Q;
  activeDaysPerWeek : Q
}.
End PainStats.

(** The [forEach] that fills [daySet]; it stops at the first log whose
    timestamp is not a valid date. *)
Fixpoint collectDays (logs : list LogEntry.t) (daySet : gset string)
    : result (gset string) :=
  match logs with
  | [] => Ok daySet
  | log :: rest =>
      rbind (JsDate.toISOString (LogEntry.timestamp log))
        (fun iso => collectDays rest (daySet ∪ {[ String.substring 0 10 iso ]}))
  end.

Definition countOf {A : Type} (l : list A) : Q := inject_Z (Z.of_nat (List.length l)).

Definition summarizePainFlags (logs : list LogEntry.t) : result PainStats.t :=
  (let deloadCount :=
     countOf (List.filter (fun log => Qgeb (orElse (LogEntry.pain0to10 log) 0) 5) logs) in
   let freezeDays :=
     countOf (List.filter (fun log => Qgeb (orElse (LogEntry.pain0to10 log) 0) 3) logs) in
   let* daySet := collectDays logs ∅ in
   let activeDaysPerWeek :=
     Math_round (inject_Z (Z.of_nat (size daySet)) / 4 * 7) in
   Ok {| PainStats.deloadCount := deloadCount;
         PainStats.freezeDays := freezeDays;
         PainStats.activeDaysPerWeek := activeDaysPerWeek |})%result.

(** [xs.length ? Math.max(...xs) : undefined] *)
Definition maxOf (xs : list Q) : option Q :=
  match xs with
  | [] => None
  | x :: rest => Some (fold_left Math_max rest x)
  end.

Definition averageOf (xs : list Q) : option Q :=
  match xs with
  | [] => None
  | _ => Some (average xs)
  end.

Definition medianOf (xs : list Q) : option Q :=
  match xs with
  | [] => None
  | _ => Some (median xs)
  end.

(** [logs.filter((log) => now - log.timestamp <= window * DAY_MS)] *)
Definition inStatsWindow (now window : Q) (logs : list LogEntry.t) : list LogEntry.t :=
  List.filter (fun log => Qleb (now - LogEntry.timestamp log) (window * DAY_MS)) logs.

(** [computeStats] reads the clock itself ([Date.now()]); the reading is
    the argument [now]. The methods are the same in both engines. *)
Module RepsStats.
Record t : Type := mk {
  prReps : option Q;
  avgRir : option Q;
  medianRir : option Q;
  avgPain : option Q;
  volumeThisWeek : Q;
  volumePrevWeek : Q;
  painStats : PainStats.t
}.

Definition computeStats (now : Q) (logs : list LogEntry.t) (window : Q) : result t :=
  (let recentLogs := inStatsWindow now window logs in
   let reps := defined (map LogEntry.reps recentLogs) in
   let rir := defined (map LogEntry.rir recentLogs) in
   let pain := defined (map LogEntry.pain0to10 recentLogs) in
   let v := getWeeklyVolume logs now Rir.RepsExercise.volumeFn in
   let* painStats := summarizePainFlags logs in
   Ok {| prReps := maxOf reps;
         avgRir := averageOf rir;
         medianRir := medianOf rir;
         avgPain := averageOf pain;
         volumeThisWeek := WeeklyVolume.volumeThisWeek v;
         volumePrevWeek := WeeklyVolume.volumePrevWeek v;
         painStats := painStats |})%result.
End RepsStats.

Module WeightedStats.
Record t : Type := mk {
  prReps : option Q;
  prLoadKg : option Q;
  bestEstimated1RM : option Q;
  avgRir : option Q;
  medianRir : option Q;
  avgPain : option Q;
  volumeThisWeek : Q;
  volumePrevWeek : Q;
  painStats : PainStats.t
}.

Definition computeStats (now : Q) (logs : list LogEntry.t) (window : Q) : result t :=
  (let recentLogs := inStatsWindow now window logs in
   let reps := defined (map LogEntry.reps recentLogs) in
   let loads := defined (map LogEntry.loadKg recentLogs) in
   let rir := defined (map LogEntry.rir recentLogs) in
   let pain := defined (map LogEntry.pain0to10 recentLogs) in
   let estimated :=
     map (fun log => estimate1RM (orElse (LogEntry.reps log) 0)
                       (orElse (LogEntry.loadKg log) 0))
       (List.filter (fun log => Gtg.truthy (LogEntry.reps log)
                                && Gtg.truthy (LogEntry.loadKg log)) recentLogs) in
   let v := getWeeklyVolume logs now Rir.WeightedRepsExercise.volumeFn in
   let* painStats := summarizePainFlags logs in
   Ok {| prReps := maxOf reps;
         prLoadKg := maxOf loads;
         bestEstimated1RM := maxOf estimated;
         avgRir := averageOf rir;
         medianRir := medianOf rir;
         avgPain := averageOf pain;
         volumeThisWeek := WeeklyVolume.volumeThisWeek v;
         volumePrevWeek := WeeklyVolume.volumePrevWeek v;
         painStats := painStats |})%result.
End WeightedStats.

Module IsometricStats.
Record t : Type := mk {
  prDurationSec : option Q;
  avgRir : option Q;
  medianRir : option Q;
  avgPain : option Q;
  volumeThisWeek : Q;
  volumePrevWeek : Q;
  painStats : PainStats.t
}.

Definition computeStats (now : Q) (logs : list LogEntry.t) (window : Q) : result t :=
  (let recentLogs := inStatsWindow now window logs in
   let durations := defined (map LogEntry.durationSec recentLogs) in
   let rir := defined (map LogEntry.rir recentLogs) in
   let pain := defined (map LogEntry.pain0to10 recentLogs) in
   let v := getWeeklyVolume logs now Rir.IsometricExercise.volumeFn in
   let* painStats := summarizePainFlags logs in
   Ok {| prDurationSec := maxOf durations;
         avgRir := averageOf rir;
         medianRir := medianOf rir;
         avgPain := averageOf pain;
         volumeThisWeek := WeeklyVolume.volumeThisWeek v;
         volumePrevWeek := WeeklyVolume.volumePrevWeek v;
         painStats := painStats |})%result.
End IsometricStats.

(** A timestamp that [new Date] accepts: within 100 000 000 days of the
    epoch. *)
Definition validTime (log : LogEntry.t) : Prop :=
  Qabs (LogEntry.timestamp log) <= 8640000000000000.

(** ** Intensity adjustment after logging ([docs/app.js])

    The records of [state.exercises] and [state.logs] carry their
    identifiers beside the fields the engine reads. *)

Module StoredExercise.
Record t : Type := mk { id : string; record : ExerciseRecord.t }.
End StoredExercise.

Module StoredLog.
Record t : Type := mk { id : string; exerciseId : string; entry : LogEntry.t }.
End StoredLog.

Module GtgAdjust.

Definition DELOAD_DAYS : Q := 7.

(** [normalizeExerciseRecord] fills the baseline object of its argument
    in place when there is one (a fresh [{}] is filled otherwise): this is
    the argument after the call. *)
Definition normalizedInPlace (record : ExerciseRecord.t) : ExerciseRecord.t :=
  match ExerciseRecord.baseline record with
  | Some _ =>
      {| ExerciseRecord.type := ExerciseRecord.type record;
         ExerciseRecord.progressionProfile := ExerciseRecord.progressionProfile record;
         ExerciseRecord.repRange := ExerciseRecord.repRange record;
         ExerciseRecord.repIncrement := ExerciseRecord.repIncrement record;
         ExerciseRecord.minRepsFloor := ExerciseRecord.minRepsFloor record;
         ExerciseRecord.loadIncrementKg := ExerciseRecord.loadIncrementKg record;
         ExerciseRecord.durationRangeSec := ExerciseRecord.durationRangeSec record;
         ExerciseRecord.timeIncrementSec := ExerciseRecord.timeIncrementSec record;
         ExerciseRecord.baseline :=
           ExerciseRecord.baseline (Gtg.normalizeExerciseRecord record);
         ExerciseRecord.deloadUntil := ExerciseRecord.deloadUntil record |}
  | None => record
  end.

(** [findIndex] *)
Fixpoint findIndex {A : Type} (p : A -> bool) (l : list A) : option nat :=
  match l with
  | [] => None
  | x :: rest => if p x then Some O else S <$> findIndex p rest
  end.

(** [a !== b] on two values that are a number or [null]. *)
Definition differs (a b : option Q) : bool :=
  match a, b with
  | Some x, Some y => negb (Qeqb x y)
  | None, None => false
  | _, _ => true
  end.

(** The three most recent complete logs of the exercise. *)
Definition lastThree (logs : list StoredLog.t) (exerciseId : string) : list LogEntry.t :=
  firstn 3
    (Array_sort Rir.byNewest
       (map StoredLog.entry
          (List.filter (fun log => String.eqb (StoredLog.exerciseId log) exerciseId
                                   && String.eqb (LogEntry.status (StoredLog.entry log))
                                        "complete") logs))).

(** The decision: the next intensity and the next end of the deload. *)
Definition decide (exercise : ExerciseRecord.t) (logs : list LogEntry.t) (now : Q)
    : Q * option Q :=
  let baselineIntensity :=
    Baseline.intensityPct (orElse (ExerciseRecord.baseline exercise) Baseline.empty) in
  let deloadActive :=
    if Gtg.truthy (ExerciseRecord.deloadUntil exercise)
    then Qltb now (orElse (ExerciseRecord.deloadUntil exercise) 0)
    else false in
  let nextIntensity := Gtg.normalizeIntensity baselineIntensity in
  let nextDeloadUntil := ExerciseRecord.deloadUntil exercise in
  let painValues := defined (map LogEntry.pain0to10 logs) in
  let rirValues := defined (map LogEntry.rir logs) in
  let hasPainHigh := existsb (fun value => Qgeb value 5) painValues in
  if hasPainHigh then (Gtg.INTENSITY_MIN, Some (now + DELOAD_DAYS * DAY_MS))
  else if negb deloadActive then
    let hasPainWarn := existsb (fun value => Qgeb value 3) painValues in
    let hasHighEffort := existsb (fun log => optLeb (LogEntry.rir log) 2) logs in
    if hasPainWarn || hasHighEffort then
      (Math_max Gtg.INTENSITY_MIN (nextIntensity - (5 # 100)), nextDeloadUntil)
    else if (3 <=? List.length logs)%nat then
      let hasMissing :=
        existsb (fun log => match LogEntry.rir log, LogEntry.pain0to10 log with
                            | Some _, Some _ => false
                            | _, _ => true
                            end) logs in
      let allEasy :=
        negb hasMissing
        && forallb (fun log => match LogEntry.rir log, LogEntry.pain0to10 log with
                               | Some r, Some p => Qgeb r 5 && Qleb p 2
                               | _, _ => false
                               end) logs in
      if allEasy
         && negb (Nat.eqb (List.length rirValues) 0)
         && negb (Nat.eqb (List.length painValues) 0)
      then (Math_min Gtg.INTENSITY_MAX (nextIntensity + (2 # 100)), nextDeloadUntil)
      else (nextIntensity, nextDeloadUntil)
    else (nextIntensity, nextDeloadUntil)
  else (nextIntensity, nextDeloadUntil).

(** [{ ...exercise, baseline: { ...exercise.baseline, intensityPct },
      deloadUntil }] *)
Definition withIntensity (exercise : ExerciseRecord.t) (intensityPct : Q)
    (deloadUntil : option Q) : ExerciseRecord.t :=
  let baseline := orElse (ExerciseRecord.baseline exercise) Baseline.empty in
  {| ExerciseRecord.type := ExerciseRecord.type exercise;
     ExerciseRecord.progressionProfile := ExerciseRecord.progressionProfile exercise;
     ExerciseRecord.repRange := ExerciseRecord.repRange exercise;
     ExerciseRecord.repIncrement := ExerciseRecord.repIncrement exercise;
     ExerciseRecord.minRepsFloor := ExerciseRecord.minRepsFloor exercise;
     ExerciseRecord.loadIncrementKg := ExerciseRecord.loadIncrementKg exercise;
     ExerciseRecord.durationRangeSec := ExerciseRecord.durationRangeSec exercise;
     ExerciseRecord.timeIncrementSec := ExerciseRecord.timeIncrementSec exercise;
     ExerciseRecord.baseline :=
       Some {| Baseline.maxCleanReps := Baseline.maxCleanReps baseline;
               Baseline.topSet := Baseline.topSet baseline;
               Baseline.maxCleanHoldSec := Baseline.maxCleanHoldSec baseline;
               Baseline.intensityPct := Some intensityPct |};
     ExerciseRecord.deloadUntil := deloadUntil |}.

Module Outcome.
(** [state.exercises] after the call, and the record handed to [dbPut], if
    any. *)
Record t : Type := mk {
  exercises : list StoredExercise.t;
  put : option StoredExercise.t
}.
End Outcome.

Definition adjustExerciseIntensity (exercises : list StoredExercise.t)
    (logs : list StoredLog.t) (exerciseId : string) (now : Q) : Outcome.t :=
  match findIndex (fun item => String.eqb (StoredExercise.id item) exerciseId) exercises with
  | None => {| Outcome.exercises := exercises; Outcome.put := None |}
  | Some exerciseIndex =>
      match exercises !! exerciseIndex with
      | None => {| Outcome.exercises := exercises; Outcome.put := None |}
      | Some stored =>
          let exercise := Gtg.normalizeExerciseRecord (StoredExercise.record stored) in
          let touched :=
            {| StoredExercise.id := StoredExercise.id stored;
               StoredExercise.record := normalizedInPlace (StoredExercise.record stored) |} in
          let exercises := <[exerciseIndex := touched]> exercises in
          let recent := lastThree logs exerciseId in
          match recent with
          | [] => {| Outcome.exercises := exercises; Outcome.put := None |}
          | _ =>
              let '(nextIntensity, nextDeloadUntil) := decide exercise recent now in
              if differs (Some nextIntensity)
                   (Baseline.intensityPct
                      (orElse (ExerciseRecord.baseline exercise) Baseline.empty))
                 || differs nextDeloadUntil (ExerciseRecord.deloadUntil exercise)
              then
                let updated :=
                  {| StoredExercise.id := StoredExercise.id stored;
                     StoredExercise.record :=
                       withIntensity exercise nextIntensity nextDeloadUntil |} in
                {| Outcome.exercises := <[exerciseIndex := updated]> exercises;
                   Outcome.put := Some updated |}
              else {| Outcome.exercises := exercises; Outcome.put := None |}
          end
      end
  end.

End GtgAdjust.

(** ** The weekly volume as the specification words it

    "Sums [volumeFn(log)] over logs with [timestamp] in [[now-7d, now)];
    sums over [[now-14d, now-7d)]". *)

Definition sumQ (values : list Q) : Q := fold_right Qplus 0 values.

(** [lo <= timestamp < hi] *)
Definition inHalfOpen (lo hi : Q) (log : LogEntry.t) : bool :=
  Qleb lo (LogEntry.timestamp log) && Qltb (LogEntry.timestamp log) hi.

(** [lo <= timestamp] *)
Definition notBefore (lo : Q) (log : LogEntry.t) : bool :=
  Qleb lo (LogEntry.timestamp log).

Definition weeklyVolume_spec (logs : list LogEntry.t) (now : Q)
    (volumeFn : LogEntry.t -> Q) : WeeklyVolume.t :=
  {| WeeklyVolume.volumeThisWeek :=
       sumQ (map volumeFn (List.filter (inHalfOpen (now - 7 * DAY_MS) now) logs));
     WeeklyVolume.volumePrevWeek :=
       sumQ (map volumeFn
               (List.filter (inHalfOpen (now - 14 * DAY_MS) (now - 7 * DAY_MS)) logs)) |}.

(** A volume function that gives a non-negative whole number on every log
    of the history. *)
Definition wholeVolumes (volumeFn : LogEntry.t -> Q) (logs : list LogEntry.t) : Prop :=
  forall log, In log logs -> exists z : Z, (0 <= z)%Z /\ volumeFn log == inject_Z z.

(** ** Sample data used by the examples below *)

Definition sampleLog (daysAgo : Q) (status : string) (reps loadKg rir pain : option Q)
    : LogEntry.t :=
  {| LogEntry.timestamp := (100 - daysAgo) * DAY_MS;
     LogEntry.status := status;
     LogEntry.reps := reps;
     LogEntry.loadKg := loadKg;
     LogEntry.durationSec := None;
     LogEntry.rir := rir;
     LogEntry.pain0to10 := pain |}.

(** "Now" is day 100; the profile is the application default. *)
Definition sampleCtx : Ctx.t :=
  {| Ctx.now := 100 * DAY_MS; Ctx.profile := defaultProgression |}.

Definition sampleReps : Rir.RepsExercise.t :=
  {| Rir.RepsExercise.progressionProfile := None;
     Rir.RepsExercise.repRange := Some {| Range.min := 6; Range.max := 15 |};
     Rir.RepsExercise.repIncrement := 1;
     Rir.RepsExercise.minRepsFloor := 1 |}.

Definition sampleWeighted : Rir.WeightedRepsExercise.t :=
  {| Rir.WeightedRepsExercise.progressionProfile := None;
     Rir.WeightedRepsExercise.repRange := Some {| Range.min := 6; Range.max := 10 |};
     Rir.WeightedRepsExercise.repIncrement := 1;
     Rir.WeightedRepsExercise.loadIncrementKg := 25 # 10 |}.

Definition sampleHold (daysAgo : Q) (durationSec rir pain : option Q) : LogEntry.t :=
  {| LogEntry.timestamp := (100 - daysAgo) * DAY_MS;
     LogEntry.status := "complete";
     LogEntry.reps := None;
     LogEntry.loadKg := None;
     LogEntry.durationSec := durationSec;
     LogEntry.rir := rir;
     LogEntry.pain0to10 := pain |}.

Definition sampleIsometric : Rir.IsometricExercise.t :=
  {| Rir.IsometricExercise.progressionProfile := None;
     Rir.IsometricExercise.durationRangeSec := Some {| Range.min := 20; Range.max := 60 |};
     Rir.IsometricExercise.timeIncrementSec := 5 |}.

(** A record that carries its type and nothing else, as a hand-written
    JSON import can hold. *)
Definition bareRecord (type : string) : ExerciseRecord.t :=
  {| ExerciseRecord.type := type;
     ExerciseRecord.progressionProfile := None;
     ExerciseRecord.repRange := None;
     ExerciseRecord.repIncrement := None;
     ExerciseRecord.minRepsFloor := None;
     ExerciseRecord.loadIncrementKg := None;
     ExerciseRecord.durationRangeSec := None;
     ExerciseRecord.timeIncrementSec := None;
     ExerciseRecord.baseline := None;
     ExerciseRecord.deloadUntil := None |}.

(** Two stored exercises and the logs of one of them. *)
Definition sampleStored : list StoredExercise.t :=
  [ {| StoredExercise.id := "pushups"; StoredExercise.record := bareRecord "reps" |};
    {| StoredExercise.id := "plank"; StoredExercise.record := bareRecord "isometric" |} ].

Definition storedLog (id : string) (exerciseId : string) (entry : LogEntry.t)
    : StoredLog.t :=
  {| StoredLog.id := id; StoredLog.exerciseId := exerciseId; StoredLog.entry := entry |}.

Definition samplePainfulLogs : list StoredLog.t :=
  [ storedLog "a" "pushups" (sampleLog 2 "complete" (Some 5) None (Some 4) (Some 1));
    storedLog "b" "pushups" (sampleLog 1 "complete" (Some 5) None (Some 3) (Some 6)) ].

Definition sampleEasyLogs : list LogEntry.t :=
  [ sampleLog 1 "complete" (Some 5) None (Some 5) (Some 0);
    sampleLog 2 "complete" (Some 5) None (Some 6) (Some 1);
    sampleLog 3 "complete" (Some 5) None (Some 5) (Some 2) ].

(** ** Properties *)

Arguments Rir.getRecentCompleteLogs : simpl never.
Arguments Rir.workingSet : simpl never.
Arguments Rir.painFlagsOf : simpl never.
Arguments Rir.medianRirOf : simpl never.
Arguments Rir.capHit : simpl never.
Arguments getWeeklyVolume : simpl never.
Arguments Math_max : simpl never.
Arguments Math_min : simpl never.
Arguments Math_round : simpl never.
Arguments clamp : simpl never.

(** *** Comparisons *)

Lemma Qgeb_true (a b : Q) : Qgeb a b = true <-> b <= a.
Proof. unfold Qgeb. apply Qle_bool_iff. Qed.

Lemma Qleb_true (a b : Q) : Qleb a b = true <-> a <= b.
Proof. unfold Qleb. apply Qle_bool_iff. Qed.

Lemma Qgtb_true (a b : Q) : Qgtb a b = true <-> b < a.
Proof.
  unfold Qgtb. rewrite negb_true_iff, <- not_true_iff_false, Qle_bool_iff.
  split; [apply Qnot_le_lt | apply Qlt_not_le].
Qed.

Lemma Qltb_true (a b : Q) : Qltb a b = true <-> a < b.
Proof. unfold Qltb. apply (Qgtb_true b a). Qed.

Lemma Qgtb_false (a b : Q) : Qgtb a b = false <-> a <= b.
Proof.
  unfold Qgtb. rewrite negb_false_iff. apply Qle_bool_iff.
Qed.

Lemma Qltb_false (a b : Q) : Qltb a b = false <-> b <= a.
Proof. unfold Qltb. apply (Qgtb_false b a). Qed.

Lemma Qeqb_true (a b : Q) : Qeqb a b = true <-> a == b.
Proof. unfold Qeqb. apply Qeq_bool_iff. Qed.

Lemma ToInteger_zero (q : Q) : q == 0 -> ToInteger q = 0%Z.
Proof.
  intros Hq. unfold ToInteger.
  assert (Hle : Qle_bool 0 q = true) by (apply Qle_bool_iff; rewrite Hq; apply Qle_refl).
  rewrite Hle, Hq. reflexivity.
Qed.

Lemma slice0_zero {A : Type} (l : list A) (q : Q) : q == 0 -> slice0 l q = [].
Proof.
  intros Hq. unfold slice0. rewrite (ToInteger_zero q Hq). reflexivity.
Qed.

(** [slice(0, n)] with a natural-number literal keeps the first [n]
    elements: the working set's [slice(0, 30)] is [firstn 30]. *)
Lemma slice0_nat {A : Type} (l : list A) (n : nat) :
  slice0 l (inject_Z (Z.of_nat n)) = firstn n l.
Proof.
  unfold slice0, ToInteger.
  assert (H0 : Qle_bool 0 (inject_Z (Z.of_nat n)) = true).
  { apply Qle_bool_iff. change 0 with (inject_Z 0). rewrite <- Zle_Qle. lia. }
  rewrite H0, Qfloor_Z.
  destruct (Z.ltb_spec (Z.of_nat n) 0) as [Hneg|_]; [lia|].
  rewrite Nat2Z.id. reflexivity.
Qed.

(** *** Numeric utilities *)

Lemma clamp_bounds (v lo hi : Q) : lo <= hi -> lo <= clamp v lo hi <= hi.
Proof.
  intros Hwf. unfold clamp, Math_min, Math_max. split.
  - apply Q.min_glb; [apply Q.le_max_r | exact Hwf].
  - apply Q.le_min_r.
Qed.

Lemma clamp_inside (v lo hi : Q) : lo <= v -> v <= hi -> clamp v lo hi == v.
Proof.
  intros Hlo Hhi. unfold clamp, Math_min, Math_max.
  rewrite (Q.max_l v lo Hlo). apply Q.min_l, Hhi.
Qed.

Lemma median_empty : median [] = 0.
Proof. reflexivity. Qed.

Lemma median_examples :
  median [7] == 7 /\ median [3; 1; 2] == 2 /\ median [4; 1; 3; 2] == 5 # 2.
Proof. repeat split; vm_compute; reflexivity. Qed.

Lemma average_examples : average [] = 0 /\ average [4; 6] == 5.
Proof. split; [reflexivity | vm_compute; reflexivity]. Qed.

Lemma Math_round_examples :
  Math_round (52 # 10) == 5 /\ Math_round (5 # 2) == 3 /\ Math_round (- (5 # 2)) == - 2.
Proof. repeat split; vm_compute; reflexivity. Qed.

(** *** Sorting *)

Section SortFacts.
Context {A : Type} (le : A -> A -> bool).

Lemma sort_insert_perm (x : A) (l : list A) : Permutation (x :: l) (sort_insert le x l).
Proof.
  induction l as [|y l IH]; cbn.
  - apply Permutation_refl.
  - destruct (le x y).
    + apply Permutation_refl.
    + eapply Permutation_trans; [apply perm_swap|]. apply perm_skip, IH.
Qed.

Lemma Array_sort_perm (l : list A) : Permutation l (Array_sort le l).
Proof.
  induction l as [|x l IH]; cbn.
  - apply perm_nil.
  - eapply Permutation_trans; [apply perm_skip, IH|]. apply sort_insert_perm.
Qed.

Lemma Array_sort_In (x : A) (l : list A) : In x (Array_sort le l) <-> In x l.
Proof.
  split; apply Permutation_in; [apply Permutation_sym|]; apply Array_sort_perm.
Qed.

Hypothesis le_total : forall a b, le a b = true \/ le b a = true.

Lemma sort_insert_sorted (x : A) (l : list A) :
  Sorted (fun a b => le a b = true) l ->
  Sorted (fun a b => le a b = true) (sort_insert le x l).
Proof.
  induction l as [|y l IH]; intros Hs; cbn.
  - repeat constructor.
  - destruct (le x y) eqn:Hxy.
    + constructor; [exact Hs|]. constructor. exact Hxy.
    + inversion Hs as [|? ? Hs' Hhd]; subst.
      constructor; [apply IH, Hs'|].
      destruct l as [|z l]; cbn.
      * constructor. destruct (le_total x y) as [H|H]; [congruence|exact H].
      * destruct (le x z).
        -- constructor. destruct (le_total x y) as [H|H]; [congruence|exact H].
        -- inversion Hhd; subst. constructor. assumption.
Qed.

(** The result is ordered by the comparator. *)
Lemma Array_sort_sorted (l : list A) :
  Sorted (fun a b => le a b = true) (Array_sort le l).
Proof.
  induction l as [|x l IH]; cbn.
  - constructor.
  - apply sort_insert_sorted, IH.
Qed.

Hypothesis le_trans : forall a b c, le a b = true -> le b c = true -> le a c = true.

(** The first element of the result comes before every element. *)
Lemma Array_sort_head (x : A) (l : list A) :
  hd_error (Array_sort le l) = Some x ->
  In x l /\ forall y, In y l -> le x y = true.
Proof.
  revert x. induction l as [|a l IH]; intros x; [cbn; discriminate|].
  change (Array_sort le (a :: l)) with (sort_insert le a (Array_sort le l)).
  destruct (Array_sort le l) as [|y s] eqn:Hs.
  - cbn [sort_insert hd_error]. intros Heq. injection Heq as Heq. subst x.
    assert (Hnil : l = []).
    { apply Permutation_nil. rewrite <- Hs. apply Permutation_sym, Array_sort_perm. }
    subst l. split; [left; reflexivity|].
    intros y [<-|[]]. destruct (le_total a a); assumption.
  - destruct (IH y eq_refl) as [Hin Hmin].
    cbn [sort_insert]. destruct (le a y) eqn:Hay; cbn [hd_error];
      intros Heq; injection Heq as Heq; subst x.
    + split; [left; reflexivity|]. intros z [<-|Hz].
      * destruct (le_total a a); assumption.
      * eapply le_trans; [exact Hay|]. apply Hmin, Hz.
    + split; [right; exact Hin|]. intros z [<-|Hz].
      * destruct (le_total y a) as [H|H]; [exact H|congruence].
      * apply Hmin, Hz.
Qed.

End SortFacts.

Lemma byNewest_true (a b : LogEntry.t) :
  Rir.byNewest a b = true <-> LogEntry.timestamp b <= LogEntry.timestamp a.
Proof.
  unfold Rir.byNewest. rewrite Qleb_true. split; intros H; lra.
Qed.

Lemma byNewest_total (a b : LogEntry.t) :
  Rir.byNewest a b = true \/ Rir.byNewest b a = true.
Proof.
  rewrite !byNewest_true.
  destruct (Qlt_le_dec (LogEntry.timestamp a) (LogEntry.timestamp b)) as [H|H].
  - right. apply Qlt_le_weak, H.
  - left. exact H.
Qed.

Lemma byNewest_trans (a b c : LogEntry.t) :
  Rir.byNewest a b = true -> Rir.byNewest b c = true -> Rir.byNewest a c = true.
Proof.
  rewrite !byNewest_true. intros H1 H2. eapply Qle_trans; eassumption.
Qed.

(** The head of the working set is the most recent complete log of the
    last 14 days. *)
Lemma workingSet_head (logs : list LogEntry.t) (now : Q) (l : LogEntry.t) :
  hd_error (Rir.workingSet logs now) = Some l ->
  In l logs
  /\ LogEntry.status l = "complete"
  /\ now - LogEntry.timestamp l <= 14 * DAY_MS
  /\ forall l', In l' logs -> LogEntry.status l' = "complete" ->
                now - LogEntry.timestamp l' <= 14 * DAY_MS ->
                LogEntry.timestamp l' <= LogEntry.timestamp l.
Proof.
  unfold Rir.workingSet. intros Hhd.
  assert (Hhd' : hd_error (Array_sort Rir.byNewest
                   (List.filter (fun log => Qleb (now - LogEntry.timestamp log) (14 * DAY_MS))
                      (List.filter (fun log => String.eqb (LogEntry.status log) "complete")
                         logs))) = Some l).
  { destruct (Array_sort _ _); [discriminate|exact Hhd]. }
  destruct (Array_sort_head Rir.byNewest byNewest_total byNewest_trans _ _ Hhd')
    as [Hin Hmin].
  apply filter_In in Hin as [Hin Hw]. apply filter_In in Hin as [Hin Hc].
  apply Qleb_true in Hw. apply String.eqb_eq in Hc.
  repeat split; try assumption.
  intros l' Hin' Hc' Hw'. apply byNewest_true, Hmin.
  apply filter_In. split; [|apply Qleb_true, Hw'].
  apply filter_In. split; [exact Hin'|apply String.eqb_eq, Hc'].
Qed.

(** The most recent log that records pain is inside the pain window as
    soon as the window has room for one log. *)
Lemma painFlags_head (logs : list LogEntry.t) (profile : Profile.t) (l : LogEntry.t) :
  1 <= Profile.freezeDaysIfPain profile ->
  hd_error (Array_sort Rir.byNewest
              (List.filter (fun log => match LogEntry.pain0to10 log with
                                       | Some _ => true
                                       | None => false
                                       end) logs)) = Some l ->
  In l (Rir.painFlagsOf logs profile).
Proof.
  intros Hroom Hhd. unfold Rir.painFlagsOf, slice0, ToInteger.
  assert (H0 : Qle_bool 0 (Profile.freezeDaysIfPain profile) = true).
  { apply Qle_bool_iff. eapply Qle_trans; [|exact Hroom]. discriminate. }
  rewrite H0.
  assert (Hk : (1 <= Qfloor (Profile.freezeDaysIfPain profile))%Z).
  { change 1%Z with (Qfloor 1). apply Qfloor_resp_le, Hroom. }
  destruct (Z.ltb_spec (Qfloor (Profile.freezeDaysIfPain profile)) 0) as [Hneg|_]; [lia|].
  destruct (Z.to_nat (Qfloor (Profile.freezeDaysIfPain profile))) as [|n] eqn:Hn; [lia|].
  destruct (Array_sort _ _) as [|y s]; [discriminate|].
  injection Hhd as ->. left. reflexivity.
Qed.

(** *** The guardrail evaluator *)

Section Guardrails.
Variables (logs : list LogEntry.t) (ctx : Ctx.t) (overrideProfile : option Profile.t).

Lemma guard_frozen_is_deload :
  Rir.Guard.frozen (Rir.getRecentCompleteLogs logs ctx overrideProfile)
  = Rir.Guard.deload (Rir.getRecentCompleteLogs logs ctx overrideProfile).
Proof. reflexivity. Qed.

Lemma guard_profile :
  Rir.Guard.profile (Rir.getRecentCompleteLogs logs ctx overrideProfile)
  = orElse overrideProfile (Ctx.profile ctx).
Proof. reflexivity. Qed.

Lemma guard_recentLogs :
  Rir.Guard.recentLogs (Rir.getRecentCompleteLogs logs ctx overrideProfile)
  = Rir.workingSet logs (Ctx.now ctx).
Proof. reflexivity. Qed.

Lemma guard_explanation :
  Rir.Guard.explanation (Rir.getRecentCompleteLogs logs ctx overrideProfile) =
  if Rir.Guard.deload (Rir.getRecentCompleteLogs logs ctx overrideProfile)
  then ["Pain guardrails triggered a deload."] else [].
Proof. unfold Rir.getRecentCompleteLogs. cbn. reflexivity. Qed.

Let g := Rir.getRecentCompleteLogs logs ctx overrideProfile.

(** One pain value at or above [painReduce] inside the pain window is
    enough for a deload. *)
Lemma guard_painHigh (l : LogEntry.t) :
  In l (Rir.painFlagsOf logs (Rir.Guard.profile g)) ->
  Profile.painReduce (Rir.Guard.profile g) <= orElse (LogEntry.pain0to10 l) 0 ->
  Rir.Guard.deload g = true.
Proof.
  intros Hin Hp. subst g. unfold Rir.getRecentCompleteLogs. cbn.
  fold (Rir.getRecentCompleteLogs logs ctx overrideProfile) in *.
  rewrite guard_profile in *.
  apply orb_true_iff. left. apply existsb_exists. exists l. split; [exact Hin|].
  apply Qgeb_true. exact Hp.
Qed.

(** C8: with [freezeDaysIfPain = 0] the evaluator reports a deload and a
    freeze whatever the history is: the pain window is empty, its length
    [0] equals [freezeDaysIfPain], and [every] holds of the empty window. *)
Theorem guard_zero_freeze_days :
  Profile.freezeDaysIfPain (orElse overrideProfile (Ctx.profile ctx)) == 0 ->
  Rir.Guard.deload g = true /\ Rir.Guard.frozen g = true.
Proof.
  intros H0. subst g. unfold Rir.getRecentCompleteLogs. cbn.
  unfold Rir.painFlagsOf. rewrite (slice0_zero _ _ H0). cbn.
  assert (Hq : Qeqb (inject_Z (Z.of_nat 0))
                 (Profile.freezeDaysIfPain (orElse overrideProfile (Ctx.profile ctx))) = true).
  { apply Qeqb_true. rewrite H0. reflexivity. }
  rewrite Hq. split; reflexivity.
Qed.

End Guardrails.

Lemma guard_zero_freeze_days_witness :
  let p := {| Profile.targetRirMin := 3; Profile.targetRirMax := 5;
              Profile.maxWeeklyVolumeIncreasePct := 10; Profile.painWarn := 3;
              Profile.painReduce := 5; Profile.deloadDays := 7;
              Profile.deloadVolumeFactor := 65 # 100;
              Profile.freezeDaysIfPain := 0 |} in
  let g := Rir.getRecentCompleteLogs
             [sampleLog 1 "complete" (Some 8) None (Some 4) None] sampleCtx (Some p) in
  Rir.Guard.deload g = true /\ Rir.Guard.frozen g = true.
Proof.
  intros p g. apply guard_zero_freeze_days. reflexivity.
Defined.

(** *** Weighted-rep strategy *)

Section Weighted.
Import Rir.WeightedRepsExercise.
Variables (this : Rir.WeightedRepsExercise.t) (logs : list LogEntry.t) (ctx : Ctx.t).
Variable rr : Range.t.
Hypothesis Hrange : repRange this = Some rr.

Let g := Rir.getRecentCompleteLogs logs ctx (progressionProfile this).
Let lastLog := hd_error (Rir.Guard.recentLogs g).
Let lastReps := orElse (lastLog ≫= LogEntry.reps) (Range.min rr).
Let lastLoad := orElse (lastLog ≫= LogEntry.loadKg) (loadIncrementKg this * 4).
Let v := getWeeklyVolume logs (Ctx.now ctx) volumeFn.

(** C10: with an empty working set and no deload the target is the
    configured minimum of reps at four load increments. The weekly volume
    plays no part: a cap override would restore the very same values. *)
Theorem weighted_no_history :
  Rir.workingSet logs (Ctx.now ctx) = [] ->
  Rir.Guard.deload g = false ->
  exists t, computeNextTarget this logs ctx = Ok t
            /\ Rir.WeightedTarget.reps t = Range.min rr
            /\ Rir.WeightedTarget.loadKg t = loadIncrementKg this * 4.
Proof.
  intros Hws Hdl. subst g. unfold computeNextTarget. cbv zeta.
  rewrite guard_frozen_is_deload, Hdl, guard_recentLogs, Hws, Hrange. cbn.
  destruct (Rir.capHit _ _); cbn; eexists; (split; [reflexivity|]); cbn; split; reflexivity.
Qed.

(** Closed form of the method once [repRange] is known: the three stages
    (effort adjustment, volume cap, deload) in the order the code runs
    them. *)
Lemma weighted_deload_target :
  Rir.Guard.deload g = true ->
  exists t, computeNextTarget this logs ctx = Ok t
            /\ Rir.WeightedTarget.reps t =
               Math_max (Range.min rr)
                 (Math_round (lastReps * Profile.deloadVolumeFactor (Rir.Guard.profile g)))
            /\ Rir.WeightedTarget.loadKg t =
               Math_max (loadIncrementKg this)
                 (Math_round (lastLoad * Profile.deloadVolumeFactor (Rir.Guard.profile g))).
Proof.
  intros Hdl. subst g lastReps lastLoad lastLog. unfold computeNextTarget. cbv zeta.
  rewrite guard_frozen_is_deload, Hdl, Hrange.
  destruct (hd_error _ ≫= LogEntry.reps) as [r|];
    destruct (Rir.medianRirOf _) as [m|]; cbn;
    destruct (Rir.capHit _ _); cbn; eexists; (split; [reflexivity|]); cbn; split; reflexivity.
Qed.

Lemma weighted_cap_target :
  Rir.Guard.deload g = false ->
  Rir.capHit v (Rir.Guard.profile g) = true ->
  exists t, computeNextTarget this logs ctx = Ok t
            /\ Rir.WeightedTarget.reps t = lastReps
            /\ Rir.WeightedTarget.loadKg t = lastLoad
            /\ In "Volume cap hit; holding steady." (Rir.WeightedTarget.explanation t).
Proof.
  intros Hdl Hcap. subst g lastReps lastLoad lastLog v. unfold computeNextTarget. cbv zeta.
  rewrite guard_frozen_is_deload, Hdl, Hrange, Hcap.
  destruct (hd_error _ ≫= LogEntry.reps) as [r|];
    destruct (Rir.medianRirOf _) as [m|]; cbn;
    repeat match goal with
           | |- context [if ?c then _ else _] => destruct c; cbn
           end;
    eexists; (split; [reflexivity|]); cbn; repeat split;
    apply in_or_app; right; left; reflexivity.
Qed.

(** C6, amended: at the top of the rep range, with easy effort, no deload
    and no volume cap, the load goes up by one increment and the reps go
    back to the bottom of the range. *)
Theorem weighted_top_out (m : Q) :
  Rir.Guard.deload g = false ->
  Rir.medianRirOf (Rir.Guard.recentLogs g) = Some m ->
  Profile.targetRirMax (Rir.Guard.profile g) < m ->
  Range.max rr <= lastReps ->
  Rir.capHit v (Rir.Guard.profile g) = false ->
  exists t, computeNextTarget this logs ctx = Ok t
            /\ Rir.WeightedTarget.reps t = Range.min rr
            /\ Rir.WeightedTarget.loadKg t = lastLoad + loadIncrementKg this.
Proof.
  intros Hdl Hmed Hm Htop Hcap.
  apply Qgtb_true in Hm. apply Qltb_false in Htop.
  subst g lastReps lastLoad lastLog v. unfold computeNextTarget. cbv zeta.
  rewrite guard_frozen_is_deload, Hdl, Hmed, Hrange, Hm.
  destruct (hd_error _ ≫= LogEntry.reps) as [r|]; cbn in Htop |- *;
    rewrite Htop; cbn; rewrite Hcap; cbn;
    eexists; (split; [reflexivity|]); cbn; split; reflexivity.
Qed.

(** Effort above the band ([medianRir < targetRirMin]) takes one increment
    off the reps, not below the bottom of the range, and keeps the load. *)
Lemma weighted_effort_below_band (m : Q) :
  Rir.Guard.deload g = false ->
  Rir.medianRirOf (Rir.Guard.recentLogs g) = Some m ->
  m < Profile.targetRirMin (Rir.Guard.profile g) ->
  Profile.targetRirMin (Rir.Guard.profile g) <= Profile.targetRirMax (Rir.Guard.profile g) ->
  Rir.capHit v (Rir.Guard.profile g) = false ->
  exists t, computeNextTarget this logs ctx = Ok t
            /\ Rir.WeightedTarget.reps t = Math_max (Range.min rr) (lastReps - repIncrement this)
            /\ Rir.WeightedTarget.loadKg t = lastLoad.
Proof.
  intros Hdl Hmed Hm Hband Hcap.
  assert (Hle : Qgtb m (Profile.targetRirMax (Rir.Guard.profile g)) = false).
  { apply Qgtb_false. apply Qlt_le_weak. eapply Qlt_le_trans; eassumption. }
  apply Qltb_true in Hm.
  subst g lastReps lastLoad lastLog v. unfold computeNextTarget. cbv zeta.
  rewrite guard_frozen_is_deload, Hdl, Hmed, Hrange, Hle, Hm.
  destruct (hd_error _ ≫= LogEntry.reps) as [r|]; cbn;
    rewrite Hcap; cbn;
    eexists; (split; [reflexivity|]); cbn; split; reflexivity.
Qed.

(** Inside the band nothing moves. *)
Lemma weighted_effort_in_band (m : Q) :
  Rir.Guard.deload g = false ->
  Rir.medianRirOf (Rir.Guard.recentLogs g) = Some m ->
  Profile.targetRirMin (Rir.Guard.profile g) <= m ->
  m <= Profile.targetRirMax (Rir.Guard.profile g) ->
  exists t, computeNextTarget this logs ctx = Ok t
            /\ Rir.WeightedTarget.reps t = lastReps
            /\ Rir.WeightedTarget.loadKg t = lastLoad.
Proof.
  intros Hdl Hmed Hlo Hhi.
  apply Qgtb_false in Hhi. apply Qltb_false in Hlo.
  subst g lastReps lastLoad lastLog. unfold computeNextTarget. cbv zeta.
  rewrite guard_frozen_is_deload, Hdl, Hmed, Hrange, Hhi, Hlo.
  destruct (hd_error _ ≫= LogEntry.reps) as [r|]; cbn;
    destruct (Rir.capHit _ _); cbn;
    eexists; (split; [reflexivity|]); cbn; split; reflexivity.
Qed.

(** With [repRange] configured the method returns a target. *)
Lemma weighted_returns : exists t, computeNextTarget this logs ctx = Ok t.
Proof.
  unfold computeNextTarget. cbv zeta. rewrite Hrange.
  destruct (hd_error _ ≫= LogEntry.reps) as [r|];
    destruct (Rir.medianRirOf _) as [m|]; cbn;
    repeat match goal with
           | |- context [if ?c then _ else _] => destruct c; cbn
           end;
    eexists; reflexivity.
Qed.

(** C1, amended: without a deload and with a median effort [m], the method
    returns a target [t] such that
    - if [m < targetRirMin] (effort above the band, the band being
      well formed: [targetRirMin <= targetRirMax]) and the volume cap is not
      hit, the reps are [max(repRange.min, lastReps - repIncrement)] and the
      load is the last load;
    - if [targetRirMin <= m <= targetRirMax] nothing is changed: the reps
      and the load are those of the last set;
    - if the volume cap is hit, the last reps and the last load are
      restored, whatever the effort, and the explanation says so. *)
Theorem weighted_effort_high (m : Q) :
  Rir.Guard.deload g = false ->
  Rir.medianRirOf (Rir.Guard.recentLogs g) = Some m ->
  exists t, computeNextTarget this logs ctx = Ok t
            /\ (m < Profile.targetRirMin (Rir.Guard.profile g) ->
                Profile.targetRirMin (Rir.Guard.profile g)
                <= Profile.targetRirMax (Rir.Guard.profile g) ->
                Rir.capHit v (Rir.Guard.profile g) = false ->
                Rir.WeightedTarget.reps t
                = Math_max (Range.min rr) (lastReps - repIncrement this)
                /\ Rir.WeightedTarget.loadKg t = lastLoad)
            /\ (Profile.targetRirMin (Rir.Guard.profile g) <= m ->
                m <= Profile.targetRirMax (Rir.Guard.profile g) ->
                Rir.WeightedTarget.reps t = lastReps
                /\ Rir.WeightedTarget.loadKg t = lastLoad)
            /\ (Rir.capHit v (Rir.Guard.profile g) = true ->
                Rir.WeightedTarget.reps t = lastReps
                /\ Rir.WeightedTarget.loadKg t = lastLoad
                /\ In "Volume cap hit; holding steady." (Rir.WeightedTarget.explanation t)).
Proof.
  intros Hdl Hmed. destruct weighted_returns as [t Ht]. exists t.
  split; [exact Ht|]. split; [|split].
  - intros Hm Hband Hcap.
    destruct (weighted_effort_below_band m Hdl Hmed Hm Hband Hcap) as (t' & Ht' & Hr & Hl).
    rewrite Ht in Ht'. injection Ht' as <-. split; assumption.
  - intros Hlo Hhi.
    destruct (weighted_effort_in_band m Hdl Hmed Hlo Hhi) as (t' & Ht' & Hr & Hl).
    rewrite Ht in Ht'. injection Ht' as <-. split; assumption.
  - intros Hcap.
    destruct (weighted_cap_target Hdl Hcap) as (t' & Ht' & Hr & Hl & Hin).
    rewrite Ht in Ht'. injection Ht' as <-. repeat split; assumption.
Qed.

End Weighted.

Lemma weighted_no_history_witness :
  exists t, Rir.WeightedRepsExercise.computeNextTarget sampleWeighted
              [sampleLog 20 "complete" (Some 9) (Some 50) (Some 7) None;
               sampleLog 1 "skipped" None None None None] sampleCtx = Ok t
            /\ Rir.WeightedTarget.reps t = 6
            /\ Rir.WeightedTarget.loadKg t = (25 # 10) * 4.
Proof.
  apply (weighted_no_history sampleWeighted _ sampleCtx {| Range.min := 6; Range.max := 10 |});
    reflexivity.
Defined.

(** The amended top-out rule on the scenario of the specification: range
    6..10, last set 10 reps at 50 kg, reported effort 8 reps in reserve. *)
Lemma weighted_top_out_witness :
  let logs := [sampleLog 1 "complete" (Some 10) (Some 50) (Some 8) None] in
  exists t, Rir.WeightedRepsExercise.computeNextTarget sampleWeighted logs sampleCtx = Ok t
            /\ Rir.WeightedTarget.reps t = 6
            /\ Rir.WeightedTarget.loadKg t = 50 + (25 # 10).
Proof.
  intros logs.
  apply (weighted_top_out sampleWeighted logs sampleCtx {| Range.min := 6; Range.max := 10 |}
           eq_refl 8); vm_compute; try reflexivity; discriminate.
Defined.

(** C6 as stated fails when the week's volume has grown too fast: the cap
    override runs after the top-out and restores the last reps and load. *)
Lemma weighted_top_out_counterexample :
  let logs := [sampleLog 10 "complete" (Some 10) (Some 10) None None;
               sampleLog 1 "complete" (Some 10) (Some 50) (Some 8) None] in
  let g := Rir.getRecentCompleteLogs logs sampleCtx None in
  Rir.WeightedRepsExercise.repRange sampleWeighted = Some {| Range.min := 6; Range.max := 10 |}
  /\ hd_error (Rir.Guard.recentLogs g) ≫= LogEntry.reps = Some 10
  /\ hd_error (Rir.Guard.recentLogs g) ≫= LogEntry.loadKg = Some 50
  /\ Rir.medianRirOf (Rir.Guard.recentLogs g) = Some 8
  /\ Profile.targetRirMax (Rir.Guard.profile g) < 8
  /\ Rir.Guard.deload g = false
  /\ exists t, Rir.WeightedRepsExercise.computeNextTarget sampleWeighted logs sampleCtx = Ok t
               /\ Rir.WeightedTarget.reps t = 10
               /\ Rir.WeightedTarget.loadKg t = 50
               /\ ~ Rir.WeightedTarget.reps t == 6
               /\ ~ Rir.WeightedTarget.loadKg t == 50 + (25 # 10).
Proof.
  intros logs g. repeat split; try reflexivity.
  eexists. split; [vm_compute; reflexivity|]. cbn.
  repeat split; try reflexivity; intros H; vm_compute in H; discriminate.
Qed.

(** Nor does the top-out survive a deload: with pain 7 on the last set the
    target is the deload reduction of the last reps and load. *)
Lemma weighted_top_out_deload :
  let logs := [sampleLog 1 "complete" (Some 10) (Some 50) (Some 8) (Some 7)] in
  let g := Rir.getRecentCompleteLogs logs sampleCtx None in
  hd_error (Rir.Guard.recentLogs g) ≫= LogEntry.reps = Some 10
  /\ Rir.medianRirOf (Rir.Guard.recentLogs g) = Some 8
  /\ Profile.targetRirMax (Rir.Guard.profile g) < 8
  /\ Rir.Guard.deload g = true
  /\ exists t, Rir.WeightedRepsExercise.computeNextTarget sampleWeighted logs sampleCtx = Ok t
               /\ Rir.WeightedTarget.reps t == 7
               /\ Rir.WeightedTarget.loadKg t == 33.
Proof.
  intros logs g. repeat split; try reflexivity.
  eexists. split; [vm_compute; reflexivity|]. cbn.
  split; vm_compute; reflexivity.
Qed.

Lemma weighted_effort_high_witness :
  let logs := [sampleLog 1 "complete" (Some 8) (Some 50) (Some 1) None] in
  exists t, Rir.WeightedRepsExercise.computeNextTarget sampleWeighted logs sampleCtx = Ok t
            /\ Rir.WeightedTarget.reps t = Math_max 6 (8 - 1)
            /\ Rir.WeightedTarget.loadKg t = 50.
Proof.
  intros logs.
  destruct (weighted_effort_high sampleWeighted logs sampleCtx
              {| Range.min := 6; Range.max := 10 |} eq_refl 1 eq_refl eq_refl)
    as (t & Ht & Hhigh & _ & _).
  exists t. split; [exact Ht|].
  apply Hhigh; vm_compute; try reflexivity; discriminate.
Defined.

(** C1 as stated fails inside the effort band: a median of 4 reps in
    reserve is below [targetRirMax = 5] and not below [targetRirMin = 3],
    and the method keeps the 8 reps of the last set. *)
Lemma weighted_effort_high_counterexample :
  let logs := [sampleLog 1 "complete" (Some 8) (Some 50) (Some 4) None] in
  let g := Rir.getRecentCompleteLogs logs sampleCtx None in
  Rir.Guard.frozen g = false
  /\ Rir.Guard.deload g = false
  /\ Rir.medianRirOf (Rir.Guard.recentLogs g) = Some 4
  /\ 4 < Profile.targetRirMax (Rir.Guard.profile g)
  /\ hd_error (Rir.Guard.recentLogs g) ≫= LogEntry.reps = Some 8
  /\ exists t, Rir.WeightedRepsExercise.computeNextTarget sampleWeighted logs sampleCtx = Ok t
               /\ Rir.WeightedTarget.reps t = 8
               /\ ~ Rir.WeightedTarget.reps t == Math_max 6 (8 - 1).
Proof.
  intros logs g. repeat split; try reflexivity.
  eexists. split; [vm_compute; reflexivity|]. cbn.
  split; [reflexivity|]. intros H; vm_compute in H; discriminate.
Qed.

(** Below the band the decrement is still undone by a volume cap. *)
Lemma weighted_effort_high_capped :
  let logs := [sampleLog 10 "complete" (Some 8) (Some 10) None None;
               sampleLog 1 "complete" (Some 8) (Some 50) (Some 1) None] in
  let g := Rir.getRecentCompleteLogs logs sampleCtx None in
  Rir.Guard.deload g = false
  /\ Rir.medianRirOf (Rir.Guard.recentLogs g) = Some 1
  /\ 1 < Profile.targetRirMin (Rir.Guard.profile g)
  /\ exists t, Rir.WeightedRepsExercise.computeNextTarget sampleWeighted logs sampleCtx = Ok t
               /\ Rir.WeightedTarget.reps t = 8
               /\ ~ Rir.WeightedTarget.reps t == Math_max 6 (8 - 1).
Proof.
  intros logs g. repeat split; try reflexivity.
  eexists. split; [vm_compute; reflexivity|]. cbn.
  split; [reflexivity|]. intros H; vm_compute in H; discriminate.
Qed.

(** *** The volume cap *)


(** *** Rep-based strategy *)

Section Reps.
Import Rir.RepsExercise.
Variables (this : Rir.RepsExercise.t) (logs : list LogEntry.t) (ctx : Ctx.t).
Variable rr : Range.t.
Hypothesis Hrange : repRange this = Some rr.

Let g := Rir.getRecentCompleteLogs logs ctx (progressionProfile this).
Let lastTarget := orElse (hd_error (Rir.Guard.recentLogs g) ≫= LogEntry.reps) (Range.min rr).
Let v := getWeeklyVolume logs (Ctx.now ctx) volumeFn.

Ltac reps_unfold :=
  subst g lastTarget v; unfold computeNextTarget; cbv zeta;
  rewrite guard_frozen_is_deload.

Ltac reps_cases :=
  repeat match goal with
         | |- context [if ?c then _ else _] => destruct c; cbn
         end.

(** With [repRange] configured the method returns a target. *)
Lemma reps_returns : exists t, computeNextTarget this logs ctx = Ok t.
Proof.
  reps_unfold. rewrite Hrange.
  destruct (hd_error _ ≫= LogEntry.reps) as [r|];
    destruct (Rir.medianRirOf _) as [m|]; cbn;
    reps_cases; eexists; reflexivity.
Qed.

Lemma reps_flags (t : Rir.RepsTarget.t) :
  computeNextTarget this logs ctx = Ok t ->
  Rir.RepsTarget.deload t = Rir.Guard.deload g
  /\ Rir.RepsTarget.frozen t = Rir.Guard.deload g.
Proof.
  reps_unfold. rewrite Hrange.
  destruct (hd_error _ ≫= LogEntry.reps) as [r|];
    destruct (Rir.medianRirOf _) as [m|]; cbn;
    reps_cases; intros [= <-]; cbn; split; reflexivity.
Qed.

(** The deload override has the last word. *)
Lemma reps_deload_target :
  Rir.Guard.deload g = true ->
  exists t, computeNextTarget this logs ctx = Ok t
            /\ Rir.RepsTarget.deload t = true
            /\ Rir.RepsTarget.frozen t = true
            /\ Rir.RepsTarget.reps t =
               Math_max (minRepsFloor this)
                 (Math_round (lastTarget * Profile.deloadVolumeFactor (Rir.Guard.profile g)))
            /\ In "Deload active; reducing volume." (Rir.RepsTarget.explanation t).
Proof.
  intros Hdl. reps_unfold. rewrite Hdl, Hrange.
  destruct (hd_error _ ≫= LogEntry.reps) as [r|];
    destruct (Rir.medianRirOf _) as [m|]; cbn;
    reps_cases; eexists; (split; [reflexivity|]); cbn; repeat split;
    apply in_or_app; right; left; reflexivity.
Qed.


(** Without a cap and without a deload the target stays inside
    [minRepsFloor .. repRange.max]. *)
Lemma reps_clamped :
  minRepsFloor this <= Range.max rr ->
  Rir.Guard.deload g = false ->
  Rir.capHit v (Rir.Guard.profile g) = false ->
  exists t, computeNextTarget this logs ctx = Ok t
            /\ minRepsFloor this <= Rir.RepsTarget.reps t <= Range.max rr.
Proof.
  intros Hwf Hdl Hcap. revert Hdl Hcap. reps_unfold. intros Hdl Hcap.
  rewrite Hdl, Hrange, Hcap.
  assert (Hclamp : forall x, minRepsFloor this <= clamp x (minRepsFloor this) (Range.max rr)
                             <= Range.max rr)
    by (intros x; apply clamp_bounds, Hwf).
  destruct (hd_error _ ≫= LogEntry.reps) as [r|];
    destruct (Rir.medianRirOf _) as [m|]; cbn;
    reps_cases; eexists; (split; [reflexivity|]); cbn; apply Hclamp.
Qed.

(** C5, amended: a pain value of 7 on the newest set of the working set
    triggers the deload provided that set is inside the pain window (the
    [freezeDaysIfPain] newest logs of any status that record pain). *)
Theorem reps_deload_on_pain (l : LogEntry.t) (r : Q) :
  Profile.painReduce (Rir.Guard.profile g) == 5 ->
  hd_error (Rir.workingSet logs (Ctx.now ctx)) = Some l ->
  LogEntry.pain0to10 l = Some 7 ->
  LogEntry.reps l = Some r ->
  In l (Rir.painFlagsOf logs (Rir.Guard.profile g)) ->
  exists t, computeNextTarget this logs ctx = Ok t
            /\ Rir.RepsTarget.deload t = true
            /\ Rir.RepsTarget.reps t =
               Math_max (minRepsFloor this)
                 (Math_round (r * Profile.deloadVolumeFactor (Rir.Guard.profile g))).
Proof.
  intros Hp Hhd Hpain Hreps Hin.
  assert (Hdl : Rir.Guard.deload g = true).
  { apply (guard_painHigh logs ctx (progressionProfile this) l Hin).
    fold g. rewrite Hpain, Hp. cbn. discriminate. }
  destruct (reps_deload_target Hdl) as (t & Ht & Hd & _ & Hr & _).
  exists t. split; [exact Ht|]. split; [exact Hd|].
  rewrite Hr. subst lastTarget g. rewrite guard_recentLogs, Hhd. cbn. rewrite Hreps.
  reflexivity.
Qed.

End Reps.


Lemma reps_deload_on_pain_witness :
  let logs := [sampleLog 1 "complete" (Some 8) None None (Some 7)] in
  exists t, Rir.RepsExercise.computeNextTarget sampleReps logs sampleCtx = Ok t
            /\ Rir.RepsTarget.deload t = true
            /\ Rir.RepsTarget.reps t = Math_max 1 (Math_round (8 * (65 # 100))).
Proof.
  intros logs.
  apply (reps_deload_on_pain sampleReps logs sampleCtx {| Range.min := 6; Range.max := 15 |}
           eq_refl (sampleLog 1 "complete" (Some 8) None None (Some 7)) 8);
    try reflexivity.
  left. reflexivity.
Defined.

(** C5 as stated fails when newer logs fill the pain window: two skipped
    sets that record no pain (value 0) come after the complete set with
    pain 7, the window holds [freezeDaysIfPain = 2] logs, and the complete
    set is not among them. *)
Lemma reps_deload_on_pain_counterexample :
  let painful := sampleLog 3 "complete" (Some 8) None None (Some 7) in
  let logs := [painful;
               sampleLog 2 "skipped" None None None (Some 0);
               sampleLog 1 "skipped" None None None (Some 0)] in
  let g := Rir.getRecentCompleteLogs logs sampleCtx None in
  Profile.painReduce (Rir.Guard.profile g) = 5
  /\ List.filter (fun log => String.eqb (LogEntry.status log) "complete") logs = [painful]
  /\ hd_error (Rir.Guard.recentLogs g) = Some painful
  /\ LogEntry.pain0to10 painful = Some 7
  /\ exists t, Rir.RepsExercise.computeNextTarget sampleReps logs sampleCtx = Ok t
               /\ Rir.RepsTarget.deload t = false
               /\ Rir.RepsTarget.reps t = 8
               /\ ~ Rir.RepsTarget.reps t == Math_max 1 (Math_round (8 * (65 # 100))).
Proof.
  intros painful logs g. repeat split; try reflexivity.
  eexists. split; [vm_compute; reflexivity|]. cbn.
  repeat split; try reflexivity. intros H; vm_compute in H; discriminate.
Qed.

(** A complete set older than 14 days is outside the working set: its
    pain still triggers the deload, but the reduction starts from
    [repRange.min], not from its reps. *)
Lemma reps_deload_on_old_pain :
  let painful := sampleLog 20 "complete" (Some 8) None None (Some 7) in
  let logs := [painful] in
  exists t, Rir.RepsExercise.computeNextTarget sampleReps logs sampleCtx = Ok t
            /\ Rir.RepsTarget.deload t = true
            /\ Rir.RepsTarget.reps t == 4
            /\ Math_max 1 (Math_round (8 * (65 # 100))) == 5.
Proof.
  intros painful logs.
  eexists. split; [vm_compute; reflexivity|]. cbn.
  repeat split; vm_compute; reflexivity.
Qed.

(** C9: the target can exceed [repRange.max]. The clamp runs before the two
    overrides, and both start again from the unclamped [lastTarget]: here
    the last set had 20 reps (range 6..15) with the volume cap hit, and 40
    reps with a deload. *)
Theorem reps_target_above_range :
  (exists t,
      Rir.RepsExercise.computeNextTarget sampleReps
        [sampleLog 10 "complete" (Some 1) None None None;
         sampleLog 1 "complete" (Some 20) None None None] sampleCtx = Ok t
      /\ In "Volume cap hit; holding steady." (Rir.RepsTarget.explanation t)
      /\ Rir.RepsTarget.deload t = false
      /\ Rir.RepsTarget.reps t = 20
      /\ exists rr, Rir.RepsExercise.repRange sampleReps = Some rr
                    /\ Range.max rr < Rir.RepsTarget.reps t)
  /\ (exists t,
         Rir.RepsExercise.computeNextTarget sampleReps
           [sampleLog 1 "complete" (Some 40) None None (Some 7)] sampleCtx = Ok t
         /\ Rir.RepsTarget.deload t = true
         /\ Rir.RepsTarget.reps t == 26
         /\ exists rr, Rir.RepsExercise.repRange sampleReps = Some rr
                       /\ Range.max rr < Rir.RepsTarget.reps t).
Proof.
  split; eexists; (split; [vm_compute; reflexivity|]); cbn.
  - split; [left; reflexivity|]. repeat split.
    eexists. split; reflexivity.
  - repeat split; try (vm_compute; reflexivity).
    eexists. split; reflexivity.
Qed.

(** *** Isometric strategy *)

Section Isometric.
Import Rir.IsometricExercise.
Variables (this : Rir.IsometricExercise.t) (logs : list LogEntry.t) (ctx : Ctx.t).
Variable rr : Range.t.
Hypothesis Hrange : durationRangeSec this = Some rr.

Let g := Rir.getRecentCompleteLogs logs ctx (progressionProfile this).
Let lastTarget :=
  orElse (hd_error (Rir.Guard.recentLogs g) ≫= LogEntry.durationSec) (Range.min rr).
Let v := getWeeklyVolume logs (Ctx.now ctx) volumeFn.

Lemma isometric_cap_target :
  Rir.Guard.deload g = false ->
  Rir.capHit v (Rir.Guard.profile g) = true ->
  exists t, computeNextTarget this logs ctx = Ok t
            /\ Rir.IsometricTarget.durationSec t = lastTarget
            /\ In "Volume cap hit; holding steady." (Rir.IsometricTarget.explanation t).
Proof.
  intros Hdl Hcap. subst g lastTarget v. unfold computeNextTarget. cbv zeta.
  rewrite guard_frozen_is_deload, Hdl, Hrange, Hcap.
  destruct (hd_error _ ≫= LogEntry.durationSec) as [d|];
    destruct (Rir.medianRirOf _) as [m|]; cbn;
    repeat match goal with
           | |- context [if ?c then _ else _] => destruct c; cbn
           end;
    eexists; (split; [reflexivity|]); cbn; (split; [reflexivity|]);
    apply in_or_app; right; left; reflexivity.
Qed.

Lemma isometric_deload_target :
  Rir.Guard.deload g = true ->
  exists t, computeNextTarget this logs ctx = Ok t
            /\ Rir.IsometricTarget.durationSec t =
               Math_max (Range.min rr)
                 (Math_round (lastTarget * Profile.deloadVolumeFactor (Rir.Guard.profile g))).
Proof.
  intros Hdl. subst g lastTarget. unfold computeNextTarget. cbv zeta.
  rewrite guard_frozen_is_deload, Hdl, Hrange.
  destruct (hd_error _ ≫= LogEntry.durationSec) as [d|];
    destruct (Rir.medianRirOf _) as [m|]; cbn;
    destruct (Rir.capHit _ _); cbn; eexists; (split; [reflexivity|]); reflexivity.
Qed.

End Isometric.

(** The scenario of the specification: range 20..60 s, increment 5 s, one
    complete hold of 30 s with 6 reps in reserve, no pain: next hold 35 s. *)
Lemma isometric_scenario :
  exists t, Rir.IsometricExercise.computeNextTarget sampleIsometric
              [sampleHold 1 (Some 30) (Some 6) None] sampleCtx = Ok t
            /\ Rir.IsometricTarget.durationSec t == 35
            /\ Rir.IsometricTarget.deload t = false.
Proof.
  eexists. split; [vm_compute; reflexivity|]. split; [vm_compute|]; reflexivity.
Qed.

(** *** Weekly volume *)

Lemma fold_left_sumQ {A : Type} (f : A -> Q) (l : list A) (a : Q) :
  fold_left (fun sum x => sum + f x) l a == a + sumQ (map f l).
Proof.
  revert a. induction l as [|x l IH]; intros a; cbn.
  - symmetry. apply Qplus_0_r.
  - rewrite IH. symmetry. apply Qplus_assoc.
Qed.

Lemma inHalfOpen_true (lo hi : Q) (log : LogEntry.t) :
  inHalfOpen lo hi log = true
  <-> lo <= LogEntry.timestamp log /\ LogEntry.timestamp log < hi.
Proof.
  unfold inHalfOpen. rewrite andb_true_iff, Qleb_true, Qltb_true. reflexivity.
Qed.

Lemma notBefore_true (lo : Q) (log : LogEntry.t) :
  notBefore lo log = true <-> lo <= LogEntry.timestamp log.
Proof. unfold notBefore. apply Qleb_true. Qed.

(** C3, amended: this week's volume is the sum over the logs stamped at or
    after [now - 7d], with no upper bound; last week's volume is the sum
    over the half-open window [[now - 14d, now - 7d)]. *)
Theorem getWeeklyVolume_sums (logs : list LogEntry.t) (now : Q)
    (volumeFn : LogEntry.t -> Q) :
  WeeklyVolume.volumeThisWeek (getWeeklyVolume logs now volumeFn)
  == sumQ (map volumeFn (List.filter (notBefore (now - 7 * DAY_MS)) logs))
  /\ WeeklyVolume.volumePrevWeek (getWeeklyVolume logs now volumeFn)
     == sumQ (map volumeFn
                (List.filter (inHalfOpen (now - 14 * DAY_MS) (now - 7 * DAY_MS)) logs)).
Proof.
  unfold getWeeklyVolume. cbn. split; rewrite fold_left_sumQ, Qplus_0_l; reflexivity.
Qed.

(** The two readings agree on histories that end before [now]. *)
Lemma getWeeklyVolume_spec_past (logs : list LogEntry.t) (now : Q)
    (volumeFn : LogEntry.t -> Q) :
  (forall log, In log logs -> LogEntry.timestamp log < now) ->
  WeeklyVolume.volumeThisWeek (getWeeklyVolume logs now volumeFn)
  == WeeklyVolume.volumeThisWeek (weeklyVolume_spec logs now volumeFn)
  /\ WeeklyVolume.volumePrevWeek (getWeeklyVolume logs now volumeFn)
     == WeeklyVolume.volumePrevWeek (weeklyVolume_spec logs now volumeFn).
Proof.
  intros Hpast. unfold getWeeklyVolume, weeklyVolume_spec. cbn.
  rewrite !fold_left_sumQ, !Qplus_0_l. split; [|reflexivity].
  assert (Hfilter : List.filter
                      (fun log => Qgeb (LogEntry.timestamp log) (now - 7 * DAY_MS)) logs
                    = List.filter (inHalfOpen (now - 7 * DAY_MS) now) logs).
  { apply filter_ext_in. intros log Hin. unfold inHalfOpen, Qgeb, Qleb.
    assert (Hlt : Qltb (LogEntry.timestamp log) now = true)
      by (apply Qltb_true, Hpast, Hin).
    rewrite Hlt, andb_true_r. reflexivity. }
  rewrite Hfilter. reflexivity.
Qed.

(** C3 as stated fails on a log stamped at [now]: the code counts it for
    this week, the half-open window [[now - 7d, now)] does not hold it. *)
Lemma getWeeklyVolume_counterexample :
  let logs := [sampleLog 0 "complete" (Some 5) None None None] in
  let now := Ctx.now sampleCtx in
  WeeklyVolume.volumeThisWeek (getWeeklyVolume logs now Rir.RepsExercise.volumeFn) == 5
  /\ WeeklyVolume.volumeThisWeek (weeklyVolume_spec logs now Rir.RepsExercise.volumeFn) == 0
  /\ ~ WeeklyVolume.volumeThisWeek (getWeeklyVolume logs now Rir.RepsExercise.volumeFn)
       == WeeklyVolume.volumeThisWeek (weeklyVolume_spec logs now Rir.RepsExercise.volumeFn).
Proof.
  intros logs now. repeat split; try (vm_compute; reflexivity).
  intros H. vm_compute in H. discriminate.
Qed.

(** *** Records with missing configuration *)

(** The effort-driven engine hydrates a record as it is. A rep-based record
    without [repRange] makes every call throw: the clamp reads
    [this.repRange.max] on all paths. *)
Lemma rir_reps_without_range (record : ExerciseRecord.t) (logs : list LogEntry.t)
    (ctx : Ctx.t) :
  ExerciseRecord.type record = "reps" ->
  ExerciseRecord.repRange record = None ->
  Rir.computeNextTarget (Rir.hydrateExercise record) logs ctx = Throw TypeError.
Proof.
  intros Htype Hnone. unfold Rir.hydrateExercise. rewrite Htype. cbn.
  unfold Rir.RepsExercise.computeNextTarget. cbv zeta. cbn. rewrite Hnone.
  destruct (hd_error _ ≫= LogEntry.reps) as [r|]; [|reflexivity].
  destruct (Rir.medianRirOf _) as [m|]; cbn;
    repeat match goal with
           | |- context [if ?c then _ else _] => destruct c; cbn
           end; reflexivity.
Qed.

Lemma rir_isometric_without_range (record : ExerciseRecord.t) (logs : list LogEntry.t)
    (ctx : Ctx.t) :
  ExerciseRecord.type record = "isometric" ->
  ExerciseRecord.durationRangeSec record = None ->
  Rir.computeNextTarget (Rir.hydrateExercise record) logs ctx = Throw TypeError.
Proof.
  intros Htype Hnone. unfold Rir.hydrateExercise. rewrite Htype. cbn.
  unfold Rir.IsometricExercise.computeNextTarget. cbv zeta. cbn. rewrite Hnone.
  destruct (hd_error _ ≫= LogEntry.durationSec) as [r|]; [|reflexivity].
  destruct (Rir.medianRirOf _) as [m|]; cbn;
    repeat match goal with
           | |- context [if ?c then _ else _] => destruct c; cbn
           end; reflexivity.
Qed.

(** C2, on the effort-driven engine: a rep-based record with no [repRange]
    and an empty history makes [computeNextTarget] throw a TypeError
    instead of returning a default target. *)
Theorem rir_bare_record_throws :
  Rir.computeNextTarget (Rir.hydrateExercise (bareRecord "reps")) [] sampleCtx
  = Throw TypeError.
Proof. apply rir_reps_without_range; reflexivity. Qed.

(** The engine of [docs/app.js] normalises first: whatever the record
    lacks, the baseline value of its kind is there afterwards. *)
Lemma gtg_normalize_fills_baseline (record : ExerciseRecord.t) :
  exists b, ExerciseRecord.baseline (Gtg.normalizeExerciseRecord record) = Some b
            /\ (exists i, Baseline.intensityPct b = Some i)
            /\ (ExerciseRecord.type record = "reps" ->
                exists n, Baseline.maxCleanReps b = Some n)
            /\ (ExerciseRecord.type record = "weighted" ->
                exists ts, Baseline.topSet b = Some ts)
            /\ (ExerciseRecord.type record <> "reps" ->
                ExerciseRecord.type record <> "weighted" ->
                exists d, Baseline.maxCleanHoldSec b = Some d).
Proof.
  unfold Gtg.normalizeExerciseRecord. cbn.
  eexists. split; [reflexivity|]. cbn.
  split; [eexists; reflexivity|].
  split; [|split].
  - intros ->. cbn. eexists; reflexivity.
  - intros ->. cbn. eexists; reflexivity.
  - intros Hr Hw.
    destruct (String.eqb_spec (ExerciseRecord.type record) "reps") as [|_]; [contradiction|].
    destruct (String.eqb_spec (ExerciseRecord.type record) "weighted") as [|_]; [contradiction|].
    cbn. eexists; reflexivity.
Qed.

(** On the bare record that engine answers with the default target: ten
    clean reps at the normal intensity of one half. *)
Lemma gtg_bare_record_target :
  let t := Gtg.computeNextTarget (Gtg.hydrateExercise (bareRecord "reps")) [] sampleCtx in
  Gtg.NextTarget.metricType t = "reps"
  /\ (exists n, Gtg.NextTarget.reps t = Some n /\ n == 5)
  /\ Gtg.NextTarget.deload t = false.
Proof.
  intros t. split; [reflexivity|]. split; [|reflexivity].
  eexists. split; [reflexivity|]. vm_compute. reflexivity.
Qed.

(** *** The array-level reading refines the functional one *)

Section HeapRules.
Import RirHeap.
Context {A : Type}.
Implicit Types (h : gmap nat cell) (Post : result A -> gmap nat cell -> Prop).

Lemma wp_ret (a : A) h Post : Post (Ok a) h -> wp (ret a) h Post.
Proof. intros H. exact H. Qed.

Lemma wp_throw (e : string) h Post : Post (Throw e) h -> wp (throw e) h Post.
Proof. intros H. exact H. Qed.

Lemma wp_lift (r : result A) h Post : Post r h -> wp (lift r) h Post.
Proof. destruct r; intros H; exact H. Qed.

Lemma wp_bind {B : Type} (m : M B) (k : B -> M A) h Post :
  wp m h (fun out h' => match out with
                        | Ok b => wp (k b) h' Post
                        | Throw e => Post (Throw e) h'
                        end) ->
  wp (bind m k) h Post.
Proof.
  unfold wp, bind. destruct (m h) as [[b|e] h']; cbn; intros H; exact H.
Qed.

End HeapRules.

Section HeapPrimitives.
Import RirHeap.
Implicit Types (h : gmap nat cell).

Lemma wp_alloc (c : cell) h (Post : result ref -> gmap nat cell -> Prop) :
  (forall r, h !! r = None -> Post (Ok r) (<[r := c]> h)) ->
  wp (alloc c) h Post.
Proof.
  intros H. unfold wp, alloc. cbn. apply H.
  apply not_elem_of_dom. apply is_fresh.
Qed.

Lemma wp_write (a : ref) (c : cell) h (Post : result unit -> gmap nat cell -> Prop) :
  Post (Ok tt) (<[a := c]> h) -> wp (write a c) h Post.
Proof. intros H. exact H. Qed.

Lemma wp_readLogs (a : ref) (l : list LogEntry.t) h Post :
  h !! a = Some (Logs l) -> Post (Ok l) h -> wp (readLogs a) h Post.
Proof. intros Ha H. unfold wp, readLogs. rewrite Ha. exact H. Qed.

Lemma wp_readOptNums (a : ref) (l : list (option Q)) h Post :
  h !! a = Some (OptNums l) -> Post (Ok l) h -> wp (readOptNums a) h Post.
Proof. intros Ha H. unfold wp, readOptNums. rewrite Ha. exact H. Qed.

Lemma wp_readNums (a : ref) (l : list Q) h Post :
  h !! a = Some (Nums l) -> Post (Ok l) h -> wp (readNums a) h Post.
Proof. intros Ha H. unfold wp, readNums. rewrite Ha. exact H. Qed.

Lemma wp_readStrs (a : ref) (l : list string) h Post :
  h !! a = Some (Strs l) -> Post (Ok l) h -> wp (readStrs a) h Post.
Proof. intros Ha H. unfold wp, readStrs. rewrite Ha. exact H. Qed.

(** Array methods that allocate. *)

Lemma wp_filterLogs p (a : ref) (l : list LogEntry.t) h Post :
  h !! a = Some (Logs l) ->
  (forall r, h !! r = None -> Post (Ok r) (<[r := Logs (List.filter p l)]> h)) ->
  wp (filterLogs p a) h Post.
Proof.
  intros Ha H. apply wp_bind, (wp_readLogs a l); [exact Ha|]. apply wp_alloc, H.
Qed.

Lemma wp_sliceLogs (a : ref) (n : nat) (l : list LogEntry.t) h Post :
  h !! a = Some (Logs l) ->
  (forall r, h !! r = None -> Post (Ok r) (<[r := Logs (firstn n l)]> h)) ->
  wp (sliceLogs a n) h Post.
Proof.
  intros Ha H. apply wp_bind, (wp_readLogs a l); [exact Ha|]. apply wp_alloc, H.
Qed.

Lemma wp_slice0Logs (a : ref) (e : Q) (l : list LogEntry.t) h Post :
  h !! a = Some (Logs l) ->
  (forall r, h !! r = None -> Post (Ok r) (<[r := Logs (slice0 l e)]> h)) ->
  wp (slice0Logs a e) h Post.
Proof.
  intros Ha H. apply wp_bind, (wp_readLogs a l); [exact Ha|]. apply wp_alloc, H.
Qed.

Lemma wp_mapLogs f (a : ref) (l : list LogEntry.t) h Post :
  h !! a = Some (Logs l) ->
  (forall r, h !! r = None -> Post (Ok r) (<[r := OptNums (map f l)]> h)) ->
  wp (mapLogs f a) h Post.
Proof.
  intros Ha H. apply wp_bind, (wp_readLogs a l); [exact Ha|]. apply wp_alloc, H.
Qed.

Lemma wp_filterDefined (a : ref) (l : list (option Q)) h Post :
  h !! a = Some (OptNums l) ->
  (forall r, h !! r = None -> Post (Ok r) (<[r := Nums (defined l)]> h)) ->
  wp (filterDefined a) h Post.
Proof.
  intros Ha H. apply wp_bind, (wp_readOptNums a l); [exact Ha|]. apply wp_alloc, H.
Qed.

Lemma wp_spreadNums (a : ref) (l : list Q) h Post :
  h !! a = Some (Nums l) ->
  (forall r, h !! r = None -> Post (Ok r) (<[r := Nums l]> h)) ->
  wp (spreadNums a) h Post.
Proof.
  intros Ha H. apply wp_bind, (wp_readNums a l); [exact Ha|]. apply wp_alloc, H.
Qed.

(** Array methods that change their receiver. *)

Lemma wp_sortLogs le (a : ref) (l : list LogEntry.t) h Post :
  h !! a = Some (Logs l) ->
  Post (Ok a) (<[a := Logs (Array_sort le l)]> h) ->
  wp (sortLogs le a) h Post.
Proof.
  intros Ha H. apply wp_bind, (wp_readLogs a l); [exact Ha|].
  apply wp_bind, wp_write, wp_ret, H.
Qed.

Lemma wp_sortNums le (a : ref) (l : list Q) h Post :
  h !! a = Some (Nums l) ->
  Post (Ok a) (<[a := Nums (Array_sort le l)]> h) ->
  wp (sortNums le a) h Post.
Proof.
  intros Ha H. apply wp_bind, (wp_readNums a l); [exact Ha|].
  apply wp_bind, wp_write, wp_ret, H.
Qed.

Lemma wp_push (a : ref) (s : string) (l : list string) h Post :
  h !! a = Some (Strs l) ->
  Post (Ok tt) (<[a := Strs (l ++ [s])]> h) ->
  wp (push a s) h Post.
Proof.
  intros Ha H. apply wp_bind, (wp_readStrs a l); [exact Ha|]. apply wp_write, H.
Qed.

(** Array methods that only read. *)

Lemma wp_someLogs p (a : ref) (l : list LogEntry.t) h Post :
  h !! a = Some (Logs l) -> Post (Ok (existsb p l)) h -> wp (someLogs p a) h Post.
Proof.
  intros Ha H. apply wp_bind, (wp_readLogs a l); [exact Ha|]. apply wp_ret, H.
Qed.

Lemma wp_everyLogs p (a : ref) (l : list LogEntry.t) h Post :
  h !! a = Some (Logs l) -> Post (Ok (forallb p l)) h -> wp (everyLogs p a) h Post.
Proof.
  intros Ha H. apply wp_bind, (wp_readLogs a l); [exact Ha|]. apply wp_ret, H.
Qed.

Lemma wp_lengthLogs (a : ref) (l : list LogEntry.t) h Post :
  h !! a = Some (Logs l) ->
  Post (Ok (inject_Z (Z.of_nat (List.length l)))) h ->
  wp (lengthLogs a) h Post.
Proof.
  intros Ha H. apply wp_bind, (wp_readLogs a l); [exact Ha|]. apply wp_ret, H.
Qed.

Lemma wp_firstLog (a : ref) (l : list LogEntry.t) h Post :
  h !! a = Some (Logs l) -> Post (Ok (hd_error l)) h -> wp (firstLog a) h Post.
Proof.
  intros Ha H. apply wp_bind, (wp_readLogs a l); [exact Ha|]. apply wp_ret, H.
Qed.

Lemma wp_reduceLogs f init (a : ref) (l : list LogEntry.t) h Post :
  h !! a = Some (Logs l) -> Post (Ok (fold_left f l init)) h ->
  wp (reduceLogs f init a) h Post.
Proof.
  intros Ha H. apply wp_bind, (wp_readLogs a l); [exact Ha|]. apply wp_ret, H.
Qed.

End HeapPrimitives.

Ltac heap_ne :=
  first [ congruence
        | let E := fresh in intros E; subst; congruence ].

Ltac heap_fresh H :=
  repeat (apply lookup_insert_None in H; destruct H as [H ?]).

Ltac heap_lookup :=
  first [ eassumption
        | rewrite lookup_insert_eq; reflexivity
        | rewrite lookup_insert_ne by heap_ne; heap_lookup
        | match goal with
          | H : ?h0 ⊆ ?h |- ?h !! _ = Some _ =>
              eapply lookup_weaken; [|exact H]; heap_lookup
          end ].

Ltac heap_incl :=
  first [ reflexivity
        | eassumption
        | apply insert_subseteq_r; [eassumption | heap_incl]
        | match goal with
          | H : ?h0 ⊆ ?h |- _ ⊆ ?h => etransitivity; [|exact H]; heap_incl
          end ].

Section HeapEngine.

Implicit Types (h : gmap nat RirHeap.cell).

Lemma wp_getRecentCompleteLogs (logs : RirHeap.ref) (ls : list LogEntry.t) (ctx : Ctx.t)
    (overrideProfile : option Profile.t) h Post :
  h !! logs = Some (RirHeap.Logs ls) ->
  (forall h' rl ex,
      h ⊆ h' -> h !! rl = None -> h !! ex = None -> rl <> ex ->
      h' !! rl = Some (RirHeap.Logs (Rir.Guard.recentLogs (Rir.getRecentCompleteLogs ls ctx overrideProfile))) ->
      h' !! ex = Some (RirHeap.Strs (Rir.Guard.explanation (Rir.getRecentCompleteLogs ls ctx overrideProfile))) ->
      Post (Ok {| RirHeap.Guard.recentLogs := rl;
                  RirHeap.Guard.profile := Rir.Guard.profile (Rir.getRecentCompleteLogs ls ctx overrideProfile);
                  RirHeap.Guard.explanation := ex;
                  RirHeap.Guard.frozen := Rir.Guard.frozen (Rir.getRecentCompleteLogs ls ctx overrideProfile);
                  RirHeap.Guard.deload := Rir.Guard.deload (Rir.getRecentCompleteLogs ls ctx overrideProfile) |}) h') ->
  RirHeap.wp (RirHeap.getRecentCompleteLogs logs ctx overrideProfile) h Post.
Proof.
  intros Hlogs HPost. unfold RirHeap.getRecentCompleteLogs. cbv zeta.
  eapply wp_bind, wp_filterLogs; [exact Hlogs|]. intros a1 Ha1.
  eapply wp_bind, wp_filterLogs; [heap_lookup|]. intros a2 Ha2. heap_fresh Ha2.
  eapply wp_bind, wp_sortLogs; [heap_lookup|].
  eapply wp_bind, wp_sliceLogs; [heap_lookup|]. intros rl Hrl. heap_fresh Hrl.
  eapply wp_bind, wp_alloc. intros ex Hex. heap_fresh Hex.
  eapply wp_bind, wp_filterLogs; [heap_lookup|]. intros p1 Hp1. heap_fresh Hp1.
  eapply wp_bind, wp_sortLogs; [heap_lookup|].
  eapply wp_bind, wp_slice0Logs; [heap_lookup|]. intros pf Hpf. heap_fresh Hpf.
  eapply wp_bind, wp_someLogs; [heap_lookup|].
  eapply wp_bind, wp_lengthLogs; [heap_lookup|].
  eapply wp_bind, wp_everyLogs; [heap_lookup|].
  revert HPost. unfold Rir.getRecentCompleteLogs, Rir.painFlagsOf, Rir.workingSet. cbn.
  match goal with
  | |- context [if ?c then RirHeap.push _ _ else _] => destruct c
  end; intros HPost.
  - eapply wp_bind, wp_push; [heap_lookup|]. apply wp_ret.
    apply HPost; try assumption; [heap_incl | heap_lookup | heap_lookup].
  - eapply wp_bind, wp_ret. apply wp_ret.
    apply HPost; try assumption; [heap_incl | heap_lookup | heap_lookup].
Qed.

Lemma wp_getWeeklyVolume (logs : RirHeap.ref) (ls : list LogEntry.t) (now : Q)
    (volumeFn : LogEntry.t -> Q) h Post :
  h !! logs = Some (RirHeap.Logs ls) ->
  (forall h', h ⊆ h' -> Post (Ok (getWeeklyVolume ls now volumeFn)) h') ->
  RirHeap.wp (RirHeap.getWeeklyVolume logs now volumeFn) h Post.
Proof.
  intros Hlogs HPost. unfold RirHeap.getWeeklyVolume. cbv zeta.
  eapply wp_bind, wp_filterLogs; [exact Hlogs|]. intros w Hw.
  eapply wp_bind, wp_reduceLogs; [heap_lookup|].
  eapply wp_bind, wp_filterLogs; [heap_lookup|]. intros p Hp. heap_fresh Hp.
  eapply wp_bind, wp_reduceLogs; [heap_lookup|].
  apply wp_ret. apply HPost. heap_incl.
Qed.

Lemma wp_median (values : RirHeap.ref) (vs : list Q) h Post :
  h !! values = Some (RirHeap.Nums vs) ->
  (forall h', h ⊆ h' -> Post (Ok (median vs)) h') ->
  RirHeap.wp (RirHeap.median values) h Post.
Proof.
  intros Hvs HPost. unfold RirHeap.median.
  eapply wp_bind, wp_readNums; [exact Hvs|].
  destruct vs as [|x vs'].
  - apply wp_ret. apply HPost. reflexivity.
  - eapply wp_bind, wp_spreadNums; [exact Hvs|]. intros c Hc.
    eapply wp_bind, wp_sortNums; [heap_lookup|].
    eapply wp_bind, wp_readNums; [heap_lookup|].
    unfold median in HPost. cbv zeta in HPost.
    destruct (Nat.eqb _ 0); apply wp_ret; apply HPost; heap_incl.
Qed.

Lemma wp_medianRirOf (recentLogs : RirHeap.ref) (l : list LogEntry.t) h Post :
  h !! recentLogs = Some (RirHeap.Logs l) ->
  (forall h', h ⊆ h' -> Post (Ok (Rir.medianRirOf l)) h') ->
  RirHeap.wp (RirHeap.medianRirOf recentLogs) h Post.
Proof.
  intros Hl HPost. unfold RirHeap.medianRirOf.
  eapply wp_bind, wp_mapLogs; [exact Hl|]. intros m Hm.
  eapply wp_bind, wp_filterDefined; [heap_lookup|]. intros rr Hrr. heap_fresh Hrr.
  eapply wp_bind, wp_readNums; [heap_lookup|].
  unfold Rir.medianRirOf in HPost. cbv zeta in HPost.
  destruct (defined (map LogEntry.rir l)) as [|x xs] eqn:Hdef.
  - apply wp_ret. apply HPost. heap_incl.
  - eapply wp_bind, wp_median; [heap_lookup|]. intros h' Hh'.
    apply wp_ret. apply HPost. etransitivity; [|exact Hh']. heap_incl.
Qed.

End HeapEngine.

Section HeapRefinement.
Implicit Types (h : gmap nat RirHeap.cell).

Ltac heap_step :=
  match goal with
  | |- RirHeap.wp (RirHeap.bind _ _) _ _ => eapply wp_bind
  | |- RirHeap.wp (RirHeap.ret _) _ _ => apply wp_ret
  | |- RirHeap.wp (RirHeap.lift _) _ _ => apply wp_lift
  | |- RirHeap.wp (RirHeap.push _ _) _ _ => eapply wp_push; [heap_lookup|]
  | |- RirHeap.wp (RirHeap.getWeeklyVolume _ _ _) _ _ =>
      eapply wp_getWeeklyVolume; [heap_lookup|]; intros ? ?
  | |- RirHeap.wp (match ?x with _ => _ end) _ _ => destruct x; cbn [getProp rbind]
  | |- match ?x with Ok _ => _ | Throw _ => _ end => destruct x; cbn [getProp rbind]
  end.

Ltac heap_done :=
  split; [heap_incl|];
  unfold RirHeap.view, RirHeap.readExplanation;
  cbn [RirHeap.RepsTarget.explanation RirHeap.WeightedTarget.explanation
       RirHeap.IsometricTarget.explanation];
  try match goal with
      | |- context [?hf !! ?e] =>
          let H := fresh in
          eassert (H : hf !! e = Some (RirHeap.Strs _)) by heap_lookup;
          rewrite H
      end;
  cbn; split; [reflexivity | let H := fresh in intros ? H; first [discriminate H | (injection H as ->; reflexivity)]].

Ltac heap_run Hlogs :=
  cbv zeta;
  eapply wp_bind, wp_bind, wp_getRecentCompleteLogs; [exact Hlogs|];
  let h1 := fresh "h" in
  let rl := fresh "rl" in
  let ex := fresh "ex" in
  intros h1 rl ex ? ? ? ? ? ?;
  cbn [RirHeap.Guard.recentLogs RirHeap.Guard.profile RirHeap.Guard.explanation
       RirHeap.Guard.frozen RirHeap.Guard.deload];
  eapply wp_bind, wp_medianRirOf; [eassumption|]; intros ? ?;
  eapply wp_bind, wp_firstLog; [heap_lookup|];
  repeat heap_step;
  heap_done.

(** Each array-level method computes what its functional reading computes
    and leaves every array that existed before the call as it was. *)
Lemma wp_computeNextTarget (exercise : Rir.Exercise) (logs : RirHeap.ref)
    (ls : list LogEntry.t) (ctx : Ctx.t) h :
  h !! logs = Some (RirHeap.Logs ls) ->
  RirHeap.wp (RirHeap.computeNextTarget exercise logs ctx) h
    (fun out h' =>
       h ⊆ h'
       /\ RirHeap.view h' out = Rir.computeNextTarget exercise ls ctx
       /\ forall e, RirHeap.view h' out = Throw e -> out = Throw e).
Proof.
  intros Hlogs. destruct exercise as [this|this|this]; unfold RirHeap.computeNextTarget, Rir.computeNextTarget.
  - unfold RirHeap.RepsExercise.computeNextTarget, Rir.RepsExercise.computeNextTarget.
    heap_run Hlogs.
  - unfold RirHeap.WeightedRepsExercise.computeNextTarget,
      Rir.WeightedRepsExercise.computeNextTarget.
    heap_run Hlogs.
  - unfold RirHeap.IsometricExercise.computeNextTarget,
      Rir.IsometricExercise.computeNextTarget.
    heap_run Hlogs.
Qed.

End HeapRefinement.

Lemma view_weaken (h1 h2 : gmap nat RirHeap.cell) (out : result RirHeap.NextTarget)
    (v : Rir.NextTarget) :
  h1 ⊆ h2 -> RirHeap.view h1 out = Ok v -> RirHeap.view h2 out = Ok v.
Proof.
  intros Hsub. destruct out as [[t|t|t]|e]; cbn; try discriminate;
    unfold RirHeap.readExplanation;
    match goal with
    | |- context [h1 !! ?a] => destruct (h1 !! a) as [[| | |ex]|] eqn:Hex
    end; cbn; try discriminate;
    rewrite (lookup_weaken _ _ _ _ Hex Hsub); cbn; trivial.
Qed.

(** C7: [computeNextTarget] is a function of its inputs and leaves them
    alone. Called twice in a row on the same log array, it hands back two
    targets with the same contents (the value of the functional reading on
    the logs), the second call does not disturb the first target, and the
    log array holds the same logs after each call; in fact no array that
    existed before a call is changed by it. *)
Theorem computeNextTarget_deterministic (exercise : Rir.Exercise) (logs : RirHeap.ref)
    (ls : list LogEntry.t) (ctx : Ctx.t) (h : gmap nat RirHeap.cell) :
  h !! logs = Some (RirHeap.Logs ls) ->
  let call1 := RirHeap.computeNextTarget exercise logs ctx h in
  let call2 := RirHeap.computeNextTarget exercise logs ctx (snd call1) in
  RirHeap.view (snd call1) (fst call1) = Rir.computeNextTarget exercise ls ctx
  /\ RirHeap.view (snd call2) (fst call2) = RirHeap.view (snd call1) (fst call1)
  /\ RirHeap.view (snd call2) (fst call1) = RirHeap.view (snd call1) (fst call1)
  /\ snd call1 !! logs = Some (RirHeap.Logs ls)
  /\ snd call2 !! logs = Some (RirHeap.Logs ls)
  /\ h ⊆ snd call1
  /\ snd call1 ⊆ snd call2.
Proof.
  intros Hlogs call1 call2.
  destruct (wp_computeNextTarget exercise logs ls ctx h Hlogs) as (Hsub1 & Hview1 & Hthrow1).
  fold call1 in Hsub1, Hview1, Hthrow1.
  assert (Hlogs1 : snd call1 !! logs = Some (RirHeap.Logs ls))
    by (eapply lookup_weaken; eassumption).
  destruct (wp_computeNextTarget exercise logs ls ctx (snd call1) Hlogs1)
    as (Hsub2 & Hview2 & _).
  fold call2 in Hsub2, Hview2.
  repeat split; try assumption.
  - rewrite Hview1, Hview2. reflexivity.
  - destruct (RirHeap.view (snd call1) (fst call1)) as [v|e] eqn:Hv.
    + eapply view_weaken; eassumption.
    + rewrite (Hthrow1 e eq_refl). reflexivity.
  - eapply lookup_weaken; eassumption.
Qed.

Lemma computeNextTarget_deterministic_witness :
  let h : gmap nat RirHeap.cell :=
    {[ 0%nat := RirHeap.Logs [sampleLog 1 "complete" (Some 8) None (Some 6) None] ]} in
  let call1 := RirHeap.computeNextTarget (Rir.Reps sampleReps) 0%nat sampleCtx h in
  let call2 := RirHeap.computeNextTarget (Rir.Reps sampleReps) 0%nat sampleCtx (snd call1) in
  RirHeap.view (snd call2) (fst call2) = RirHeap.view (snd call1) (fst call1)
  /\ snd call2 !! 0%nat = Some (RirHeap.Logs [sampleLog 1 "complete" (Some 8) None (Some 6) None]).
Proof.
  intros h call1 call2.
  destruct (computeNextTarget_deterministic (Rir.Reps sampleReps) 0%nat
              [sampleLog 1 "complete" (Some 8) None (Some 6) None] sampleCtx h eq_refl)
    as (_ & H2 & _ & _ & H5 & _).
  split; [exact H2 | exact H5].
Defined.

(** *** More on the numeric utilities *)

Lemma nth_bounds (l : list Q) (lo hi : Q) (i : nat) :
  (forall x, In x l -> lo <= x <= hi) -> (i < List.length l)%nat -> lo <= nth i l 0 <= hi.
Proof. intros Hall Hi. apply Hall, nth_In, Hi. Qed.

(** The median of a non-empty list lies between any two bounds of its
    values: the median of reported efforts in 0..10 is in 0..10. *)
Theorem median_bounds (values : list Q) (lo hi : Q) :
  values <> [] ->
  (forall x, In x values -> lo <= x <= hi) ->
  lo <= median values <= hi.
Proof.
  intros Hne Hall. unfold median. destruct values as [|v vs]; [contradiction|].
  cbv zeta.
  set (sorted := Array_sort byValue (v :: vs)).
  assert (Hlen : List.length sorted = S (List.length vs)).
  { symmetry. apply (Permutation_length (Array_sort_perm byValue (v :: vs))). }
  assert (Hs : forall x, In x sorted -> lo <= x <= hi).
  { intros x Hx. apply Hall, (Array_sort_In byValue), Hx. }
  assert (Hmid : (List.length sorted / 2 < List.length sorted)%nat).
  { apply Nat.div_lt; lia. }
  destruct (Nat.eqb _ 0).
  - pose proof (nth_bounds sorted lo hi _ Hs Hmid) as [H1 H2].
    assert (Hmid' : (List.length sorted / 2 - 1 < List.length sorted)%nat) by lia.
    pose proof (nth_bounds sorted lo hi _ Hs Hmid') as [H3 H4].
    split.
    + apply Qle_shift_div_l; [reflexivity|]. lra.
    + apply Qle_shift_div_r; [reflexivity|]. lra.
  - apply nth_bounds; assumption.
Qed.

Lemma median_bounds_witness : 0 <= median [2; 9; 4; 7] <= 10.
Proof.
  apply median_bounds; [discriminate|].
  intros x Hx. cbn in Hx.
  destruct Hx as [<-|[<-|[<-|[<-|[]]]]]; split; discriminate.
Defined.

Lemma sum_bounds (l : list Q) (lo hi a : Q) :
  (forall x, In x l -> lo <= x <= hi) ->
  a + inject_Z (Z.of_nat (List.length l)) * lo
  <= fold_left (fun sum value => sum + value) l a
  <= a + inject_Z (Z.of_nat (List.length l)) * hi.
Proof.
  revert a. induction l as [|x l IH]; intros a Hall.
  - cbn [fold_left List.length]. change (inject_Z (Z.of_nat 0)) with 0. split; lra.
  - cbn [fold_left]. destruct (Hall x (or_introl eq_refl)) as [Hx1 Hx2].
    specialize (IH (a + x) (fun y Hy => Hall y (or_intror Hy))).
    cbn [List.length]. rewrite Nat2Z.inj_succ, <- Z.add_1_r, inject_Z_plus.
    change (inject_Z 1) with 1. split; lra.
Qed.

Lemma average_between (values : list Q) (lo hi : Q) :
  values <> [] ->
  (forall x, In x values -> lo <= x <= hi) ->
  lo <= average values <= hi.
Proof.
  intros Hne Hall. unfold average. destruct values as [|v vs]; [contradiction|].
  pose proof (sum_bounds (v :: vs) lo hi 0 Hall) as [H1 H2].
  set (n := inject_Z (Z.of_nat (List.length (v :: vs)))) in *.
  assert (Hn : 0 < n).
  { subst n. change 0 with (inject_Z 0). rewrite <- Zlt_Qlt. cbn [List.length]. lia. }
  split.
  - apply Qle_shift_div_l; [exact Hn|]. lra.
  - apply Qle_shift_div_r; [exact Hn|]. lra.
Qed.

(** The average of a non-empty list of whole numbers lies between any two
    whole bounds of its values, as the efforts and pains reported on the
    scale 0..10 do. The list is small enough for every partial sum to stay
    within [2^53], where the additions of the code are exact. *)
Theorem average_bounds (values : list Q) (lo hi : Z) :
  values <> [] ->
  (forall x, In x values -> exists z : Z, x == inject_Z z /\ (lo <= z <= hi)%Z) ->
  (Z.of_nat (List.length values) * Z.max (Z.abs lo) (Z.abs hi) <= 2 ^ 53)%Z ->
  inject_Z lo <= average values <= inject_Z hi.
Proof.
  intros Hne Hall _. apply average_between; [exact Hne|].
  intros x Hx. destruct (Hall x Hx) as (z & -> & Hlo & Hhi).
  rewrite <- !Zle_Qle. split; assumption.
Qed.

Lemma average_bounds_witness : inject_Z 0 <= average [2; 9; 4] <= inject_Z 10.
Proof.
  apply average_bounds; [discriminate | | vm_compute; discriminate].
  intros x Hx. cbn in Hx.
  destruct Hx as [<-|[<-|[<-|[]]]];
    [exists 2%Z | exists 9%Z | exists 4%Z]; (split; [reflexivity | lia]).
Defined.

(** The estimated one-rep max is at least the load and grows with the
    reps, for a non-negative load. *)
Theorem estimate1RM_monotone (reps reps' loadKg : Q) :
  0 <= loadKg -> 0 <= reps -> reps <= reps' ->
  loadKg <= estimate1RM reps loadKg
  /\ estimate1RM reps loadKg <= estimate1RM reps' loadKg.
Proof.
  intros Hl Hr Hrr. unfold estimate1RM.
  assert (H30 : forall r, r / 30 == r * (1 # 30)) by (intros r; reflexivity).
  rewrite !H30.
  assert (H1 : 0 <= loadKg * reps) by (apply Qmult_le_0_compat; assumption).
  assert (H2 : 0 <= loadKg * (reps' - reps)) by (apply Qmult_le_0_compat; lra).
  split; lra.
Qed.

Lemma estimate1RM_monotone_witness :
  100 <= estimate1RM 5 100 /\ estimate1RM 5 100 <= estimate1RM 8 100.
Proof. apply estimate1RM_monotone; discriminate. Defined.

(** *** The median does not depend on the order of its values *)

Lemma byValue_true (a b : Q) : byValue a b = true <-> a <= b.
Proof. unfold byValue. rewrite Qleb_true. split; intros H; lra. Qed.

Lemma byValue_false (a b : Q) : byValue a b = false <-> b < a.
Proof.
  rewrite <- not_true_iff_false, byValue_true. split.
  - apply Qnot_le_lt.
  - apply Qlt_not_le.
Qed.

Lemma byValue_compat (a a' b b' : Q) : a == a' -> b == b' -> byValue a b = byValue a' b'.
Proof.
  intros Ha Hb. destruct (byValue a' b') eqn:H.
  - apply byValue_true. apply byValue_true in H. lra.
  - apply byValue_false. apply byValue_false in H. lra.
Qed.

Lemma Forall2_Qeq_refl (l : list Q) : Forall2 Qeq l l.
Proof. induction l; constructor; [reflexivity | assumption]. Qed.

Lemma Forall2_Qeq_trans (l1 l2 l3 : list Q) :
  Forall2 Qeq l1 l2 -> Forall2 Qeq l2 l3 -> Forall2 Qeq l1 l3.
Proof.
  intros H12. revert l3. induction H12 as [|x y l1 l2 Hxy _ IH]; intros l3 H23.
  - exact H23.
  - inversion H23 as [|? z ? l3' Hyz H23']; subst. constructor.
    + rewrite Hxy. exact Hyz.
    + apply IH, H23'.
Qed.

Lemma sort_insert_Qeq (x x' : Q) (s s' : list Q) :
  x == x' -> Forall2 Qeq s s' ->
  Forall2 Qeq (sort_insert byValue x s) (sort_insert byValue x' s').
Proof.
  intros Hx Hs. induction Hs as [|y y' s s' Hy Hs IH]; cbn.
  - constructor; [exact Hx | constructor].
  - rewrite (byValue_compat x x' y y' Hx Hy). destruct (byValue x' y').
    + constructor; [exact Hx|]. constructor; assumption.
    + constructor; assumption.
Qed.

Lemma sort_insert_comm (x y : Q) (s : list Q) :
  Forall2 Qeq (sort_insert byValue x (sort_insert byValue y s))
    (sort_insert byValue y (sort_insert byValue x s)).
Proof.
  induction s as [|e s IH]; cbn.
  - destruct (byValue x y) eqn:Hxy, (byValue y x) eqn:Hyx; cbn.
    + apply byValue_true in Hxy, Hyx.
      assert (x == y) by lra.
      repeat constructor; [assumption | symmetry; assumption].
    + apply Forall2_Qeq_refl.
    + apply Forall2_Qeq_refl.
    + apply byValue_false in Hxy, Hyx. lra.
  - destruct (byValue y e) eqn:Hye, (byValue x e) eqn:Hxe; cbn;
      destruct (byValue x y) eqn:Hxy, (byValue y x) eqn:Hyx; cbn;
      rewrite ?Hye, ?Hxe;
      repeat match goal with
             | H : byValue _ _ = true |- _ => apply byValue_true in H
             | H : byValue _ _ = false |- _ => apply byValue_false in H
             end;
      try lra;
      try apply Forall2_Qeq_refl;
      try (assert (x == y) by lra;
           constructor; [assumption|]; constructor; [symmetry; assumption|];
           apply Forall2_Qeq_refl).
    constructor; [reflexivity | exact IH].
    all: constructor; [reflexivity | exact IH].
Qed.

Lemma Array_sort_Permutation_Qeq (l l' : list Q) :
  Permutation l l' -> Forall2 Qeq (Array_sort byValue l) (Array_sort byValue l').
Proof.
  induction 1 as [|x l l' _ IH|x y l|l1 l2 l3 _ IH1 _ IH2].
  - constructor.
  - change (Forall2 Qeq (sort_insert byValue x (Array_sort byValue l))
              (sort_insert byValue x (Array_sort byValue l'))).
    apply sort_insert_Qeq; [reflexivity | exact IH].
  - change (Forall2 Qeq
              (sort_insert byValue y (sort_insert byValue x (Array_sort byValue l)))
              (sort_insert byValue x (sort_insert byValue y (Array_sort byValue l)))).
    apply sort_insert_comm.
  - eapply Forall2_Qeq_trans; eassumption.
Qed.

Lemma nth_Forall2_Qeq (l l' : list Q) (i : nat) :
  Forall2 Qeq l l' -> nth i l 0 == nth i l' 0.
Proof.
  intros H. revert i. induction H as [|x y l l' Hxy _ IH]; intros [|i]; cbn;
    try reflexivity; [exact Hxy | apply IH].
Qed.

(** Two histories with the same values in a different order have the same
    median. *)
Theorem median_Permutation (values values' : list Q) :
  Permutation values values' -> median values == median values'.
Proof.
  intros Hp. unfold median.
  destruct values as [|v vs], values' as [|v' vs'].
  - reflexivity.
  - apply Permutation_nil in Hp. discriminate.
  - apply Permutation_sym, Permutation_nil in Hp. discriminate.
  - cbv zeta.
    pose proof (Array_sort_Permutation_Qeq _ _ Hp) as Hs.
    assert (Hlen : List.length (Array_sort byValue (v :: vs))
                   = List.length (Array_sort byValue (v' :: vs'))).
    { clear -Hs. induction Hs; cbn; congruence. }
    rewrite Hlen. destruct (Nat.eqb _ 0).
    + rewrite (nth_Forall2_Qeq _ _ _ Hs).
      rewrite (nth_Forall2_Qeq _ _ (List.length (Array_sort byValue (v' :: vs')) / 2) Hs).
      reflexivity.
    + apply nth_Forall2_Qeq, Hs.
Qed.

Lemma median_Permutation_witness : median [5; 1; 4; 2] == median [1; 2; 4; 5].
Proof.
  apply median_Permutation.
  apply (Permutation_trans (l' := [1; 5; 4; 2])); [apply perm_swap|].
  apply perm_skip.
  apply (Permutation_trans (l' := [4; 5; 2])); [apply perm_swap|].
  apply (Permutation_trans (l' := [4; 2; 5])); [apply perm_skip, perm_swap|].
  apply perm_swap.
Defined.

(** *** More on the guardrail evaluator *)

Lemma In_firstn {A : Type} (n : nat) (l : list A) (x : A) :
  In x (firstn n l) -> In x l.
Proof.
  revert l. induction n as [|n IH]; intros [|y l]; cbn; try contradiction.
  intros [->|H]; [left; reflexivity | right; apply IH, H].
Qed.

(** The working set holds at most 30 logs, all of them complete logs of
    the history from the last 14 days, newest first. *)
Theorem workingSet_invariant (logs : list LogEntry.t) (now : Q) :
  (List.length (Rir.workingSet logs now) <= 30)%nat
  /\ (forall l, In l (Rir.workingSet logs now) ->
                In l logs
                /\ LogEntry.status l = "complete"
                /\ now - LogEntry.timestamp l <= 14 * DAY_MS)
  /\ Sorted (fun a b => LogEntry.timestamp b <= LogEntry.timestamp a)
       (Rir.workingSet logs now).
Proof.
  unfold Rir.workingSet. split; [|split].
  - rewrite length_firstn. apply Nat.le_min_l.
  - intros l Hin. apply In_firstn in Hin.
    apply (proj1 (Array_sort_In Rir.byNewest _ _)) in Hin.
    apply filter_In in Hin as [Hin Hw]. apply filter_In in Hin as [Hin Hc].
    apply Qleb_true in Hw. apply String.eqb_eq in Hc. repeat split; assumption.
  - set (s := Array_sort Rir.byNewest _).
    assert (Hs : Sorted (fun a b => LogEntry.timestamp b <= LogEntry.timestamp a) s).
    { pose proof (Array_sort_sorted Rir.byNewest byNewest_total
                    (List.filter (fun log => Qleb (now - LogEntry.timestamp log) (14 * DAY_MS))
                       (List.filter (fun log => String.eqb (LogEntry.status log) "complete")
                          logs))) as H.
      fold s in H. clearbody s. induction H as [|a l Hl IH Hhd]; constructor.
      - exact IH.
      - destruct Hhd; constructor. apply byNewest_true. assumption. }
    clearbody s. generalize 30%nat as n. induction Hs as [|a l Hl IH Hhd]; intros n.
    + rewrite firstn_nil. constructor.
    + destruct n as [|n]; cbn; [constructor|]. constructor; [apply IH|].
      destruct Hhd as [|b l' Hab]; destruct n; cbn; constructor. exact Hab.
Qed.

(** A history in which no log records pain never triggers the guardrails,
    unless the pain window is configured to be empty. *)
Theorem guard_without_pain (logs : list LogEntry.t) (ctx : Ctx.t)
    (overrideProfile : option Profile.t) :
  (forall l, In l logs -> LogEntry.pain0to10 l = None) ->
  ~ Profile.freezeDaysIfPain (orElse overrideProfile (Ctx.profile ctx)) == 0 ->
  Rir.Guard.deload (Rir.getRecentCompleteLogs logs ctx overrideProfile) = false
  /\ Rir.Guard.frozen (Rir.getRecentCompleteLogs logs ctx overrideProfile) = false
  /\ Rir.Guard.explanation (Rir.getRecentCompleteLogs logs ctx overrideProfile) = [].
Proof.
  intros Hnone Hf.
  assert (Hflags : Rir.painFlagsOf logs (orElse overrideProfile (Ctx.profile ctx)) = []).
  { unfold Rir.painFlagsOf.
    assert (Hfil : List.filter (fun log => match LogEntry.pain0to10 log with
                                           | Some _ => true
                                           | None => false
                                           end) logs = []).
    { clear -Hnone. induction logs as [|l logs IH]; [reflexivity|]. cbn.
      rewrite (Hnone l (or_introl eq_refl)). apply IH.
      intros l' Hl'. apply Hnone. right. exact Hl'. }
    rewrite Hfil. cbn. unfold slice0. cbn. destruct (_ <? 0)%Z; apply firstn_nil. }
  assert (Hd : Rir.Guard.deload (Rir.getRecentCompleteLogs logs ctx overrideProfile) = false).
  { unfold Rir.getRecentCompleteLogs. cbn. rewrite Hflags. cbn.
    rewrite andb_true_r. apply not_true_iff_false. intros Heq.
    apply Qeqb_true in Heq. apply Hf. rewrite <- Heq. reflexivity. }
  rewrite guard_frozen_is_deload, guard_explanation, Hd. repeat split.
Qed.

Lemma guard_without_pain_witness :
  let logs := [sampleLog 1 "complete" (Some 8) None (Some 1) None;
               sampleLog 2 "skipped" None None None None] in
  Rir.Guard.deload (Rir.getRecentCompleteLogs logs sampleCtx None) = false
  /\ Rir.Guard.frozen (Rir.getRecentCompleteLogs logs sampleCtx None) = false
  /\ Rir.Guard.explanation (Rir.getRecentCompleteLogs logs sampleCtx None) = [].
Proof.
  intros logs. apply guard_without_pain.
  - intros l [<-|[<-|[]]]; reflexivity.
  - discriminate.
Defined.

(** The pain window holds at most [freezeDaysIfPain] logs, each one a log
    of the history that records pain. *)
Theorem painFlags_window (logs : list LogEntry.t) (profile : Profile.t) :
  0 <= Profile.freezeDaysIfPain profile ->
  inject_Z (Z.of_nat (List.length (Rir.painFlagsOf logs profile)))
  <= Profile.freezeDaysIfPain profile
  /\ forall l, In l (Rir.painFlagsOf logs profile) ->
               In l logs /\ LogEntry.pain0to10 l <> None.
Proof.
  intros Hf. unfold Rir.painFlagsOf, slice0, ToInteger.
  assert (H0 : Qle_bool 0 (Profile.freezeDaysIfPain profile) = true)
    by (apply Qle_bool_iff, Hf).
  rewrite H0.
  assert (Hk : (0 <= Qfloor (Profile.freezeDaysIfPain profile))%Z).
  { change 0%Z with (Qfloor 0). apply Qfloor_resp_le, Hf. }
  destruct (Z.ltb_spec (Qfloor (Profile.freezeDaysIfPain profile)) 0) as [Hneg|_]; [lia|].
  split.
  - rewrite length_firstn.
    apply Qle_trans with (inject_Z (Qfloor (Profile.freezeDaysIfPain profile)));
      [|apply Qfloor_le].
    rewrite <- Zle_Qle. lia.
  - intros l Hin. apply In_firstn in Hin.
    apply (proj1 (Array_sort_In Rir.byNewest _ _)) in Hin.
    apply filter_In in Hin as [Hin Hp]. split; [exact Hin|].
    destruct (LogEntry.pain0to10 l); [discriminate|discriminate].
Qed.

Lemma painFlags_window_witness :
  let logs := [sampleLog 3 "complete" (Some 8) None None (Some 7);
               sampleLog 2 "skipped" None None None (Some 0);
               sampleLog 1 "skipped" None None None (Some 0)] in
  inject_Z (Z.of_nat (List.length (Rir.painFlagsOf logs defaultProgression))) <= 2
  /\ forall l, In l (Rir.painFlagsOf logs defaultProgression) ->
               In l logs /\ LogEntry.pain0to10 l <> None.
Proof.
  intros logs. apply (painFlags_window logs defaultProgression). discriminate.
Defined.

(** *** More on the rep-based strategy *)

Lemma Math_round_le (x : Q) (z : Z) : x < inject_Z z + (1 # 2) -> Math_round x <= inject_Z z.
Proof.
  intros Hx. unfold Math_round. rewrite <- Zle_Qle.
  assert (H : (Qfloor (x + (1 # 2)) < z + 1)%Z).
  { rewrite Zlt_Qlt, inject_Z_plus. change (inject_Z 1) with 1.
    apply Qle_lt_trans with (x + (1 # 2)); [apply Qfloor_le | lra]. }
  lia.
Qed.

Lemma Math_round_le_same (x : Q) (z : Z) : x <= inject_Z z -> Math_round x <= inject_Z z.
Proof. intros Hx. apply Math_round_le. lra. Qed.

(** A deload never asks for more than the last set: with a whole number
    of reps in the last set and a deload factor between 0 and 1, the
    deload target is at most the larger of [minRepsFloor] and the last
    reps. *)
Theorem reps_deload_reduces (this : Rir.RepsExercise.t) (logs : list LogEntry.t)
    (ctx : Ctx.t) (rr : Range.t) (z : Z) :
  Rir.RepsExercise.repRange this = Some rr ->
  Rir.Guard.deload
    (Rir.getRecentCompleteLogs logs ctx (Rir.RepsExercise.progressionProfile this)) = true ->
  orElse (hd_error (Rir.workingSet logs (Ctx.now ctx)) ≫= LogEntry.reps) (Range.min rr)
  = inject_Z z ->
  0 <= inject_Z z ->
  0 <= Profile.deloadVolumeFactor
         (orElse (Rir.RepsExercise.progressionProfile this) (Ctx.profile ctx)) <= 1 ->
  exists t, Rir.RepsExercise.computeNextTarget this logs ctx = Ok t
            /\ Rir.RepsTarget.deload t = true
            /\ Rir.RepsTarget.reps t
               <= Math_max (Rir.RepsExercise.minRepsFloor this) (inject_Z z).
Proof.
  intros Hrange Hdl Hlast Hz [Hf0 Hf1].
  destruct (reps_deload_target this logs ctx rr Hrange Hdl) as (t & Ht & Hd & _ & Hr & _).
  exists t. split; [exact Ht|]. split; [exact Hd|].
  rewrite Hr, guard_recentLogs, guard_profile, Hlast.
  unfold Math_max. apply Q.max_le_compat_l. apply Math_round_le_same.
  set (f := Profile.deloadVolumeFactor _) in *.
  assert (H : 0 <= inject_Z z * (1 - f)) by (apply Qmult_le_0_compat; lra).
  lra.
Qed.

Lemma reps_deload_reduces_witness :
  exists t, Rir.RepsExercise.computeNextTarget sampleReps
              [sampleLog 1 "complete" (Some 8) None None (Some 7)] sampleCtx = Ok t
            /\ Rir.RepsTarget.deload t = true
            /\ Rir.RepsTarget.reps t <= Math_max 1 (inject_Z 8).
Proof.
  apply (reps_deload_reduces sampleReps _ sampleCtx {| Range.min := 6; Range.max := 15 |} 8);
    try reflexivity; try discriminate.
  split; discriminate.
Defined.

(** The rep-based method returns a target exactly when [repRange] is
    configured; without it every call throws. *)
Theorem reps_returns_iff_range (this : Rir.RepsExercise.t) (logs : list LogEntry.t)
    (ctx : Ctx.t) :
  (exists t, Rir.RepsExercise.computeNextTarget this logs ctx = Ok t)
  <-> Rir.RepsExercise.repRange this <> None.
Proof.
  split.
  - intros [t Ht] Hnone. revert Ht.
    unfold Rir.RepsExercise.computeNextTarget. cbv zeta. rewrite Hnone. cbn.
    destruct (hd_error _ ≫= LogEntry.reps) as [r|]; [|discriminate].
    destruct (Rir.medianRirOf _) as [m|]; cbn;
      repeat match goal with
             | |- context [if ?c then _ else _] => destruct c; cbn
             end; discriminate.
  - intros Hsome. destruct (Rir.RepsExercise.repRange this) as [rr|] eqn:Hrr;
      [|contradiction].
    apply (reps_returns this logs ctx rr Hrr).
Qed.

(** An empty explanation means that nothing was adjusted: no deload, and
    the target is the last reps (or [repRange.min] without history) clamped
    into [minRepsFloor .. repRange.max]. *)
Theorem reps_silent_target (this : Rir.RepsExercise.t) (logs : list LogEntry.t)
    (ctx : Ctx.t) (rr : Range.t) (t : Rir.RepsTarget.t) :
  Rir.RepsExercise.repRange this = Some rr ->
  Rir.RepsExercise.computeNextTarget this logs ctx = Ok t ->
  Rir.RepsTarget.explanation t = [] ->
  Rir.RepsTarget.deload t = false
  /\ Rir.RepsTarget.reps t
     = clamp (orElse (hd_error (Rir.workingSet logs (Ctx.now ctx)) ≫= LogEntry.reps)
                (Range.min rr))
         (Rir.RepsExercise.minRepsFloor this) (Range.max rr).
Proof.
  intros Hrange. unfold Rir.RepsExercise.computeNextTarget. cbv zeta.
  rewrite guard_frozen_is_deload, guard_explanation, guard_recentLogs, Hrange.
  destruct (hd_error _ ≫= LogEntry.reps) as [r|];
    destruct (Rir.medianRirOf _) as [m|]; cbn;
    repeat match goal with
           | |- context [if ?c then _ else _] => destruct c; cbn
           end;
    intros [= <-]; cbn; intros Hex;
    try (apply app_eq_nil in Hex as [_ Hex]; discriminate);
    try discriminate;
    split; reflexivity.
Qed.

Lemma reps_silent_target_witness :
  let t := {| Rir.RepsTarget.metricType := "reps"; Rir.RepsTarget.reps := 8;
              Rir.RepsTarget.explanation := []; Rir.RepsTarget.frozen := false;
              Rir.RepsTarget.deload := false |} in
  Rir.RepsTarget.deload t = false
  /\ Rir.RepsTarget.reps t = clamp 8 1 15.
Proof.
  intros t.
  apply (reps_silent_target sampleReps
           [sampleLog 1 "complete" (Some 8) None (Some 4) None] sampleCtx
           {| Range.min := 6; Range.max := 15 |} t); reflexivity.
Defined.

Lemma reps_clamped_witness :
  exists t, Rir.RepsExercise.computeNextTarget sampleReps
              [sampleLog 1 "complete" (Some 15) None (Some 8) None] sampleCtx = Ok t
            /\ 1 <= Rir.RepsTarget.reps t <= 15.
Proof.
  apply (reps_clamped sampleReps _ sampleCtx {| Range.min := 6; Range.max := 15 |} eq_refl);
    try reflexivity.
  discriminate.
Defined.

Lemma weighted_effort_in_band_witness :
  exists t, Rir.WeightedRepsExercise.computeNextTarget sampleWeighted
              [sampleLog 1 "complete" (Some 8) (Some 50) (Some 4) None] sampleCtx = Ok t
            /\ Rir.WeightedTarget.reps t = 8
            /\ Rir.WeightedTarget.loadKg t = 50.
Proof.
  apply (weighted_effort_in_band sampleWeighted
           [sampleLog 1 "complete" (Some 8) (Some 50) (Some 4) None] sampleCtx
           {| Range.min := 6; Range.max := 10 |} eq_refl 4);
    try reflexivity; discriminate.
Defined.

(** *** More on the isometric strategy *)

(** Easy effort adds one time increment, clamped to the duration range,
    when neither a deload nor the volume cap steps in. *)
Theorem isometric_effort_easy (this : Rir.IsometricExercise.t) (logs : list LogEntry.t)
    (ctx : Ctx.t) (rr : Range.t) (m : Q) :
  Rir.IsometricExercise.durationRangeSec this = Some rr ->
  Rir.Guard.deload
    (Rir.getRecentCompleteLogs logs ctx (Rir.IsometricExercise.progressionProfile this))
  = false ->
  Rir.medianRirOf (Rir.workingSet logs (Ctx.now ctx)) = Some m ->
  Profile.targetRirMax
    (orElse (Rir.IsometricExercise.progressionProfile this) (Ctx.profile ctx)) < m ->
  Rir.capHit (getWeeklyVolume logs (Ctx.now ctx) Rir.IsometricExercise.volumeFn)
    (orElse (Rir.IsometricExercise.progressionProfile this) (Ctx.profile ctx)) = false ->
  exists t, Rir.IsometricExercise.computeNextTarget this logs ctx = Ok t
            /\ Rir.IsometricTarget.durationSec t
               = clamp (orElse (hd_error (Rir.workingSet logs (Ctx.now ctx))
                                ≫= LogEntry.durationSec) (Range.min rr)
                        + Rir.IsometricExercise.timeIncrementSec this)
                   (Range.min rr) (Range.max rr)
            /\ Rir.IsometricTarget.explanation t = ["Effort was easy; nudging time up."].
Proof.
  intros Hrange Hdl Hmed Hm Hcap. apply Qgtb_true in Hm.
  unfold Rir.IsometricExercise.computeNextTarget. cbv zeta.
  rewrite guard_frozen_is_deload, guard_explanation, Hdl, guard_recentLogs, guard_profile,
    Hmed, Hrange, Hm.
  destruct (hd_error _ ≫= LogEntry.durationSec) as [d|]; cbn; rewrite Hcap; cbn;
    eexists; (split; [reflexivity|]); cbn; split; reflexivity.
Qed.

Lemma isometric_effort_easy_witness :
  exists t, Rir.IsometricExercise.computeNextTarget sampleIsometric
              [sampleHold 1 (Some 30) (Some 6) None] sampleCtx = Ok t
            /\ Rir.IsometricTarget.durationSec t = clamp (30 + 5) 20 60
            /\ Rir.IsometricTarget.explanation t = ["Effort was easy; nudging time up."].
Proof.
  apply (isometric_effort_easy sampleIsometric
           [sampleHold 1 (Some 30) (Some 6) None] sampleCtx
           {| Range.min := 20; Range.max := 60 |} 6); reflexivity.
Defined.

(** *** More on the weekly volume *)

Lemma sumQ_Permutation (l l' : list Q) : Permutation l l' -> sumQ l == sumQ l'.
Proof.
  unfold sumQ.
  induction 1 as [|x l l' _ IH|x y l|l1 l2 l3 _ IH1 _ IH2]; cbn [fold_right].
  - reflexivity.
  - rewrite IH. reflexivity.
  - lra.
  - rewrite IH1. exact IH2.
Qed.

Lemma filter_Permutation {A : Type} (p : A -> bool) (l l' : list A) :
  Permutation l l' -> Permutation (List.filter p l) (List.filter p l').
Proof.
  induction 1 as [|x l l' _ IH|x y l|l1 l2 l3 _ IH1 _ IH2]; cbn.
  - apply perm_nil.
  - destruct (p x); [apply perm_skip|]; exact IH.
  - destruct (p x), (p y); try apply Permutation_refl. apply perm_swap.
  - eapply Permutation_trans; eassumption.
Qed.

Lemma volume_of_filter (p : LogEntry.t -> bool) (volumeFn : LogEntry.t -> Q)
    (logs : list LogEntry.t) :
  fold_left (fun sum log => sum + volumeFn log) (List.filter p logs) 0
  == sumQ (map volumeFn (List.filter p logs)).
Proof. rewrite fold_left_sumQ. apply Qplus_0_l. Qed.

Lemma volume_Permutation (logs logs' : list LogEntry.t) (now : Q)
    (volumeFn : LogEntry.t -> Q) :
  Permutation logs logs' ->
  WeeklyVolume.volumeThisWeek (getWeeklyVolume logs now volumeFn)
  == WeeklyVolume.volumeThisWeek (getWeeklyVolume logs' now volumeFn)
  /\ WeeklyVolume.volumePrevWeek (getWeeklyVolume logs now volumeFn)
     == WeeklyVolume.volumePrevWeek (getWeeklyVolume logs' now volumeFn).
Proof.
  intros Hp. unfold getWeeklyVolume. cbn.
  split; rewrite !volume_of_filter;
    apply sumQ_Permutation, Permutation_map, filter_Permutation, Hp.
Qed.

(** For whole volumes that add up to [2^53] at most (reps, seconds, reps
    times whole kilograms), where every sum of the code is exact, the weekly
    volumes do not depend on the order in which the history is stored. *)
Theorem getWeeklyVolume_Permutation (logs logs' : list LogEntry.t) (now : Q)
    (volumeFn : LogEntry.t -> Q) :
  Permutation logs logs' ->
  wholeVolumes volumeFn logs ->
  sumQ (map volumeFn logs) <= inject_Z (2 ^ 53) ->
  WeeklyVolume.volumeThisWeek (getWeeklyVolume logs now volumeFn)
  == WeeklyVolume.volumeThisWeek (getWeeklyVolume logs' now volumeFn)
  /\ WeeklyVolume.volumePrevWeek (getWeeklyVolume logs now volumeFn)
     == WeeklyVolume.volumePrevWeek (getWeeklyVolume logs' now volumeFn).
Proof. intros Hp _ _. apply volume_Permutation, Hp. Qed.

Lemma getWeeklyVolume_Permutation_witness :
  let a := sampleLog 1 "complete" (Some 8) None None None in
  let b := sampleLog 9 "complete" (Some 5) None None None in
  WeeklyVolume.volumeThisWeek
    (getWeeklyVolume [a; b] (Ctx.now sampleCtx) Rir.RepsExercise.volumeFn)
  == WeeklyVolume.volumeThisWeek
       (getWeeklyVolume [b; a] (Ctx.now sampleCtx) Rir.RepsExercise.volumeFn)
  /\ WeeklyVolume.volumePrevWeek
       (getWeeklyVolume [a; b] (Ctx.now sampleCtx) Rir.RepsExercise.volumeFn)
     == WeeklyVolume.volumePrevWeek
          (getWeeklyVolume [b; a] (Ctx.now sampleCtx) Rir.RepsExercise.volumeFn).
Proof.
  intros a b. apply getWeeklyVolume_Permutation.
  - apply perm_swap.
  - intros log [<-|[<-|[]]]; [exists 8%Z | exists 5%Z]; (split; [lia | reflexivity]).
  - vm_compute. discriminate.
Defined.

Lemma DAY_MS_pos : 0 < DAY_MS.
Proof. reflexivity. Qed.

Lemma volume_fortnight (logs : list LogEntry.t) (now : Q)
    (volumeFn : LogEntry.t -> Q) :
  WeeklyVolume.volumeThisWeek (getWeeklyVolume logs now volumeFn)
  + WeeklyVolume.volumePrevWeek (getWeeklyVolume logs now volumeFn)
  == sumQ (map volumeFn (List.filter (notBefore (now - 14 * DAY_MS)) logs)).
Proof.
  unfold getWeeklyVolume. cbn. rewrite !volume_of_filter.
  pose proof DAY_MS_pos as Hd.
  unfold sumQ in *.
  induction logs as [|l logs IH]; cbn [List.filter map fold_right]; [reflexivity|].
  unfold notBefore at 1.
  destruct (Qgeb (LogEntry.timestamp l) (now - 7 * DAY_MS)) eqn:H7;
    destruct (Qgeb (LogEntry.timestamp l) (now - 14 * DAY_MS)) eqn:H14;
    destruct (Qltb (LogEntry.timestamp l) (now - 7 * DAY_MS)) eqn:Hlt;
    destruct (Qleb (now - 14 * DAY_MS) (LogEntry.timestamp l)) eqn:Hnb;
    cbn [andb map fold_right];
    repeat match goal with
           | H : Qgeb _ _ = true |- _ => apply Qgeb_true in H
           | H : Qleb _ _ = true |- _ => apply Qleb_true in H
           | H : Qltb _ _ = true |- _ => apply Qltb_true in H
           | H : Qltb _ _ = false |- _ => apply Qltb_false in H
           | H : Qgeb _ _ = false |- _ =>
               apply not_true_iff_false in H; rewrite Qgeb_true in H;
               apply Qnot_le_lt in H
           | H : Qleb _ _ = false |- _ =>
               apply not_true_iff_false in H; rewrite Qleb_true in H;
               apply Qnot_le_lt in H
           end;
    try lra.
Qed.

(** The two windows tile the last fortnight: no log is counted twice and
    none stamped at or after [now - 14d] is left out, so for whole volumes
    that add up to [2^53] at most, where every sum of the code is exact, the
    two volumes add up to the volume of all those logs. *)
Theorem getWeeklyVolume_fortnight (logs : list LogEntry.t) (now : Q)
    (volumeFn : LogEntry.t -> Q) :
  wholeVolumes volumeFn logs ->
  sumQ (map volumeFn logs) <= inject_Z (2 ^ 53) ->
  WeeklyVolume.volumeThisWeek (getWeeklyVolume logs now volumeFn)
  + WeeklyVolume.volumePrevWeek (getWeeklyVolume logs now volumeFn)
  == sumQ (map volumeFn (List.filter (notBefore (now - 14 * DAY_MS)) logs)).
Proof. intros _ _. apply volume_fortnight. Qed.

Lemma getWeeklyVolume_fortnight_witness :
  let logs := [sampleLog 1 "complete" (Some 8) None None None;
               sampleLog 9 "complete" (Some 5) None None None;
               sampleLog 20 "complete" (Some 7) None None None] in
  WeeklyVolume.volumeThisWeek
    (getWeeklyVolume logs (Ctx.now sampleCtx) Rir.RepsExercise.volumeFn)
  + WeeklyVolume.volumePrevWeek
      (getWeeklyVolume logs (Ctx.now sampleCtx) Rir.RepsExercise.volumeFn)
  == sumQ (map Rir.RepsExercise.volumeFn
             (List.filter (notBefore (Ctx.now sampleCtx - 14 * DAY_MS)) logs)).
Proof.
  intros logs. apply getWeeklyVolume_fortnight.
  - intros log [<-|[<-|[<-|[]]]]; [exists 8%Z | exists 5%Z | exists 7%Z];
      (split; [lia | reflexivity]).
  - vm_compute. discriminate.
Defined.

(** *** Validation *)

Lemma falsy_or_nonpositive (o : option Q) :
  falsy o || optLeb o 0 = false <-> exists v, o = Some v /\ 0 < v.
Proof.
  destruct o as [v|]; cbn.
  - unfold falsy, Gtg.truthy. rewrite negb_involutive, orb_false_iff.
    split.
    + intros [_ Hle]. exists v. split; [reflexivity|].
      apply Qltb_true. unfold Qltb, Qleb in *. rewrite Hle. reflexivity.
    + intros (v' & [= <-] & Hpos). split.
      * apply not_true_iff_false. rewrite Qeqb_true. intros Heq. rewrite Heq in Hpos.
        apply (Qlt_irrefl 0), Hpos.
      * apply not_true_iff_false. rewrite Qleb_true. apply Qlt_not_le, Hpos.
  - split; [discriminate|]. intros (v & Hv & _). discriminate.
Qed.

Lemma falsy_or_below_one (o : option Q) :
  falsy o || optLtb o 1 = false <-> exists v, o = Some v /\ 1 <= v.
Proof.
  destruct o as [v|]; cbn.
  - unfold falsy, Gtg.truthy. rewrite negb_involutive, orb_false_iff.
    split.
    + intros [_ Hlt]. exists v. split; [reflexivity|]. apply Qltb_false, Hlt.
    + intros (v' & [= <-] & H1). split.
      * apply not_true_iff_false. rewrite Qeqb_true. intros Heq. rewrite Heq in H1.
        apply (Qlt_not_le 0 1); [reflexivity | exact H1].
      * apply Qltb_false, H1.
  - split; [discriminate|]. intros (v & Hv & _). discriminate.
Qed.

Arguments falsy : simpl never.
Arguments optLeb : simpl never.
Arguments optLtb : simpl never.

(** A log that is not complete passes every [validateLog], in both
    engines, whatever its fields hold. *)
Theorem validateLog_incomplete (log : LogEntry.t) :
  LogEntry.status log <> "complete" ->
  (forall exercise,
      RirValidation.validateLog exercise log
      = {| Validation.valid := true; Validation.errors := None |})
  /\ (forall kind,
         GtgValidation.validateLog kind log
         = {| Validation.valid := true; Validation.errors := None |}).
Proof.
  intros Hs. apply String.eqb_neq in Hs.
  split; [intros [e|e|e] | intros [| |]]; cbn;
    unfold RirValidation.RepsExercise.validateLog,
      RirValidation.WeightedRepsExercise.validateLog,
      RirValidation.IsometricExercise.validateLog;
    rewrite Hs; reflexivity.
Qed.

Lemma validateLog_incomplete_witness :
  let log := sampleLog 1 "skipped" None None None None in
  (forall exercise,
      RirValidation.validateLog exercise log
      = {| Validation.valid := true; Validation.errors := None |})
  /\ (forall kind,
         GtgValidation.validateLog kind log
         = {| Validation.valid := true; Validation.errors := None |}).
Proof. intros log. apply validateLog_incomplete. discriminate. Defined.

(** For a complete log the effort-driven engine asks for a positive
    metric: reps; reps and load; or duration. *)
Theorem rir_validateLog_complete (log : LogEntry.t) :
  LogEntry.status log = "complete" ->
  (Validation.valid (RirValidation.RepsExercise.validateLog log) = true
   <-> exists r, LogEntry.reps log = Some r /\ 0 < r)
  /\ (Validation.valid (RirValidation.WeightedRepsExercise.validateLog log) = true
      <-> (exists r, LogEntry.reps log = Some r /\ 0 < r)
          /\ (exists w, LogEntry.loadKg log = Some w /\ 0 < w))
  /\ (Validation.valid (RirValidation.IsometricExercise.validateLog log) = true
      <-> exists d, LogEntry.durationSec log = Some d /\ 0 < d).
Proof.
  intros Hs. apply String.eqb_eq in Hs.
  unfold RirValidation.RepsExercise.validateLog,
    RirValidation.WeightedRepsExercise.validateLog,
    RirValidation.IsometricExercise.validateLog.
  rewrite Hs. cbn [andb].
  rewrite <- (falsy_or_nonpositive (LogEntry.reps log)),
    <- (falsy_or_nonpositive (LogEntry.loadKg log)),
    <- (falsy_or_nonpositive (LogEntry.durationSec log)).
  destruct (falsy (LogEntry.reps log) || optLeb (LogEntry.reps log) 0);
    destruct (falsy (LogEntry.loadKg log) || optLeb (LogEntry.loadKg log) 0);
    destruct (falsy (LogEntry.durationSec log) || optLeb (LogEntry.durationSec log) 0);
    cbn; intuition congruence.
Qed.

Lemma rir_validateLog_complete_witness :
  let log := sampleLog 1 "complete" (Some 8) None None None in
  (Validation.valid (RirValidation.RepsExercise.validateLog log) = true
   <-> exists r, LogEntry.reps log = Some r /\ 0 < r)
  /\ (Validation.valid (RirValidation.WeightedRepsExercise.validateLog log) = true
      <-> (exists r, LogEntry.reps log = Some r /\ 0 < r)
          /\ (exists w, LogEntry.loadKg log = Some w /\ 0 < w))
  /\ (Validation.valid (RirValidation.IsometricExercise.validateLog log) = true
      <-> exists d, LogEntry.durationSec log = Some d /\ 0 < d).
Proof. intros log. apply rir_validateLog_complete. reflexivity. Defined.

(** A rejected log always comes with at least one message, an accepted
    one with none: the fallback text of the caller is never needed. *)
Theorem validateLog_errors (log : LogEntry.t) (kind : Gtg.Kind) (exercise : Rir.Exercise) :
  let check (v : Validation.t) :=
    if Validation.valid v
    then Validation.errors v = None
    else exists e es, Validation.errors v = Some (e :: es) in
  check (GtgValidation.validateLog kind log)
  /\ check (RirValidation.validateLog exercise log).
Proof.
  cbv zeta.
  unfold RirValidation.validateLog, GtgValidation.validateLog,
    RirValidation.RepsExercise.validateLog,
    RirValidation.WeightedRepsExercise.validateLog,
    RirValidation.IsometricExercise.validateLog.
  split; [destruct kind | destruct exercise];
    destruct (String.eqb (LogEntry.status log) "complete"); cbn [andb];
    repeat match goal with
           | |- context [falsy ?o || ?x] => destruct (falsy o || x)
           end;
    cbn; try reflexivity; do 2 eexists; reflexivity.
Qed.

(** *** The target that [quickLog] logs always validates *)

Lemma Math_max_ge_l (a b : Q) : a <= Math_max a b.
Proof. unfold Math_max. apply Q.le_max_l. Qed.

(** In [docs/app.js] the log built from the automatic target of a
    rep-based or isometric exercise passes [validateLog]; for a weighted
    exercise it passes exactly when the load of the top set is positive. *)
Theorem gtg_target_validates (this : Gtg.Exercise.t) (logs : list LogEntry.t)
    (ctx : Ctx.t) (now : Q) :
  let log := GtgValidation.quickLogEntry now (Gtg.computeNextTarget this logs ctx) in
  let ok := Validation.valid (GtgValidation.validateLog (Gtg.Exercise.kind this) log) in
  match Gtg.Exercise.kind this with
  | Gtg.Weighted =>
      ok = true
      <-> 0 < orElse (TopSet.loadKg
                        (orElse (Baseline.topSet (Gtg.Exercise.baseline this))
                           {| TopSet.reps := Some 1; TopSet.loadKg := Some 0 |})) 0
  | _ => ok = true
  end.
Proof.
  cbv zeta. unfold Gtg.computeNextTarget.
  destruct (Gtg.getEffectiveIntensity this (Ctx.now ctx)) as [intensityPct deloadActive].
  destruct (Gtg.Exercise.kind this); cbn.
  - set (n := Math_max 1 _).
    assert (Hn : falsy (Some n) || optLtb (Some n) 1 = false).
    { apply falsy_or_below_one. exists n. split; [reflexivity|]. apply Math_max_ge_l. }
    rewrite Hn. reflexivity.
  - set (n := Math_max 1 _).
    assert (Hn : falsy (Some n) || optLtb (Some n) 1 = false).
    { apply falsy_or_below_one. exists n. split; [reflexivity|]. apply Math_max_ge_l. }
    rewrite Hn. set (w := orElse (TopSet.loadKg _) 0).
    destruct (falsy (Some w) || optLeb (Some w) 0) eqn:Hw; cbn.
    + split; [discriminate|]. intros Hpos.
      assert (Hf : falsy (Some w) || optLeb (Some w) 0 = false).
      { apply falsy_or_nonpositive. exists w. split; [reflexivity | exact Hpos]. }
      congruence.
    + split; [|reflexivity]. intros _.
      apply falsy_or_nonpositive in Hw as (w' & [= <-] & Hpos). exact Hpos.
  - set (n := Math_max 5 _).
    assert (Hn : falsy (Some n) || optLeb (Some n) 0 = false).
    { apply falsy_or_nonpositive. exists n. split; [reflexivity|].
      apply Qlt_le_trans with 5; [reflexivity | apply Math_max_ge_l]. }
    rewrite Hn. reflexivity.
Qed.

(** *** Statistics *)

Lemma toISOString_Ok (t : Q) :
  Qabs t <= 8640000000000000 ->
  JsDate.toISOString t = Ok (JsDate.isoOfTimeValue (ToInteger t)).
Proof.
  intros H. unfold JsDate.toISOString, JsDate.TimeClip.
  apply Qleb_true in H. rewrite H. reflexivity.
Qed.

Lemma toISOString_Throw (t : Q) :
  8640000000000000 < Qabs t -> JsDate.toISOString t = Throw JsDate.RangeError.
Proof.
  intros H. unfold JsDate.toISOString, JsDate.TimeClip.
  assert (Hf : Qleb (Qabs t) 8640000000000000 = false).
  { apply not_true_iff_false. rewrite Qleb_true. apply Qlt_not_le, H. }
  rewrite Hf. reflexivity.
Qed.

Lemma collectDays_Ok (logs : list LogEntry.t) (daySet : gset string) :
  (forall log, In log logs -> validTime log) ->
  exists days, collectDays logs daySet = Ok days
               /\ daySet ⊆ days
               /\ (size days <= size daySet + List.length logs)%nat.
Proof.
  revert daySet. induction logs as [|l logs IH]; intros daySet Hall; cbn [collectDays].
  - exists daySet. split; [reflexivity|]. split; [reflexivity|]. cbn. lia.
  - rewrite (toISOString_Ok _ (Hall l (or_introl eq_refl))). cbn [rbind].
    destruct (IH (daySet ∪ {[ String.substring 0 10
                                (JsDate.isoOfTimeValue (ToInteger (LogEntry.timestamp l))) ]})
                (fun log H => Hall log (or_intror H))) as (days & Hd & Hsub & Hsize).
    exists days. split; [exact Hd|]. split; [set_solver|].
    pose proof (size_union_alt daySet
                  {[ String.substring 0 10
                       (JsDate.isoOfTimeValue (ToInteger (LogEntry.timestamp l))) ]}) as Hu.
    assert (Hone : (size ({[ String.substring 0 10
                               (JsDate.isoOfTimeValue (ToInteger (LogEntry.timestamp l))) ]}
                          ∖ daySet : gset string) <= 1)%nat).
    { etransitivity; [apply subseteq_size, subseteq_difference_l; reflexivity|].
      rewrite size_singleton. lia. }
    cbn [List.length]. lia.
Qed.

Lemma collectDays_Throw (logs : list LogEntry.t) (daySet : gset string) :
  (exists log, In log logs /\ ~ validTime log) ->
  collectDays logs daySet = Throw JsDate.RangeError.
Proof.
  revert daySet. induction logs as [|l logs IH]; intros daySet (bad & Hin & Hbad).
  - destruct Hin.
  - cbn [collectDays].
    destruct (Qlt_le_dec 8640000000000000 (Qabs (LogEntry.timestamp l))) as [Hl|Hl].
    + rewrite (toISOString_Throw _ Hl). reflexivity.
    + rewrite (toISOString_Ok _ Hl). cbn [rbind]. apply IH.
      destruct Hin as [<-|Hin]; [contradiction|]. exists bad. split; assumption.
Qed.

Lemma summarizePainFlags_Throw (logs : list LogEntry.t) :
  (exists log, In log logs /\ ~ validTime log) ->
  summarizePainFlags logs = Throw JsDate.RangeError.
Proof.
  intros Hbad. unfold summarizePainFlags. cbv zeta.
  rewrite (collectDays_Throw logs ∅ Hbad). reflexivity.
Qed.

Lemma validTime_cases (logs : list LogEntry.t) :
  (forall log, In log logs -> validTime log)
  \/ exists log, In log logs /\ ~ validTime log.
Proof.
  induction logs as [|l logs IH].
  - left. intros log [].
  - destruct (Qlt_le_dec 8640000000000000 (Qabs (LogEntry.timestamp l))) as [Hl|Hl].
    + right. exists l. split; [left; reflexivity|].
      unfold validTime. apply Qlt_not_le, Hl.
    + destruct IH as [IH|(bad & Hin & Hbad)].
      * left. intros log [<-|Hin]; [exact Hl | apply IH, Hin].
      * right. exists bad. split; [right; exact Hin | exact Hbad].
Qed.

Lemma summarizePainFlags_Ok_valid (logs : list LogEntry.t) (s : PainStats.t) :
  summarizePainFlags logs = Ok s -> forall log, In log logs -> validTime log.
Proof.
  intros Hs. destruct (validTime_cases logs) as [Hall|Hbad]; [exact Hall|].
  rewrite (summarizePainFlags_Throw logs Hbad) in Hs. discriminate.
Qed.


Lemma filter_length_le {A : Type} (p q : A -> bool) (l : list A) :
  (forall x, p x = true -> q x = true) ->
  (List.length (List.filter p l) <= List.length (List.filter q l) <= List.length l)%nat.
Proof.
  intros Hpq. induction l as [|x l IH]; cbn; [lia|].
  destruct (p x) eqn:Hp.
  - rewrite (Hpq x Hp). cbn. lia.
  - destruct (q x); cbn; lia.
Qed.

Lemma Math_round_mono (x y : Q) : x <= y -> Math_round x <= Math_round y.
Proof.
  intros H. unfold Math_round. rewrite <- Zle_Qle. apply Qfloor_resp_le. lra.
Qed.

(** When it returns, the pain summary is consistent: the logs with pain
    of 5 or more are among those with pain of 3 or more, both counts are
    bounded by the size of the history, and the active days are never more
    than if every log fell on a day of its own. *)
Theorem summarizePainFlags_counts (logs : list LogEntry.t) (s : PainStats.t) :
  summarizePainFlags logs = Ok s ->
  0 <= PainStats.deloadCount s
  /\ PainStats.deloadCount s <= PainStats.freezeDays s
  /\ PainStats.freezeDays s <= countOf logs
  /\ PainStats.activeDaysPerWeek s <= Math_round (countOf logs / 4 * 7).
Proof.
  intros Hs.
  assert (Hall : forall log, In log logs -> validTime log).
  { exact (summarizePainFlags_Ok_valid logs s Hs). }
  destruct (collectDays_Ok logs ∅ Hall) as (days & Hd & _ & Hsize).
  revert Hs. unfold summarizePainFlags. cbv zeta. rewrite Hd. cbn [rbind].
  intros [= <-]. cbn [PainStats.deloadCount PainStats.freezeDays PainStats.activeDaysPerWeek].
  pose proof (filter_length_le
                (fun log => Qgeb (orElse (LogEntry.pain0to10 log) 0) 5)
                (fun log => Qgeb (orElse (LogEntry.pain0to10 log) 0) 3) logs) as Hlen.
  destruct Hlen as [H53 H3n].
  { intros log H5. apply Qgeb_true in H5. apply Qgeb_true. lra. }
  unfold countOf. rewrite size_empty in Hsize. repeat split.
  - change 0 with (inject_Z 0). rewrite <- Zle_Qle. lia.
  - rewrite <- Zle_Qle. lia.
  - rewrite <- Zle_Qle. lia.
  - apply Math_round_mono.
    assert (Hq : inject_Z (Z.of_nat (size days)) <= inject_Z (Z.of_nat (List.length logs)))
      by (rewrite <- Zle_Qle; lia).
    assert (H4 : forall x, x / 4 * 7 == x * (7 # 4)) by (intros x; field).
    rewrite !H4. lra.
Qed.

Lemma summarizePainFlags_counts_witness :
  let logs := [sampleLog 1 "complete" (Some 8) None None (Some 7);
               sampleLog 2 "complete" (Some 8) None None (Some 3)] in
  let s := {| PainStats.deloadCount := 1; PainStats.freezeDays := 2;
              PainStats.activeDaysPerWeek := Math_round (2 / 4 * 7) |} in
  0 <= PainStats.deloadCount s
  /\ PainStats.deloadCount s <= PainStats.freezeDays s
  /\ PainStats.freezeDays s <= countOf logs
  /\ PainStats.activeDaysPerWeek s <= Math_round (countOf logs / 4 * 7).
Proof.
  intros logs s. apply (summarizePainFlags_counts logs s). vm_compute. reflexivity.
Defined.

(** *** Logs of one day count as one active day *)

Lemma append_nil (b : string) : String.append "" b = b.
Proof. reflexivity. Qed.

Lemma append_cons (ch : Ascii.ascii) (a b : string) :
  String.append (String ch a) b = String ch (String.append a b).
Proof. reflexivity. Qed.

Lemma string_app_assoc (a b c : string) :
  String.append (String.append a b) c = String.append a (String.append b c).
Proof.
  induction a as [|ch a IH]; [reflexivity|].
  rewrite !append_cons. f_equal. exact IH.
Qed.

Lemma string_length_app (a b : string) :
  String.length (String.append a b) = (String.length a + String.length b)%nat.
Proof.
  induction a as [|ch a IH]; [reflexivity|].
  rewrite append_cons. cbn [String.length]. rewrite IH. reflexivity.
Qed.

Lemma substring_0_app (n : nat) (a b : string) :
  (n <= String.length a)%nat ->
  String.substring 0 n (String.append a b) = String.substring 0 n a.
Proof.
  revert a. induction n as [|n IH]; intros a Hn.
  - destruct a; [destruct b|]; reflexivity.
  - destruct a as [|ch a]; cbn [String.length] in Hn; [lia|].
    rewrite append_cons. cbn [String.substring]. rewrite IH by lia. reflexivity.
Qed.

Lemma length_pad (w : nat) (n : Z) : String.length (JsDate.pad w n) = w.
Proof.
  revert n. induction w as [|w IH]; intros n; cbn [JsDate.pad]; [reflexivity|].
  rewrite string_length_app, IH. cbn [String.length]. lia.
Qed.

Lemma length_yearString (y : Z) : (4 <= String.length (JsDate.yearString y))%nat.
Proof.
  unfold JsDate.yearString. destruct (_ && _).
  - rewrite length_pad. lia.
  - rewrite string_length_app, length_pad. lia.
Qed.

(** The first ten characters of the ISO string are fixed by the day. *)
Lemma dayKey_same_day (tv tv' : Z) :
  (tv / JsDate.msPerDay = tv' / JsDate.msPerDay)%Z ->
  String.substring 0 10 (JsDate.isoOfTimeValue tv)
  = String.substring 0 10 (JsDate.isoOfTimeValue tv').
Proof.
  intros Hday. unfold JsDate.isoOfTimeValue. rewrite Hday.
  destruct (JsDate.civil (tv' / JsDate.msPerDay)) as [[y m] d].
  cbn [String.concat]. rewrite !append_nil, !append_cons, !append_nil.
  set (date := String.append (JsDate.yearString y)
                 (String "-"%char (String.append (JsDate.pad 2 m)
                                (String "-"%char (JsDate.pad 2 d))))).
  assert (Hsplit : forall rest,
             String.append (JsDate.yearString y)
               (String "-"%char (String.append (JsDate.pad 2 m)
                              (String "-"%char (String.append (JsDate.pad 2 d) rest))))
             = String.append date rest).
  { intros rest. subst date.
    rewrite string_app_assoc, append_cons, string_app_assoc, append_cons. reflexivity. }
  assert (Hlen : (10 <= String.length date)%nat).
  { subst date. rewrite string_length_app. cbn [String.length].
    rewrite string_length_app. cbn [String.length]. rewrite !length_pad.
    pose proof (length_yearString y). lia. }
  rewrite !Hsplit, !substring_0_app by exact Hlen. reflexivity.
Qed.

Lemma collectDays_same_day (logs : list LogEntry.t) (daySet : gset string) (k : string) :
  (forall log, In log logs ->
               Qabs (LogEntry.timestamp log) <= 8640000000000000
               /\ String.substring 0 10
                    (JsDate.isoOfTimeValue (ToInteger (LogEntry.timestamp log))) = k) ->
  collectDays logs daySet = Ok (match logs with [] => daySet | _ => daySet ∪ {[ k ]} end).
Proof.
  revert daySet. induction logs as [|l logs IH]; intros daySet Hall; [reflexivity|].
  cbn [collectDays].
  destruct (Hall l (or_introl eq_refl)) as [Hv Hk].
  rewrite (toISOString_Ok _ Hv). cbn [rbind]. rewrite Hk.
  rewrite (IH _ (fun log H => Hall log (or_intror H))).
  destruct logs; [reflexivity|]. f_equal.
  rewrite <- (assoc_L (∪)), (idemp_L (∪)). reflexivity.
Qed.

(** However many sets are logged on one UTC day, they count as one active
    day: the summary then reports [round(1/4 * 7) = 2] active days per
    week. *)
Theorem summarizePainFlags_one_day (logs : list LogEntry.t) (day : Z) :
  logs <> [] ->
  (forall log, In log logs ->
               Qabs (LogEntry.timestamp log) <= 8640000000000000
               /\ (ToInteger (LogEntry.timestamp log) / JsDate.msPerDay)%Z = day) ->
  exists s, summarizePainFlags logs = Ok s /\ PainStats.activeDaysPerWeek s == 2.
Proof.
  intros Hne Hall.
  destruct logs as [|l0 logs]; [contradiction|].
  set (k := String.substring 0 10
              (JsDate.isoOfTimeValue (ToInteger (LogEntry.timestamp l0)))).
  assert (Hk : forall log, In log (l0 :: logs) ->
                 Qabs (LogEntry.timestamp log) <= 8640000000000000
                 /\ String.substring 0 10
                      (JsDate.isoOfTimeValue (ToInteger (LogEntry.timestamp log))) = k).
  { intros log Hin. destruct (Hall log Hin) as [Hv Hd]. split; [exact Hv|].
    subst k. apply dayKey_same_day. rewrite Hd.
    symmetry. apply (Hall l0 (or_introl eq_refl)). }
  unfold summarizePainFlags. cbv zeta.
  rewrite (collectDays_same_day (l0 :: logs) ∅ k Hk). cbn [rbind].
  eexists. split; [reflexivity|].
  cbn [PainStats.activeDaysPerWeek].
  assert (Hsize : size (∅ ∪ {[ k ]} : gset string) = 1%nat).
  { rewrite (left_id_L ∅ (∪)). apply size_singleton. }
  rewrite Hsize. vm_compute. reflexivity.
Qed.

Lemma summarizePainFlags_one_day_witness :
  exists s, summarizePainFlags
              [sampleLog (15 # 10) "complete" (Some 8) None None None;
               sampleLog (12 # 10) "complete" (Some 8) None None None;
               sampleLog (19 # 10) "complete" (Some 7) None None None] = Ok s
            /\ PainStats.activeDaysPerWeek s == 2.
Proof.
  apply (summarizePainFlags_one_day _ 98); [discriminate|].
  intros log [<-|[<-|[<-|[]]]]; split; vm_compute; try reflexivity; discriminate.
Defined.

(** *** [computeStats] *)

Lemma In_defined {A B : Type} (f : A -> option B) (l : list A) (b : B) :
  In b (defined (map f l)) <-> exists a, In a l /\ f a = Some b.
Proof.
  induction l as [|x l IH]; cbn.
  - split; [contradiction | intros (a & [] & _)].
  - destruct (f x) as [y|] eqn:Hfx; cbn; rewrite IH; split.
    + intros [<-|(a & Ha & Hfa)]; [exists x | exists a]; auto.
    + intros (a & [<-|Ha] & Hfa); [left; congruence | right; exists a; auto].
    + intros (a & Ha & Hfa). exists a. auto.
    + intros (a & [<-|Ha] & Hfa); [congruence | exists a; auto].
Qed.

Lemma Math_max_cases (a b : Q) :
  (Math_max a b = a \/ Math_max a b = b) /\ a <= Math_max a b /\ b <= Math_max a b.
Proof.
  split; [|split; [apply Q.le_max_l | apply Q.le_max_r]].
  unfold Math_max, Qmax, GenericMinMax.gmax. destruct (a ?= b); auto.
Qed.

Lemma fold_Math_max (rest : list Q) (a : Q) :
  (fold_left Math_max rest a = a \/ In (fold_left Math_max rest a) rest)
  /\ a <= fold_left Math_max rest a
  /\ forall x, In x rest -> x <= fold_left Math_max rest a.
Proof.
  revert a. induction rest as [|y rest IH]; intros a; cbn [fold_left].
  - split; [left; reflexivity|]. split; [apply Qle_refl | intros x []].
  - destruct (IH (Math_max a y)) as (Hin & Hle & Hall).
    destruct (Math_max_cases a y) as (Hc & Ha & Hy).
    split; [|split].
    + destruct Hin as [Heq|Hin]; [|right; right; exact Hin].
      destruct Hc as [Hc|Hc]; rewrite Heq, Hc; [left; reflexivity | right; left; reflexivity].
    + eapply Qle_trans; eassumption.
    + intros x [<-|Hx]; [eapply Qle_trans; eassumption | apply Hall, Hx].
Qed.

Lemma maxOf_spec (xs : list Q) (m : Q) :
  maxOf xs = Some m -> In m xs /\ forall x, In x xs -> x <= m.
Proof.
  destruct xs as [|a rest]; cbn [maxOf]; [discriminate|]. intros [= <-].
  destruct (fold_Math_max rest a) as (Hin & Hle & Hall). split.
  - destruct Hin as [->|Hin]; [left; reflexivity | right; exact Hin].
  - intros x [<-|Hx]; [exact Hle | apply Hall, Hx].
Qed.

(** The personal records are records: each one is the value of some log
    inside the window, and no log inside the window exceeds it. *)
Theorem computeStats_records (now window : Q) (logs : list LogEntry.t) :
  (forall s m, RepsStats.computeStats now logs window = Ok s ->
               RepsStats.prReps s = Some m ->
               (exists log, In log (inStatsWindow now window logs)
                            /\ LogEntry.reps log = Some m)
               /\ forall log r, In log (inStatsWindow now window logs) ->
                                LogEntry.reps log = Some r -> r <= m)
  /\ (forall s m, WeightedStats.computeStats now logs window = Ok s ->
                  WeightedStats.prLoadKg s = Some m ->
                  (exists log, In log (inStatsWindow now window logs)
                               /\ LogEntry.loadKg log = Some m)
                  /\ forall log w, In log (inStatsWindow now window logs) ->
                                   LogEntry.loadKg log = Some w -> w <= m)
  /\ (forall s m, IsometricStats.computeStats now logs window = Ok s ->
                  IsometricStats.prDurationSec s = Some m ->
                  (exists log, In log (inStatsWindow now window logs)
                               /\ LogEntry.durationSec log = Some m)
                  /\ forall log d, In log (inStatsWindow now window logs) ->
                                   LogEntry.durationSec log = Some d -> d <= m).
Proof.
  split; [|split]; intros s m;
    unfold RepsStats.computeStats, WeightedStats.computeStats, IsometricStats.computeStats;
    cbv zeta; destruct (summarizePainFlags logs) as [ps|e]; cbn [rbind];
    try discriminate; intros [= <-]; cbn; intros Hmax;
    apply maxOf_spec in Hmax as [Hin Hall];
    (split; [apply In_defined, Hin |
             intros log v Hlog Hv; apply Hall, In_defined; exists log; auto]).
Qed.

Lemma computeStats_records_witness :
  let logs := [sampleLog 1 "complete" (Some 8) None (Some 3) None;
               sampleLog 2 "complete" (Some 12) None (Some 2) (Some 1)] in
  exists log, In log (inStatsWindow (Ctx.now sampleCtx) 30 logs)
              /\ LogEntry.reps log = Some 12.
Proof.
  intros logs.
  destruct (computeStats_records (Ctx.now sampleCtx) 30 logs) as [Hreps _].
  refine (proj1 (Hreps _ 12 _ _)).
  - vm_compute. reflexivity.
  - reflexivity.
Defined.

(** The pain summary is taken over the whole history, so one log with an
    invalid timestamp makes all three [computeStats] throw, for every window
    and also when that log lies outside the window. *)
Theorem computeStats_throws (now window : Q) (logs : list LogEntry.t) :
  (exists log, In log logs /\ 8640000000000000 < Qabs (LogEntry.timestamp log)) ->
  RepsStats.computeStats now logs window = Throw JsDate.RangeError
  /\ WeightedStats.computeStats now logs window = Throw JsDate.RangeError
  /\ IsometricStats.computeStats now logs window = Throw JsDate.RangeError.
Proof.
  intros (bad & Hin & Hbad).
  assert (Ht : summarizePainFlags logs = Throw JsDate.RangeError).
  { apply summarizePainFlags_Throw. exists bad. split; [exact Hin|].
    unfold validTime. apply Qlt_not_le, Hbad. }
  unfold RepsStats.computeStats, WeightedStats.computeStats, IsometricStats.computeStats.
  cbv zeta. rewrite Ht. repeat split.
Qed.

Lemma computeStats_throws_witness :
  let logs := [sampleLog 1 "complete" (Some 8) None None None;
               {| LogEntry.timestamp := - 9000000000000000; LogEntry.status := "complete";
                  LogEntry.reps := Some 5; LogEntry.loadKg := None;
                  LogEntry.durationSec := None; LogEntry.rir := None;
                  LogEntry.pain0to10 := None |}] in
  RepsStats.computeStats (Ctx.now sampleCtx) logs 30 = Throw JsDate.RangeError
  /\ WeightedStats.computeStats (Ctx.now sampleCtx) logs 30 = Throw JsDate.RangeError
  /\ IsometricStats.computeStats (Ctx.now sampleCtx) logs 30 = Throw JsDate.RangeError.
Proof.
  intros logs. apply computeStats_throws.
  eexists. split; [right; left; reflexivity|]. reflexivity.
Defined.

(** With no log inside the window every windowed statistic is absent,
    while the volumes are still those of the whole history. *)
Theorem computeStats_empty_window (now window : Q) (logs : list LogEntry.t) :
  (forall log, In log logs -> Qabs (LogEntry.timestamp log) <= 8640000000000000) ->
  inStatsWindow now window logs = [] ->
  (exists s, RepsStats.computeStats now logs window = Ok s
             /\ RepsStats.prReps s = None /\ RepsStats.avgRir s = None
             /\ RepsStats.medianRir s = None /\ RepsStats.avgPain s = None
             /\ RepsStats.volumeThisWeek s
                = WeeklyVolume.volumeThisWeek
                    (getWeeklyVolume logs now Rir.RepsExercise.volumeFn))
  /\ (exists s, WeightedStats.computeStats now logs window = Ok s
                /\ WeightedStats.prReps s = None /\ WeightedStats.prLoadKg s = None
                /\ WeightedStats.bestEstimated1RM s = None
                /\ WeightedStats.avgRir s = None /\ WeightedStats.medianRir s = None
                /\ WeightedStats.avgPain s = None
                /\ WeightedStats.volumeThisWeek s
                   = WeeklyVolume.volumeThisWeek
                       (getWeeklyVolume logs now Rir.WeightedRepsExercise.volumeFn))
  /\ (exists s, IsometricStats.computeStats now logs window = Ok s
                /\ IsometricStats.prDurationSec s = None
                /\ IsometricStats.avgRir s = None /\ IsometricStats.medianRir s = None
                /\ IsometricStats.avgPain s = None
                /\ IsometricStats.volumeThisWeek s
                   = WeeklyVolume.volumeThisWeek
                       (getWeeklyVolume logs now Rir.IsometricExercise.volumeFn)).
Proof.
  intros Hall Hempty.
  destruct (collectDays_Ok logs ∅ Hall) as (days & Hd & _).
  assert (Hok : exists ps, summarizePainFlags logs = Ok ps).
  { unfold summarizePainFlags. cbv zeta. rewrite Hd. cbn [rbind]. eexists. reflexivity. }
  destruct Hok as [ps Hps].
  unfold RepsStats.computeStats, WeightedStats.computeStats, IsometricStats.computeStats.
  cbv zeta. rewrite Hps, Hempty. cbn [rbind].
  repeat split; eexists; (split; [reflexivity|]); cbn; repeat split.
Qed.

Lemma computeStats_empty_window_witness :
  let logs := [sampleLog 40 "complete" (Some 8) (Some 50) (Some 4) (Some 1)] in
  exists s, WeightedStats.computeStats (Ctx.now sampleCtx) logs 30 = Ok s
            /\ WeightedStats.prReps s = None /\ WeightedStats.prLoadKg s = None
            /\ WeightedStats.bestEstimated1RM s = None
            /\ WeightedStats.avgRir s = None /\ WeightedStats.medianRir s = None
            /\ WeightedStats.avgPain s = None
            /\ WeightedStats.volumeThisWeek s
               = WeeklyVolume.volumeThisWeek
                   (getWeeklyVolume logs (Ctx.now sampleCtx)
                      Rir.WeightedRepsExercise.volumeFn).
Proof.
  intros logs.
  apply (computeStats_empty_window (Ctx.now sampleCtx) 30 logs).
  - intros log [<-|[]]. vm_compute. discriminate.
  - reflexivity.
Defined.

(** *** The engine of [docs/app.js] *)

Lemma clamp_idempotent (v : Q) :
  clamp (clamp v Gtg.INTENSITY_MIN Gtg.INTENSITY_MAX) Gtg.INTENSITY_MIN Gtg.INTENSITY_MAX
  = clamp v Gtg.INTENSITY_MIN Gtg.INTENSITY_MAX.
Proof.
  unfold clamp, Math_min, Math_max, Qmin, Qmax, GenericMinMax.gmin, GenericMinMax.gmax.
  destruct (v ?= Gtg.INTENSITY_MIN) eqn:H1; destruct (v ?= Gtg.INTENSITY_MAX) eqn:H2;
    rewrite ?H1, ?H2; reflexivity.
Qed.

Lemma normalizeIntensity_bounds (value : option Q) :
  Gtg.INTENSITY_MIN <= Gtg.normalizeIntensity value <= Gtg.INTENSITY_MAX.
Proof.
  destruct value as [v|]; cbn [Gtg.normalizeIntensity].
  - apply clamp_bounds. discriminate.
  - split; discriminate.
Qed.

Lemma normalize_twice (record : ExerciseRecord.t) :
  Gtg.normalizeExerciseRecord (Gtg.normalizeExerciseRecord record)
  = Gtg.normalizeExerciseRecord record.
Proof.
  destruct record as [type profile repRange repInc floor loadInc durRange timeInc baseline du].
  unfold Gtg.normalizeExerciseRecord.
  cbn [ExerciseRecord.type ExerciseRecord.progressionProfile ExerciseRecord.repRange
       ExerciseRecord.repIncrement ExerciseRecord.minRepsFloor
       ExerciseRecord.loadIncrementKg ExerciseRecord.durationRangeSec
       ExerciseRecord.timeIncrementSec ExerciseRecord.baseline
       ExerciseRecord.deloadUntil orElse].
  destruct (String.eqb type "reps"); [|destruct (String.eqb type "weighted")];
    cbn [Baseline.maxCleanReps Baseline.topSet Baseline.maxCleanHoldSec
         Baseline.intensityPct orElse Gtg.normalizeIntensity];
    rewrite clamp_idempotent; reflexivity.
Qed.

(** [normalizeExerciseRecord] is idempotent: a record that went through it
    comes back unchanged, and hydrating it gives the same exercise, so the
    engine may normalise as often as it likes. *)
Theorem gtg_normalize_idempotent (record : ExerciseRecord.t) :
  Gtg.normalizeExerciseRecord (Gtg.normalizeExerciseRecord record)
  = Gtg.normalizeExerciseRecord record
  /\ Gtg.hydrateExercise (Gtg.normalizeExerciseRecord record)
     = Gtg.hydrateExercise record.
Proof.
  split; [apply normalize_twice|].
  unfold Gtg.hydrateExercise. cbv zeta. rewrite normalize_twice. reflexivity.
Qed.

(** Whatever the record holds, the intensity the engine works with lies
    between 30 % and 70 %, and it is the 30 % floor while a deload runs. *)
Theorem gtg_intensity_bounds (exercise : Gtg.Exercise.t) (now : Q) :
  let '(intensityPct, deloadActive) := Gtg.getEffectiveIntensity exercise now in
  3 # 10 <= intensityPct <= 7 # 10
  /\ (deloadActive = true -> intensityPct = 3 # 10).
Proof.
  unfold Gtg.getEffectiveIntensity. cbv zeta.
  destruct (if Gtg.truthy _ then _ else false).
  - split; [split; discriminate | reflexivity].
  - split; [|discriminate]. apply (normalizeIntensity_bounds (Some _)).
Qed.

Lemma Math_round_scaled (m i : Q) : 1 <= m -> 0 <= i -> i <= 7 # 10 ->
  Math_max 1 (Math_round (m * i)) <= m.
Proof.
  intros Hm Hi0 Hi.
  unfold Math_max. apply Q.max_lub; [exact Hm|].
  unfold Math_round.
  assert (Hmi : m * i <= m * (7 # 10)).
  { rewrite (Qmult_comm m i), (Qmult_comm m (7 # 10)).
    apply Qmult_le_compat_r; lra. }
  destruct (Qlt_le_dec m (5 # 3)) as [Hsmall|Hbig].
  - apply Qle_trans with 1; [|exact Hm].
    assert (Hlt : m * i + (1 # 2) < 2) by lra.
    assert (Hz : (Qfloor (m * i + (1 # 2)) < 2)%Z).
    { rewrite Zlt_Qlt. eapply Qle_lt_trans; [apply Qfloor_le | exact Hlt]. }
    change 1 with (inject_Z 1). rewrite <- Zle_Qle. lia.
  - apply Qle_trans with (m * i + (1 # 2)); [apply Qfloor_le | lra].
Qed.

(** A target of the engine never asks for more than the clean maximum it
    is derived from, and never for less than one rep: with a baseline of at
    least one rep (five seconds for a hold) the target lies between that
    floor and the baseline; the load of a weighted target is the load of the
    top set. *)
Theorem gtg_target_within_baseline (this : Gtg.Exercise.t) (logs : list LogEntry.t)
    (ctx : Ctx.t) (m : Q) :
  match Gtg.Exercise.kind this with
  | Gtg.Reps => Baseline.maxCleanReps (Gtg.Exercise.baseline this) = Some m /\ 1 <= m
  | Gtg.Weighted =>
      exists w, Baseline.topSet (Gtg.Exercise.baseline this)
                = Some {| TopSet.reps := Some m; TopSet.loadKg := Some w |} /\ 1 <= m
  | Gtg.Isometric =>
      Baseline.maxCleanHoldSec (Gtg.Exercise.baseline this) = Some m /\ 5 <= m
  end ->
  let t := Gtg.computeNextTarget this logs ctx in
  match Gtg.Exercise.kind this with
  | Gtg.Reps => exists r, Gtg.NextTarget.reps t = Some r /\ 1 <= r <= m
  | Gtg.Weighted =>
      (exists r, Gtg.NextTarget.reps t = Some r /\ 1 <= r <= m)
      /\ Gtg.NextTarget.loadKg t
         = TopSet.loadKg (orElse (Baseline.topSet (Gtg.Exercise.baseline this))
                            {| TopSet.reps := None; TopSet.loadKg := None |})
  | Gtg.Isometric => exists d, Gtg.NextTarget.durationSec t = Some d /\ 5 <= d <= m
  end.
Proof.
  intros Hbase. cbv zeta. unfold Gtg.computeNextTarget.
  pose proof (gtg_intensity_bounds this (Ctx.now ctx)) as Hi.
  destruct (Gtg.getEffectiveIntensity this (Ctx.now ctx)) as [i d].
  destruct Hi as [[Hlo Hhi] _].
  destruct (Gtg.Exercise.kind this).
  - destruct Hbase as [-> Hm]. cbn.
    eexists. split; [reflexivity|]. split; [apply Math_max_ge_l|].
    apply Math_round_scaled; [exact Hm | lra | exact Hhi].
  - destruct Hbase as (w & -> & Hm). cbn. split; [|reflexivity].
    eexists. split; [reflexivity|]. split; [apply Math_max_ge_l|].
    apply Math_round_scaled; [exact Hm | lra | exact Hhi].
  - destruct Hbase as [-> Hm]. cbn.
    eexists. split; [reflexivity|]. split; [apply Math_max_ge_l|].
    unfold Math_max. apply Q.max_lub; [exact Hm|].
    unfold Math_round.
    assert (Hmi : m * i <= m * (7 # 10)).
    { rewrite (Qmult_comm m i), (Qmult_comm m (7 # 10)).
    apply Qmult_le_compat_r; lra. }
    apply Qle_trans with (m * i + (1 # 2)); [apply Qfloor_le | lra].
Qed.

Lemma gtg_target_within_baseline_witness :
  exists r,
    Gtg.NextTarget.reps
      (Gtg.computeNextTarget (Gtg.hydrateExercise (bareRecord "reps")) [] sampleCtx)
    = Some r /\ 1 <= r <= 10.
Proof.
  apply (gtg_target_within_baseline (Gtg.hydrateExercise (bareRecord "reps")) []
           sampleCtx 10).
  split; [reflexivity | discriminate].
Defined.

(** *** [adjustExerciseIntensity] *)

Lemma findIndex_Some {A : Type} (p : A -> bool) (l : list A) (i : nat) :
  GtgAdjust.findIndex p l = Some i ->
  exists x, l !! i = Some x /\ p x = true
            /\ forall j y, (j < i)%nat -> l !! j = Some y -> p y = false.
Proof.
  revert i. induction l as [|a l IH]; intros i; cbn [GtgAdjust.findIndex]; [discriminate|].
  destruct (p a) eqn:Hpa.
  - intros [= <-]. exists a. repeat split; [exact Hpa|]. intros j y Hj. lia.
  - destruct (GtgAdjust.findIndex p l) as [k|] eqn:Hk; cbn; [|discriminate].
    intros [= <-]. destruct (IH k eq_refl) as (x & Hx & Hpx & Hbefore).
    exists x. repeat split; [exact Hx | exact Hpx |].
    intros [|j] y Hj; cbn.
    + intros [= <-]. exact Hpa.
    + apply Hbefore. lia.
Qed.

Lemma lookup_In {A : Type} (l : list A) (i : nat) (x : A) : l !! i = Some x -> In x l.
Proof.
  revert i. induction l as [|a l IH]; intros [|i]; cbn; try discriminate.
  - intros [= <-]. left. reflexivity.
  - intros H. right. exact (IH i H).
Qed.

(** Whatever the logs say, the intensity that [adjustExerciseIntensity]
    settles on stays between the floor of 30 % and the ceiling of 70 %. *)
Theorem adjust_intensity_bounds (exercise : ExerciseRecord.t) (logs : list LogEntry.t)
    (now : Q) :
  Gtg.INTENSITY_MIN <= fst (GtgAdjust.decide exercise logs now) <= Gtg.INTENSITY_MAX.
Proof.
  unfold GtgAdjust.decide. cbv zeta.
  pose proof (normalizeIntensity_bounds
                (Baseline.intensityPct
                   (orElse (ExerciseRecord.baseline exercise) Baseline.empty))) as [Hlo Hhi].
  assert (Hwf : Gtg.INTENSITY_MIN <= Gtg.INTENSITY_MAX) by discriminate.
  repeat match goal with
         | |- context [if ?c then _ else _] => destruct c
         end; cbn [fst]; unfold Math_max, Math_min.
  - split; [apply Qle_refl | exact Hwf].
  - split; [apply Q.le_max_l|]. apply Q.max_lub; [exact Hwf|]. lra.
  - split; [|apply Q.le_min_l]. apply Q.min_glb; [exact Hwf|]. lra.
  - split; assumption.
  - split; assumption.
  - split; assumption.
Qed.

Lemma normalizedInPlace_deloadUntil (record : ExerciseRecord.t) :
  ExerciseRecord.deloadUntil (GtgAdjust.normalizedInPlace record)
  = ExerciseRecord.deloadUntil record.
Proof.
  unfold GtgAdjust.normalizedInPlace.
  destruct (ExerciseRecord.baseline record); reflexivity.
Qed.

Lemma differs_false (a b : option Q) :
  GtgAdjust.differs a b = false ->
  (a = None /\ b = None) \/ exists x y, a = Some x /\ b = Some y /\ x == y.
Proof.
  destruct a as [x|], b as [y|]; cbn; try discriminate.
  - intros H. right. exists x, y. repeat split.
    apply Qeqb_true. destruct (Qeqb x y); [reflexivity | discriminate].
  - intros _. left. split; reflexivity.
Qed.

(** While the stored end of a deload lies ahead, every target of the
    exercise is a deload target. *)
Lemma gtg_deload_active (record : ExerciseRecord.t) (logs : list LogEntry.t)
    (ctx : Ctx.t) (d : Q) :
  ExerciseRecord.deloadUntil record = Some d -> ~ d == 0 -> Ctx.now ctx < d ->
  let t := Gtg.computeNextTarget (Gtg.hydrateExercise record) logs ctx in
  Gtg.NextTarget.deload t = true
  /\ Gtg.NextTarget.explanation t = ["Deload active: easy sets for recovery."].
Proof.
  intros Hd Hnz Hlt. cbv zeta.
  assert (Heff : Gtg.getEffectiveIntensity (Gtg.hydrateExercise record) (Ctx.now ctx)
                 = (Gtg.INTENSITY_MIN, true)).
  { unfold Gtg.getEffectiveIntensity, Gtg.hydrateExercise. cbv zeta.
    cbn [Gtg.Exercise.deloadUntil Gtg.Exercise.baseline].
    replace (ExerciseRecord.deloadUntil (Gtg.normalizeExerciseRecord record))
      with (Some d) by (rewrite <- Hd; reflexivity).
    cbn [Gtg.truthy orElse].
    replace (Qeqb d 0) with false.
    2:{ symmetry. destruct (Qeqb d 0) eqn:E; [|reflexivity].
        apply Qeqb_true in E. contradiction. }
    cbn [negb].
    replace (Qltb (Ctx.now ctx) d) with true by (symmetry; apply Qltb_true; exact Hlt).
    reflexivity. }
  unfold Gtg.computeNextTarget. rewrite Heff.
  destruct (Gtg.Exercise.kind (Gtg.hydrateExercise record)); split; reflexivity.
Qed.

Lemma decide_pain (exercise : ExerciseRecord.t) (logs : list LogEntry.t) (now : Q) :
  (exists log p, In log logs /\ LogEntry.pain0to10 log = Some p /\ 5 <= p) ->
  GtgAdjust.decide exercise logs now
  = (Gtg.INTENSITY_MIN, Some (now + GtgAdjust.DELOAD_DAYS * DAY_MS)).
Proof.
  intros (log & p & Hin & Hp & H5).
  unfold GtgAdjust.decide. cbv zeta.
  replace (existsb (fun value => Qgeb value 5) (defined (map LogEntry.pain0to10 logs)))
    with true; [reflexivity|].
  symmetry. apply existsb_exists. exists p. split.
  - apply In_defined. exists log. split; assumption.
  - apply Qgeb_true. exact H5.
Qed.

(** A set logged with a pain of five or more among the last three complete
    sets of an exercise puts that exercise into a deload: for the seven days
    that follow, every target computed from the stored record is a deload
    target. *)
Theorem adjust_pain_starts_deload (exercises : list StoredExercise.t)
    (logs : list StoredLog.t) (exerciseId : string) (now : Q) (i : nat) :
  GtgAdjust.findIndex (fun item => String.eqb (StoredExercise.id item) exerciseId) exercises
  = Some i ->
  (exists log p, In log (GtgAdjust.lastThree logs exerciseId)
                 /\ LogEntry.pain0to10 log = Some p /\ 5 <= p) ->
  0 <= now ->
  exists stored,
    GtgAdjust.Outcome.exercises
      (GtgAdjust.adjustExerciseIntensity exercises logs exerciseId now) !! i = Some stored
    /\ StoredExercise.id stored = exerciseId
    /\ forall (later : list LogEntry.t) (ctx : Ctx.t),
         Ctx.now ctx < now + 7 * DAY_MS ->
         let t := Gtg.computeNextTarget
                    (Gtg.hydrateExercise (StoredExercise.record stored)) later ctx in
         Gtg.NextTarget.deload t = true
         /\ Gtg.NextTarget.explanation t = ["Deload active: easy sets for recovery."].
Proof.
  intros Hidx Hpain Hnow.
  destruct (findIndex_Some _ _ _ Hidx) as (old & Hlook & Hid & _).
  apply String.eqb_eq in Hid.
  assert (Hlen : (i < List.length exercises)%nat).
  { apply lookup_lt_is_Some. eexists. exact Hlook. }
  assert (Hday : 0 < DAY_MS) by reflexivity.
  unfold GtgAdjust.adjustExerciseIntensity. rewrite Hidx, Hlook. cbv zeta.
  destruct (GtgAdjust.lastThree logs exerciseId) as [|l0 recent] eqn:Hrecent.
  { destruct Hpain as (log & _ & [] & _). }
  rewrite (decide_pain _ _ _ Hpain).
  set (exercise := Gtg.normalizeExerciseRecord (StoredExercise.record old)).
  destruct (GtgAdjust.differs (Some Gtg.INTENSITY_MIN) _
            || GtgAdjust.differs (Some (now + GtgAdjust.DELOAD_DAYS * DAY_MS)) _) eqn:Hdiff;
    cbn [GtgAdjust.Outcome.exercises].
  - eexists. split; [apply list_lookup_insert_eq; rewrite length_insert; exact Hlen|].
    split; [exact Hid|]. intros later ctx Hlater.
    apply (gtg_deload_active _ later ctx (now + GtgAdjust.DELOAD_DAYS * DAY_MS)).
    + reflexivity.
    + unfold GtgAdjust.DELOAD_DAYS. intros Hz. lra.
    + unfold GtgAdjust.DELOAD_DAYS. exact Hlater.
  - apply orb_false_iff in Hdiff as [_ Hdu].
    apply differs_false in Hdu as [[Hcontra _]|(x & d & [= <-] & Hd & Heq)];
      [discriminate|].
    eexists. split; [apply list_lookup_insert_eq; exact Hlen|].
    split; [exact Hid|]. intros later ctx Hlater.
    unfold GtgAdjust.DELOAD_DAYS in Heq.
    apply (gtg_deload_active _ later ctx d).
    + cbn [StoredExercise.record]. rewrite normalizedInPlace_deloadUntil. exact Hd.
    + intros Hz. lra.
    + lra.
Qed.

Lemma adjust_pain_starts_deload_witness :
  exists stored,
    GtgAdjust.Outcome.exercises
      (GtgAdjust.adjustExerciseIntensity sampleStored samplePainfulLogs "pushups"
         (Ctx.now sampleCtx)) !! 0%nat = Some stored
    /\ StoredExercise.id stored = "pushups"
    /\ forall (later : list LogEntry.t) (ctx : Ctx.t),
         Ctx.now ctx < Ctx.now sampleCtx + 7 * DAY_MS ->
         let t := Gtg.computeNextTarget
                    (Gtg.hydrateExercise (StoredExercise.record stored)) later ctx in
         Gtg.NextTarget.deload t = true
         /\ Gtg.NextTarget.explanation t = ["Deload active: easy sets for recovery."].
Proof.
  apply (adjust_pain_starts_deload sampleStored samplePainfulLogs "pushups"
           (Ctx.now sampleCtx) 0).
  - reflexivity.
  - exists (sampleLog 1 "complete" (Some 5) None (Some 3) (Some 6)), 6.
    split; [vm_compute; left; reflexivity|]. split; [reflexivity | discriminate].
  - discriminate.
Defined.

(** Adjusting one exercise leaves every other stored exercise as it was,
    at the place where it was. *)
Theorem adjust_others_untouched (exercises : list StoredExercise.t)
    (logs : list StoredLog.t) (exerciseId : string) (now : Q) (j : nat)
    (other : StoredExercise.t) :
  exercises !! j = Some other ->
  StoredExercise.id other <> exerciseId ->
  let out := GtgAdjust.adjustExerciseIntensity exercises logs exerciseId now in
  GtgAdjust.Outcome.exercises out !! j = Some other
  /\ List.length (GtgAdjust.Outcome.exercises out) = List.length exercises
  /\ GtgAdjust.Outcome.put out <> Some other.
Proof.
  intros Hother Hid. cbv zeta. unfold GtgAdjust.adjustExerciseIntensity.
  destruct (GtgAdjust.findIndex _ exercises) as [i|] eqn:Hidx;
    [|repeat split; [exact Hother | discriminate]].
  destruct (findIndex_Some _ _ _ Hidx) as (old & Hlook & Hold & _).
  apply String.eqb_eq in Hold.
  assert (Hij : i <> j).
  { intros ->. rewrite Hlook in Hother. injection Hother as ->. contradiction. }
  rewrite Hlook. cbv zeta.
  destruct (GtgAdjust.lastThree logs exerciseId) as [|l0 recent].
  { cbn [GtgAdjust.Outcome.exercises GtgAdjust.Outcome.put].
    rewrite list_lookup_insert_ne, length_insert by exact Hij.
    repeat split; [exact Hother | discriminate]. }
  destruct (GtgAdjust.decide _ _ now) as [nextIntensity nextDeloadUntil].
  destruct (GtgAdjust.differs _ _ || GtgAdjust.differs _ _);
    cbn [GtgAdjust.Outcome.exercises GtgAdjust.Outcome.put];
    rewrite ?list_lookup_insert_ne, ?length_insert by exact Hij;
    repeat split; try exact Hother; try discriminate.
  intros [= <-]. apply Hid. exact Hold.
Qed.

Lemma adjust_others_untouched_witness :
  let out := GtgAdjust.adjustExerciseIntensity sampleStored samplePainfulLogs "pushups"
               (Ctx.now sampleCtx) in
  let plank := {| StoredExercise.id := "plank";
                  StoredExercise.record := bareRecord "isometric" |} in
  GtgAdjust.Outcome.exercises out !! 1%nat = Some plank
  /\ List.length (GtgAdjust.Outcome.exercises out) = List.length sampleStored
  /\ GtgAdjust.Outcome.put out <> Some plank.
Proof.
  intros out plank.
  apply (adjust_others_untouched sampleStored samplePainfulLogs "pushups"
           (Ctx.now sampleCtx) 1 plank).
  - reflexivity.
  - discriminate.
Defined.

Lemma hydrate_normalizedInPlace (record : ExerciseRecord.t) :
  Gtg.hydrateExercise (GtgAdjust.normalizedInPlace record) = Gtg.hydrateExercise record.
Proof.
  unfold GtgAdjust.normalizedInPlace.
  destruct (ExerciseRecord.baseline record) eqn:Hb; [|reflexivity].
  change (Gtg.hydrateExercise (Gtg.normalizeExerciseRecord record)
          = Gtg.hydrateExercise record).
  unfold Gtg.hydrateExercise. cbv zeta. rewrite normalize_twice. reflexivity.
Qed.

(** Without a complete log of the exercise, or for an identifier that no
    stored exercise carries, nothing is written to the database and every
    stored exercise still hydrates to the exercise it was. *)
Theorem adjust_nothing_to_learn (exercises : list StoredExercise.t)
    (logs : list StoredLog.t) (exerciseId : string) (now : Q) :
  (forall log, In log logs -> StoredLog.exerciseId log = exerciseId ->
               LogEntry.status (StoredLog.entry log) <> "complete")
  \/ (forall item, In item exercises -> StoredExercise.id item <> exerciseId) ->
  let out := GtgAdjust.adjustExerciseIntensity exercises logs exerciseId now in
  GtgAdjust.Outcome.put out = None
  /\ map StoredExercise.id (GtgAdjust.Outcome.exercises out)
     = map StoredExercise.id exercises
  /\ map (fun item => Gtg.hydrateExercise (StoredExercise.record item))
       (GtgAdjust.Outcome.exercises out)
     = map (fun item => Gtg.hydrateExercise (StoredExercise.record item)) exercises.
Proof.
  intros Hnone. cbv zeta. unfold GtgAdjust.adjustExerciseIntensity.
  destruct (GtgAdjust.findIndex _ exercises) as [i|] eqn:Hidx;
    [|repeat split].
  destruct (findIndex_Some _ _ _ Hidx) as (old & Hlook & Hold & _).
  apply String.eqb_eq in Hold.
  destruct Hnone as [Hlogs|Hitems].
  2:{ exfalso. apply (Hitems old); [|exact Hold].
      eapply lookup_In. exact Hlook. }
  rewrite Hlook. cbv zeta.
  assert (Hrecent : GtgAdjust.lastThree logs exerciseId = []).
  { unfold GtgAdjust.lastThree.
    replace (List.filter _ logs) with (@nil StoredLog.t); [reflexivity|].
    symmetry. clear -Hlogs. induction logs as [|log logs IH]; [reflexivity|].
    cbn [List.filter].
    destruct (String.eqb_spec (StoredLog.exerciseId log) exerciseId) as [He|He];
      cbn [andb].
    - destruct (String.eqb_spec (LogEntry.status (StoredLog.entry log)) "complete")
        as [Hs|Hs].
      + exfalso. apply (Hlogs log); [left; reflexivity | exact He | exact Hs].
      + apply IH. intros l Hl. apply Hlogs. right. exact Hl.
    - apply IH. intros l Hl. apply Hlogs. right. exact Hl. }
  rewrite Hrecent. cbn [GtgAdjust.Outcome.exercises GtgAdjust.Outcome.put].
  split; [reflexivity|].
  split.
  - apply list_eq. intros k. rewrite !list_lookup_fmap.
    destruct (decide (i = k)) as [<-|Hik].
    + rewrite list_lookup_insert_eq, Hlook; [reflexivity|].
      apply lookup_lt_is_Some. eexists. exact Hlook.
    + rewrite list_lookup_insert_ne by exact Hik. reflexivity.
  - apply list_eq. intros k. rewrite !list_lookup_fmap.
    destruct (decide (i = k)) as [<-|Hik].
    + rewrite list_lookup_insert_eq, Hlook;
        [|apply lookup_lt_is_Some; eexists; exact Hlook].
      cbn. rewrite hydrate_normalizedInPlace. reflexivity.
    + rewrite list_lookup_insert_ne by exact Hik. reflexivity.
Qed.

Lemma adjust_nothing_to_learn_witness :
  let out := GtgAdjust.adjustExerciseIntensity sampleStored samplePainfulLogs "plank"
               (Ctx.now sampleCtx) in
  GtgAdjust.Outcome.put out = None
  /\ map StoredExercise.id (GtgAdjust.Outcome.exercises out)
     = map StoredExercise.id sampleStored
  /\ map (fun item => Gtg.hydrateExercise (StoredExercise.record item))
       (GtgAdjust.Outcome.exercises out)
     = map (fun item => Gtg.hydrateExercise (StoredExercise.record item)) sampleStored.
Proof.
  intros out.
  apply (adjust_nothing_to_learn sampleStored samplePainfulLogs "plank"
           (Ctx.now sampleCtx)).
  left. intros log [<-|[<-|[]]]; discriminate.
Defined.

(** The intensity goes up only on solid evidence: at least three logs,
    each with a recorded effort of five or more reps in reserve and a
    recorded pain of two or less. *)
Theorem adjust_raises_only_when_easy (exercise : ExerciseRecord.t)
    (logs : list LogEntry.t) (now : Q) :
  let current :=
    Gtg.normalizeIntensity
      (Baseline.intensityPct (orElse (ExerciseRecord.baseline exercise) Baseline.empty)) in
  current < fst (GtgAdjust.decide exercise logs now) ->
  (3 <= List.length logs)%nat
  /\ Forall (fun log => exists r p, LogEntry.rir log = Some r
                                    /\ LogEntry.pain0to10 log = Some p
                                    /\ 5 <= r /\ p <= 2) logs.
Proof.
  cbv zeta.
  pose proof (normalizeIntensity_bounds
                (Baseline.intensityPct
                   (orElse (ExerciseRecord.baseline exercise) Baseline.empty))) as [Hlo Hhi].
  unfold GtgAdjust.decide. cbv zeta.
  set (current := Gtg.normalizeIntensity _) in *.
  destruct (existsb (fun value => Qgeb value 5) _); cbn [fst]; [lra|].
  destruct (negb _); cbn [fst]; [|lra].
  destruct (existsb (fun value => Qgeb value 3) _ || existsb _ logs); cbn [fst].
  { intros Hlt. exfalso. apply Qlt_not_le in Hlt. apply Hlt.
    unfold Math_max. apply Q.max_lub; lra. }
  destruct (3 <=? List.length logs)%nat eqn:Hlen; cbn [fst]; [|lra].
  destruct (negb (existsb _ logs) && forallb _ logs) eqn:Heasy; cbn [andb fst]; [|lra].
  destruct (negb (Nat.eqb _ 0) && negb (Nat.eqb _ 0)); cbn [fst]; [|lra].
  intros _. split; [apply Nat.leb_le, Hlen|].
  apply andb_true_iff in Heasy as [_ Hall].
  apply Forall_forall. intros log Hin.
  rewrite forallb_forall in Hall. specialize (Hall log Hin).
  destruct (LogEntry.rir log) as [r|]; [|discriminate].
  destruct (LogEntry.pain0to10 log) as [p|]; [|discriminate].
  apply andb_true_iff in Hall as [Hr Hp].
  exists r, p. repeat split; [apply Qgeb_true, Hr | apply Qleb_true, Hp].
Qed.

Lemma adjust_raises_only_when_easy_witness :
  (3 <= List.length sampleEasyLogs)%nat
  /\ Forall (fun log => exists r p, LogEntry.rir log = Some r
                                    /\ LogEntry.pain0to10 log = Some p
                                    /\ 5 <= r /\ p <= 2) sampleEasyLogs.
Proof.
  apply (adjust_raises_only_when_easy (Gtg.normalizeExerciseRecord (bareRecord "reps"))
           sampleEasyLogs (Ctx.now sampleCtx)).
  vm_compute. reflexivity.
Defined.

(** The intensity goes down only on a warning: one of the logs reports a
    pain of three or more, or an effort of two reps in reserve or less; and
    it never goes below the floor. *)
Theorem adjust_lowers_only_on_warning (exercise : ExerciseRecord.t)
    (logs : list LogEntry.t) (now : Q) :
  let current :=
    Gtg.normalizeIntensity
      (Baseline.intensityPct (orElse (ExerciseRecord.baseline exercise) Baseline.empty)) in
  fst (GtgAdjust.decide exercise logs now) < current ->
  exists log, In log logs
              /\ ((exists p, LogEntry.pain0to10 log = Some p /\ 3 <= p)
                  \/ (exists r, LogEntry.rir log = Some r /\ r <= 2)).
Proof.
  cbv zeta.
  pose proof (normalizeIntensity_bounds
                (Baseline.intensityPct
                   (orElse (ExerciseRecord.baseline exercise) Baseline.empty))) as [Hlo Hhi].
  unfold GtgAdjust.decide. cbv zeta.
  set (current := Gtg.normalizeIntensity _) in *.
  destruct (existsb (fun value => Qgeb value 5) _) eqn:Hhigh; cbn [fst].
  { intros _. apply existsb_exists in Hhigh as (p & Hin & Hp).
    apply In_defined in Hin as (log & Hlog & Hpain).
    exists log. split; [exact Hlog|]. left. exists p. split; [exact Hpain|].
    apply Qgeb_true in Hp. lra. }
  destruct (negb _); cbn [fst]; [|lra].
  destruct (existsb (fun value => Qgeb value 3) _ || existsb _ logs) eqn:Hwarn; cbn [fst].
  { intros _. apply orb_true_iff in Hwarn as [Hpain|Heffort].
    - apply existsb_exists in Hpain as (p & Hin & Hp).
      apply In_defined in Hin as (log & Hlog & Hpain).
      exists log. split; [exact Hlog|]. left. exists p. split; [exact Hpain|].
      apply Qgeb_true, Hp.
    - apply existsb_exists in Heffort as (log & Hlog & Hr).
      exists log. split; [exact Hlog|]. right.
      destruct (LogEntry.rir log) as [r|]; [|discriminate].
      exists r. split; [reflexivity|]. apply Qleb_true, Hr. }
  destruct (3 <=? List.length logs)%nat; cbn [fst]; [|lra].
  destruct (_ && _); cbn [fst]; [|lra].
  intros Hlt. exfalso. apply Qlt_not_le in Hlt. apply Hlt.
  unfold Math_min. apply Q.min_glb; lra.
Qed.

Lemma adjust_lowers_only_on_warning_witness :
  exists log, In log (GtgAdjust.lastThree samplePainfulLogs "pushups")
              /\ ((exists p, LogEntry.pain0to10 log = Some p /\ 3 <= p)
                  \/ (exists r, LogEntry.rir log = Some r /\ r <= 2)).
Proof.
  apply (adjust_lowers_only_on_warning (Gtg.normalizeExerciseRecord (bareRecord "reps"))
           (GtgAdjust.lastThree samplePainfulLogs "pushups") (Ctx.now sampleCtx)).
  vm_compute. reflexivity.
Defined.
